(** * GalMag: grid, disk dynamo field and halo free-decay modes

    A shallow embedding of [galmag/Grid.py], [core/disk.py] and
    [gmf_tool/B_generators/halo_free_decay_modes.py].

    Conventions of the embedding.
    - A Python/NumPy float is a real number of [R]; arithmetic is exact.
      Where a claim depends on a value that leaves the real line (the
      [0/0] under [arccos] in the grid), the value has type [option R] and
      [None] stands for a non-finite float (nan, inf).
    - A NumPy array is a shape together with its items, indexed by
      triples; an elementwise NumPy expression acts item by item.  All
      arrays of one call have one common shape (what the docstrings call
      NxNxN arrays); broadcasting between different shapes is not
      modelled.
    - An exception is a value [Raise e] of [result].
    - The functions of SciPy the code calls ([j0], [j1], [jv],
      [jn_zeros], [nquad]) are the fields of the class [SciPy]; every
      statement holds for all of them. *)

From Stdlib Require Import Reals Lra Lia List ZArith String Bool.
Import ListNotations.
Open Scope R_scope.

(** ** Exceptions and results *)

Inductive exn : Set :=
| ValueError
| NotImplementedError
| IndexError
| KeyError
| ZeroDivisionError
| UnboundLocalError.

Inductive result (A : Type) : Type :=
| Ok (a : A)
| Raise (e : exn).
Arguments Ok {A} a.
Arguments Raise {A} e.

Definition result_bind {A B} (r : result A) (f : A -> result B) : result B :=
  match r with
  | Ok a => f a
  | Raise e => Raise e
  end.

(** ** NumPy arrays and the NumPy functions the code uses *)

Module np.

Definition index : Set := (nat * nat * nat)%type.

Record ndarray (A : Type) : Type := mk_ndarray {
  shape : nat * nat * nat;
  item : index -> A
}.
Arguments mk_ndarray {A} shape item.
Arguments shape {A} n.
Arguments item {A} n i.

(** [i] is a legal index of an array of shape [s]. *)
Definition in_shape (s : nat * nat * nat) (i : index) : Prop :=
  let '(n0, n1, n2) := s in
  let '(i0, i1, i2) := i in
  (i0 < n0)%nat /\ (i1 < n1)%nat /\ (i2 < n2)%nat.

(** Elementwise application of a function of one, two or three arrays. *)
Definition map {A B} (f : A -> B) (a : ndarray A) : ndarray B :=
  mk_ndarray (shape a) (fun i => f (item a i)).

Definition map2 {A B C} (f : A -> B -> C) (a : ndarray A) (b : ndarray B)
  : ndarray C :=
  mk_ndarray (shape a) (fun i => f (item a i) (item b i)).

Definition map3 {A B C D} (f : A -> B -> C -> D)
    (a : ndarray A) (b : ndarray B) (c : ndarray C) : ndarray D :=
  mk_ndarray (shape a) (fun i => f (item a i) (item b i) (item c i)).

(** [np.zeros_like(a)] *)
Definition zeros_like (a : ndarray R) : ndarray R :=
  mk_ndarray (shape a) (fun _ => 0).

(** [a[mask] = v] for a boolean mask of the shape of [a]. *)
Definition setitem_mask (a : ndarray R) (mask : ndarray bool) (v : R)
  : ndarray R :=
  mk_ndarray (shape a) (fun i => if item mask i then v else item a i).

(** [a > b] on floats, as a boolean. *)
Definition gtb (a b : R) : bool := if Rgt_dec a b then true else false.

(** [a / b] on floats: not finite when [b] is zero. *)
Definition divide (a b : R) : option R :=
  if Req_dec_T b 0 then None else Some (a / b).

(** [np.arccos]: nan outside [-1, 1] and on a non-finite argument. *)
Definition arccos (u : option R) : option R :=
  match u with
  | Some v =>
      if Rle_dec (-1) v then
        if Rle_dec v 1 then Some (acos v) else None
      else None
  | None => None
  end.

(** [np.cos] on a possibly non-finite argument. *)
Definition cos (u : option R) : option R := option_map Rtrigo_def.cos u.

(** Product of a float and a possibly non-finite one. *)
Definition multiply (a : R) (u : option R) : option R :=
  option_map (Rmult a) u.

(** [np.arctan2(y, x)], with values in (-pi, pi]. *)
Definition arctan2 (y x : R) : R :=
  if Rlt_dec 0 x then atan (y / x)
  else if Rlt_dec x 0 then
    if Rle_dec 0 y then atan (y / x) + PI else atan (y / x) - PI
  else if Rlt_dec 0 y then PI / 2
  else if Rlt_dec y 0 then - (PI / 2)
  else 0.

(** A slice [start:stop:n*1j] with an imaginary step, as [np.mgrid]
    takes it: [n] is the number of samples. *)
Record slice : Set := mk_slice {
  start : R;
  stop : R;
  step_j : Z
}.

(** The spacing [np.mgrid] uses on one axis: [(stop - start)/(n - 1)],
    and 1 when there is a single sample. *)
Definition mgrid_step (s : slice) : R :=
  let n := Z.abs (step_j s) in
  if (n =? 1)%Z then 1 else (stop s - start s) / (IZR n - 1).

Definition mgrid_size (s : slice) : nat := Z.to_nat (Z.abs (step_j s)).

(** The sample of rank [i] on one axis. *)
Definition mgrid_axis (s : slice) (i : nat) : R :=
  INR i * mgrid_step s + start s.

(** [np.mgrid[s0, s1, s2]]: the three coordinate arrays of the dense
    mesh, [local_coordinates[0]], [[1]] and [[2]]. *)
Definition mgrid (s0 s1 s2 : slice)
  : ndarray R * ndarray R * ndarray R :=
  let sh := (mgrid_size s0, mgrid_size s1, mgrid_size s2) in
  (mk_ndarray sh (fun '(i, _, _) => mgrid_axis s0 i),
   mk_ndarray sh (fun '(_, j, _) => mgrid_axis s1 j),
   mk_ndarray sh (fun '(_, _, k) => mgrid_axis s2 k)).

(** [np.empty(resolution)]: fails on a negative dimension; the items
    are unspecified (here 0) and the grid never reads them. *)
Definition empty (res : Z * Z * Z) : result (ndarray R) :=
  let '(n0, n1, n2) := res in
  if ((n0 <? 0) || (n1 <? 0) || (n2 <? 0))%Z then Raise ValueError
  else Ok (mk_ndarray (Z.to_nat n0, Z.to_nat n1, Z.to_nat n2) (fun _ => 0)).

End np.

(** ** SciPy: special functions and quadrature *)

Class SciPy : Type := {
  (** Bessel functions of the first kind, of order 0, 1 and of real order. *)
  j0 : R -> R;
  j1 : R -> R;
  jv : R -> R -> R;
  (** [jn_zeros n nt]: the first [nt] positive zeros of the Bessel
      function of order [n]. *)
  jn_zeros : Z -> nat -> list R;
  (** [nquad f ranges]: the approximate integral of [f] over the box
      [ranges] and an estimate of the absolute error. *)
  nquad : (R -> R -> R -> R) -> list (R * R) -> R * R
}.

(** ** galmag/Grid.py *)

Module Grid.

(** The dictionary [_generate_coordinates] returns; its seven keys are
    the fields.  [theta] alone can hold a non-finite item. *)
Record coordinates_dict : Type := mk_coordinates {
  c_x : np.ndarray R;
  c_y : np.ndarray R;
  c_z : np.ndarray R;
  c_r_spherical : np.ndarray R;
  c_r_cylindrical : np.ndarray R;
  c_theta : np.ndarray (option R);
  c_phi : np.ndarray R
}.

Record t : Type := mk_Grid {
  box : (R * R) * (R * R) * (R * R);
  resolution : Z * Z * Z;
  grid_type : string;
  _coordinates : option coordinates_dict;
  _prototype_source : option unit
}.

(** [Grid.__init__]: stores its arguments; nothing is checked. *)
Definition __init__ (box : (R * R) * (R * R) * (R * R))
    (resolution : Z * Z * Z) (grid_type : string) : result t :=
  Ok (mk_Grid box resolution grid_type None None).

Definition get_prototype (self : t) : result (np.ndarray R) :=
  np.empty (resolution self).

Definition sqr (a : R) : R := a * a.

Definition _generate_coordinates (self : t) : result coordinates_dict :=
  result_bind (get_prototype self) (fun _ =>
  let '(b0, b1, b2) := box self in
  let '(n0, n1, n2) := resolution self in
  let local_slice :=
    (np.mk_slice (fst b0) (snd b0) n0,
     np.mk_slice (fst b1) (snd b1) n1,
     np.mk_slice (fst b2) (snd b2) n2) in
  let '(lc0, lc1, lc2) :=
    let '(s0, s1, s2) := local_slice in np.mgrid s0 s1 s2 in
  if String.eqb (grid_type self) "cartesian" then
    let x2y2 := np.map2 (fun a b => sqr a + sqr b) lc0 lc1 in
    let local_r_spherical :=
      np.map2 (fun s c => sqrt (s + sqr c)) x2y2 lc2 in
    let local_r_cylindrical := np.map sqrt x2y2 in
    let local_theta :=
      np.map2 (fun c r => np.arccos (np.divide c r)) lc2 local_r_spherical in
    let local_phi := np.map2 np.arctan2 lc1 lc0 in
    Ok (mk_coordinates lc0 lc1 lc2 local_r_spherical local_r_cylindrical
          local_theta local_phi)
  else if String.eqb (grid_type self) "spherical" then
    let local_sin_theta := np.map sin lc1 in
    let local_cos_theta := np.map cos lc1 in
    let local_sin_phi := np.map sin lc2 in
    let local_cos_phi := np.map cos lc2 in
    let local_x :=
      np.map3 (fun r st cp => r * st * cp) lc0 local_sin_theta local_cos_phi in
    let local_y :=
      np.map3 (fun r st sp => r * st * sp) lc0 local_sin_theta local_sin_phi in
    let local_z := np.map2 Rmult lc0 local_cos_theta in
    let local_r_cylindrical := np.map2 Rmult lc0 local_sin_theta in
    Ok (mk_coordinates local_x local_y local_z lc0 local_r_cylindrical
          (np.map Some lc1) lc2)
  else if String.eqb (grid_type self) "cylindrical" then
    let local_sin_phi := np.map sin lc1 in
    let local_cos_phi := np.map cos lc1 in
    let local_x := np.map2 Rmult lc0 local_cos_phi in
    let local_y := np.map2 Rmult lc0 local_sin_phi in
    let local_r_spherical :=
      np.map2 (fun s c => sqrt (sqr s + sqr c)) lc0 lc2 in
    let local_theta :=
      np.map2 (fun c r => np.arccos (np.divide c r)) lc2 local_r_spherical in
    Ok (mk_coordinates local_x local_y lc2 local_r_spherical lc0
          local_theta lc1)
  else Raise ValueError).

(** The property [coordinates]: computed at the first access, then
    kept in [_coordinates].  Returns the value and the grid after. *)
Definition coordinates (self : t) : result coordinates_dict * t :=
  match _coordinates self with
  | Some c => (Ok c, self)
  | None =>
      match _generate_coordinates self with
      | Ok c =>
          (Ok c, mk_Grid (box self) (resolution self) (grid_type self)
                   (Some c) (_prototype_source self))
      | Raise e => (Raise e, self)
      end
  end.

(** The seven coordinate properties. *)
Definition property {A} (key : coordinates_dict -> A) (self : t)
  : result A * t :=
  let '(r, self') := coordinates self in
  (result_bind r (fun c => Ok (key c)), self').

Definition x := property c_x.
Definition y := property c_y.
Definition z := property c_z.
Definition r_spherical := property c_r_spherical.
Definition r_cylindrical := property c_r_cylindrical.
Definition theta := property c_theta.
Definition phi := property c_phi.

Definition valid_grid_type (s : string) : Prop :=
  s = "cartesian"%string \/ s = "spherical"%string \/ s = "cylindrical"%string.

(** A property that divides one coordinate array by another, as
    [self.a / self.b]: both are read through their properties, in this
    order, and the quotient is taken item by item. *)
Definition ratio (num den : coordinates_dict -> np.ndarray R) (self : t)
  : result (np.ndarray (option R)) * t :=
  let '(a, self1) := property num self in
  match a with
  | Raise e => (Raise e, self1)
  | Ok a =>
      let '(b, self2) := property den self1 in
      (result_bind b (fun b => Ok (np.map2 np.divide a b)), self2)
  end.

Definition sin_theta := ratio c_r_cylindrical c_r_spherical.
Definition cos_theta := ratio c_z c_r_spherical.
Definition sin_phi := ratio c_y c_r_cylindrical.
Definition cos_phi := ratio c_x c_r_cylindrical.

End Grid.

(** ** core/disk.py *)

Module disk.

(** The dictionary of parameters [p]; its keys are the fields. *)
Record params : Type := mk_params {
  Ralpha_d : R;
  D_d : R;
  R_d : R;
  Cn_d : list R;
  h_d : R
}.

(** A Python [dict] with float keys, in insertion order. *)
Definition dict : Type := list (R * R).

Fixpoint dict_get (d : dict) (k : R) : option R :=
  match d with
  | [] => None
  | (k', v) :: d' => if Req_dec_T k k' then Some v else dict_get d' k
  end.

Definition dict_contains (d : dict) (k : R) : bool :=
  match dict_get d k with
  | Some _ => true
  | None => false
  end.

Fixpoint dict_set (d : dict) (k v : R) : dict :=
  match d with
  | [] => [(k, v)]
  | (k', v') :: d' =>
      if Req_dec_T k k' then (k', v) :: d' else (k', v') :: dict_set d' k v
  end.

(** The state of the module: the global [B_norm], and the wavenumbers
    for which [nquad] has been run so far, oldest first (a record of
    the calls, for counting them; the code does not keep it). *)
Record world : Type := mk_world {
  B_norm : dict;
  nquad_calls : list R
}.

Definition initial_world : world := mk_world [] [].

(** Computations that read and write the module state and may raise;
    the state survives an exception. *)
Definition M (A : Type) : Type := world -> result A * world.

Definition ret {A} (a : A) : M A := fun w => (Ok a, w).

Definition raise {A} (e : exn) : M A := fun w => (Raise e, w).

Definition bind {A B} (m : M A) (f : A -> M B) : M B :=
  fun w =>
    match m w with
    | (Ok a, w') => f a w'
    | (Raise e, w') => (Raise e, w')
    end.

Notation "x <- c1 ;; c2" := (bind c1 (fun x => c2))
  (at level 61, c1 at next level, right associativity).
Notation "' pat <- c1 ;; c2" := (bind c1 (fun x => match x with pat => c2 end))
  (at level 61, pat pattern, c1 at next level, right associativity).

Definition get_B_norm : M dict := fun w => (Ok (B_norm w), w).

Definition set_B_norm (k v : R) : M unit :=
  fun w => (Ok tt, mk_world (dict_set (B_norm w) k v) (nquad_calls w)).

Definition log_nquad (kn : R) : M unit :=
  fun w => (Ok tt, mk_world (B_norm w) (nquad_calls w ++ [kn])).

(** [x ** y] on Python floats: a zero base with a negative exponent
    raises.  (For a negative base and a fractional exponent Python
    returns a complex number, which this embedding does not hold; the
    value is then [Rpower]'s.) *)
Definition float_pow (x y : R) : result R :=
  if Req_dec_T x 0 then
    if Rlt_dec y 0 then Raise ZeroDivisionError
    else if Req_dec_T y 0 then Ok 1 else Ok 0
  else Ok (Rpower x y).

Definition lift_result {A} (r : result A) : M A := fun w => (r, w).

Section with_scipy.
Context `{SciPy}.

(** [get_B_disk_cyl_unnormalized] at one sample: this is the function on
    scalars, as [nquad] calls it through the integrand. *)
Definition get_B_disk_cyl_unnormalized_item (r phi z kn : R) (p : params)
  : R * R * R :=
  let Ralpha := Ralpha_d p in
  let D := D_d p in
  let Br := Ralpha * j1 (kn * r) * (cos (PI * z / 2)
              + 3 * cos (3 * PI * z / 2) / (4 * Rpower PI 1.5 * sqrt (- D))) in
  let Bphi := -2 * j1 (kn * r) * sqrt (- D / PI) * cos (PI * z / 2) in
  let Bz := -2 * Ralpha / PI
            * (j1 (kn * r) + 0.5 * kn * r * (j0 (kn * r) - jv 2 (kn * r)))
            * (sin (PI * z / 2)
               + sin (3 * PI * z / 2) / (4 * Rpower PI 1.5 * sqrt (- D))) in
  (Br, Bphi, Bz).

(** The same function on arrays. *)
Definition get_B_disk_cyl_unnormalized (r phi z : np.ndarray R) (kn : R)
    (p : params) : np.ndarray R * np.ndarray R * np.ndarray R :=
  let B := np.map3 (fun r phi z => get_B_disk_cyl_unnormalized_item r phi z kn p)
             r phi z in
  (np.map (fun b => fst (fst b)) B,
   np.map (fun b => snd (fst b)) B,
   np.map snd B).

Definition __intregrand_compute_normalization (r phi z kn : R) (p : params)
  : R :=
  let '(Br, Bphi, Bz) := get_B_disk_cyl_unnormalized_item r phi z kn p in
  r * Br * Br + Bphi * Bphi + Bz * Bz.

(** The lock around [nquad] serialises threads; calls are sequential
    here. *)
Definition compute_normalization (kn : R) (p : params) : M R :=
  let r_range := (0, 1) in
  let phi_range := (0, 2 * PI) in
  let z_range := (-1, 1) in
  _ <- log_nquad kn ;;
  let tmp := nquad (fun r phi z => __intregrand_compute_normalization r phi z kn p)
               [r_range; phi_range; z_range] in
  lift_result (float_pow (fst tmp) (-0.5)).

Definition get_B_disk_cyl_component (r phi z : np.ndarray R) (kn : R)
    (p : params) : M (np.ndarray R * np.ndarray R * np.ndarray R) :=
  d <- get_B_norm ;;
  _ <- (if dict_contains d kn then ret tt
        else v <- compute_normalization kn p ;; set_B_norm kn v) ;;
  let '(Br, Bphi, Bz) := get_B_disk_cyl_unnormalized r phi z kn p in
  d' <- get_B_norm ;;
  match dict_get d' kn with
  | Some N => ret (np.map (Rmult N) Br, np.map (Rmult N) Bphi,
                   np.map (Rmult N) Bz)
  | None => raise KeyError
  end.

Definition field : Type := (np.ndarray R * np.ndarray R * np.ndarray R)%type.

(** The loop of [get_B_disk_cyl] over [enumerate(zip(kns, Cns))], from
    rank [i]; [acc] holds [Br, Bphi, Bz] once they are bound. *)
Fixpoint get_B_disk_cyl_loop (r phi z : np.ndarray R) (p : params)
    (i : nat) (l : list (R * R)) (acc : option field) : M (option field) :=
  match l with
  | [] => ret acc
  | (kn, Cn) :: l' =>
      let acc := if Nat.eqb i 0
                 then Some (np.zeros_like r, np.zeros_like r, np.zeros_like r)
                 else acc in
      ' (Br_tmp, Bphi_tmp, Bz_tmp) <- get_B_disk_cyl_component r phi z kn p ;;
      match acc with
      | Some (Br, Bphi, Bz) =>
          get_B_disk_cyl_loop r phi z p (S i) l'
            (Some (np.map2 (fun b t => b + Cn * t) Br Br_tmp,
                   np.map2 (fun b t => b + Cn * t) Bphi Bphi_tmp,
                   np.map2 (fun b t => b + Cn * t) Bz Bz_tmp))
      | None => raise UnboundLocalError
      end
  end.

Definition get_B_disk_cyl (r phi z : np.ndarray R) (p : params) : M field :=
  let Cns := Cn_d p in
  let number_of_bessel := List.length Cns in
  let mu_n := jn_zeros 1 number_of_bessel in
  let kns := mu_n in
  acc <- get_B_disk_cyl_loop r phi z p 0 (combine kns Cns) None ;;
  match acc with
  | None => raise UnboundLocalError
  | Some (Br, Bphi, Bz) =>
      let mask := np.map (fun z => np.gtb (Rabs z) 1) z in
      let Br := np.setitem_mask Br mask 0 in
      let Bphi := np.setitem_mask Bphi mask 0 in
      let Bz := np.setitem_mask Bz mask 0 in
      ret (Br, Bphi, Bz)
  end.

(** [get_B_disk]: the field on cartesian positions.  The array [r] of
    shape 3 x N x N x N is the triple of its slices [r[0]], [r[1]],
    [r[2]], and so is the result [B]. *)
Definition get_B_disk (r : np.ndarray R * np.ndarray R * np.ndarray R)
    (p : params) : M field :=
  let '(r0, r1, r2) := r in
  let z_dl := np.map (fun v => v / h_d p) r2 in
  let y_dl := np.map (fun v => v / R_d p) r1 in
  let x_dl := np.map (fun v => v / R_d p) r0 in
  let rr := np.map2 (fun x y => sqrt (x ^ 2 + y ^ 2)) x_dl y_dl in
  let phi := np.map2 np.arctan2 y_dl x_dl in
  ' (Br, Bphi, Bz) <- get_B_disk_cyl rr phi z_dl p ;;
  let sin_phi := np.map sin phi in
  let cos_phi := np.map cos phi in
  ret (np.map2 Rminus (np.map2 Rmult Br cos_phi) (np.map2 Rmult Bphi sin_phi),
       np.map2 Rplus (np.map2 Rmult Br sin_phi) (np.map2 Rmult Bphi cos_phi),
       Bz).

End with_scipy.

End disk.

(** ** gmf_tool/B_generators/halo_free_decay_modes.py *)

Module halo_free_decay_modes.

(** [l[i]] on a Python list: a negative index counts from the end. *)
Definition list_getitem {A} (l : list A) (i : Z) : result A :=
  let n := Z.of_nat (List.length l) in
  let j := if (i <? 0)%Z then (i + n)%Z else i in
  if ((j <? 0) || (n <=? j))%Z then Raise IndexError
  else match nth_error l (Z.to_nat j) with
       | Some a => Ok a
       | None => Raise IndexError
       end.

(** [x ** y] for a float exponent with an integer value. *)
Definition pow_int (x : R) (n : Z) : R := powerRZ x n.

Definition field : Type := (np.ndarray R * np.ndarray R * np.ndarray R)%type.

(** An array function given by what it computes at each item. *)
Definition itemwise (f : R -> R -> R -> R * R * R)
    (r theta phi : np.ndarray R) : field :=
  let B := np.map3 f r theta phi in
  (np.map (fun b => fst (fst b)) B,
   np.map (fun b => snd (fst b)) B,
   np.map snd B).

Section with_scipy.
Context `{SciPy}.

(** Each mode is given first at one item of its arrays: the test
    [r <= 1] stands for the mask [separator], and a component made by
    [N.zeros_like(r)] is 0. *)

Definition get_B_a_1_item (C k : R) (r theta phi : R) : R * R * R :=
  let Q := if Rle_dec r 1
           then Rpower r (-0.5) * jv (3 / 2) (k * r)
           else pow_int r (-2) * jv (3 / 2) k in
  let Br := C * (2 / r) * Q * cos theta in
  let y := k * r in
  let X := if Rle_dec r 1
           then sqrt (2 / PI) * (y ^ 2 * sin y - sin y + y * cos y)
                / (Rpower k (-0.5) * y ^ 2)
           else -1 * pow_int r (-2) * jv (3 / 2) k in
  let Btheta := C * (- sin theta / r) * X in
  let Bphi := 0 in
  (Br, Btheta, Bphi).

Definition get_B_a_2_item (C k : R) (r theta phi : R) : R * R * R :=
  let Q := if Rle_dec r 1
           then Rpower r (-0.5) * jv (7 / 2) (k * r)
           else pow_int r (-4) * jv (7 / 2) k in
  let Br := Q * cos theta * (5 * cos (2 * theta) - 1) * C * (2 / r) in
  let y := k * r in
  let siny := sin y in
  let cosy := cos y in
  let A := 15 * siny / (y ^ 3) - 15 * cosy / (y ^ 2) - 6 * (siny / y) + cosy in
  let B := -45 * siny / y ^ 3 / r + 45 * cosy / y ^ 2 / r
           + 21 * siny / y / r - k * siny - 6 * siny / r in
  let X := if Rle_dec r 1
           then A / sqrt (2 * PI * r * y)
                - k * sqrt r * A / sqrt (2 * PI) / Rpower y (3 / 2)
                + sqrt (2 / PI) * B / sqrt k
           else 0 in
  let Btheta := C * (- sin theta / r) * (5 * (cos theta) ^ 2 - 1) * X in
  let Bphi := 0 in
  (Br, Btheta, Bphi).

Definition get_B_a_3_item (C k : R) (r theta phi : R) : R * R * R :=
  let Br := 0 in
  let Btheta := 0 in
  let Q := if Rle_dec r 1
           then Rpower r (-0.5) * jv (5 / 2) (k * r)
           else pow_int r (-3) * jv (5 / 2) k in
  let Bphi := C * Q * sin theta * cos theta in
  (Br, Btheta, Bphi).

Definition get_B_s_1_item (C k : R) (r theta phi : R) : R * R * R :=
  let Q := if Rle_dec r 1
           then Rpower r (-0.5) * jv (5 / 2) (k * r)
           else pow_int r (-3) * jv (5 / 2) k in
  let Br := C * Q * (3 * cos theta ^ 2 - 1) / r in
  let y := k * r in
  let siny := sin y in
  let cosy := cos y in
  let X := if Rle_dec r 1
           then (3 * siny / y ^ 2 - siny - 3 * cosy / y) / sqrt (2 * PI * y * r)
                - k * sqrt r * (3 * siny / y ^ 2 - siny - 3 * cosy / y)
                  / sqrt (2 * PI) * Rpower y (-3 / 2)
                + sqrt (2 / PI * r)
                  * (-6 * siny * k / y ^ 3 + 6 * cosy * k / y ^ 2
                     + 3 * siny * k / y - k * cosy) / sqrt y
           else -2 * pow_int r (-3) * jv (5 / 2) k in
  let Btheta := C * (- sin theta * cos theta / r) * X in
  let Bphi := 0 in
  (Br, Btheta, Bphi).

Definition get_B_s_2_item (C k : R) (r theta phi : R) : R * R * R :=
  let Br := 0 in
  let Btheta := 0 in
  let Q := if Rle_dec r 1
           then Rpower r (-0.5) * jv (3 / 2) (k * r)
           else pow_int r (-2) * jv (3 / 2) k in
  let Bphi := C * Q * sin theta in
  (Br, Btheta, Bphi).

Definition get_B_s_3_item (C k : R) (r theta phi : R) : R * R * R :=
  let cost := cos theta in
  let sint := sin theta in
  let y := k * r in
  let Q := if Rle_dec r 1
           then Rpower r (-0.5) * jv (9 / 2) y
           else pow_int r (-5) * jv (9 / 2) k in
  let S := -700 * cost ^ 4 + 600 * cost ^ 2 - 60 in
  let Br := C * Q * S / r in
  let Q := if Rle_dec r 1
           then Q / 2 + Rpower r 0.5 / 2 * k * (jv (7 / 2) y - jv (11 / 2) y)
           else -4 * pow_int r (-5) * jv (9 / 2) k in
  let S := -140 * cost ^ 3 * sint + 60 * cost * sint in
  let Btheta := - C * Q * S / r in
  let Bphi := 0 in
  (Br, Btheta, Bphi).

Definition get_B_s_4_item (C k : R) (r theta phi : R) : R * R * R :=
  let Br := 0 in
  let Btheta := 0 in
  let Q := if Rle_dec r 1
           then Rpower r (-0.5) * jv (7 / 2) (k * r)
           else pow_int r (-4) * jv (7 / 2) k in
  let S := 3 * sin theta * (1 - 5 * (cos theta) ^ 2) in
  let Bphi := - C * Q * S in
  (Br, Btheta, Bphi).

(** The functions of the module, on arrays, with their keyword
    arguments [C] and [k] ahead of the coordinates. *)
Definition get_B_a_1 (C k : R) := itemwise (get_B_a_1_item C k).
Definition get_B_a_2 (C k : R) := itemwise (get_B_a_2_item C k).
Definition get_B_a_3 (C k : R) := itemwise (get_B_a_3_item C k).
Definition get_B_a_4 (C k : R) := get_B_a_1 C k.
Definition get_B_s_1 (C k : R) := itemwise (get_B_s_1_item C k).
Definition get_B_s_2 (C k : R) := itemwise (get_B_s_2_item C k).
Definition get_B_s_3 (C k : R) := itemwise (get_B_s_3_item C k).
Definition get_B_s_4 (C k : R) := itemwise (get_B_s_4_item C k).

(** A mode called as [f(r, theta, phi)], with the defaults of its
    signature for [C] and [k]. *)
Definition mode : Type := np.ndarray R -> np.ndarray R -> np.ndarray R -> field.

Definition a_1 : mode := get_B_a_1 0.346 PI.
Definition a_2 : mode := get_B_a_2 0.250 5.763.
Definition a_3 : mode := get_B_a_3 3.445 5.763.
Definition a_4 : mode := get_B_a_4 0.244 (2 * PI).
Definition s_1 : mode := get_B_s_1 0.653646562698 4.493409457909.
Definition s_2 : mode := get_B_s_2 1.32984358196 4.493409457909.
Definition s_3 : mode := get_B_s_3 0.0169610298034 6.987932000501.
Definition s_4 : mode := get_B_s_4 0.539789362061 6.987932000501.

Definition symmetric_modes_list : list mode := [s_1; s_2; s_3; s_4].
Definition antisymmetric_modes_list : list mode := [a_1; a_2; a_3; a_4].

Definition get_mode (r theta phi : np.ndarray R) (n_mode : Z)
    (symmetric : bool) : result field :=
  if (n_mode >? 4)%Z then Raise NotImplementedError
  else if symmetric
  then result_bind (list_getitem symmetric_modes_list (n_mode - 1))
         (fun f => Ok (f r theta phi))
  else result_bind (list_getitem antisymmetric_modes_list (n_mode - 1))
         (fun f => Ok (f r theta phi)).

End with_scipy.

End halo_free_decay_modes.

(** ** Vocabulary of the statements *)

(** The three components of a field. *)
Definition B_1 (B : np.ndarray R * np.ndarray R * np.ndarray R)
  : np.ndarray R := fst (fst B).
Definition B_2 (B : np.ndarray R * np.ndarray R * np.ndarray R)
  : np.ndarray R := snd (fst B).
Definition B_3 (B : np.ndarray R * np.ndarray R * np.ndarray R)
  : np.ndarray R := snd B.

(** [N * Br, N * Bphi, N * Bz] *)
Definition scale (N : R) (B : np.ndarray R * np.ndarray R * np.ndarray R)
  : np.ndarray R * np.ndarray R * np.ndarray R :=
  (np.map (Rmult N) (B_1 B), np.map (Rmult N) (B_2 B), np.map (Rmult N) (B_3 B)).

Module GridSpec.

(** The three identities of the coordinate bundle at the grid point [i]. *)
Definition cylindrical_identity (c : Grid.coordinates_dict) (i : np.index)
  : Prop :=
  Grid.sqr (np.item (Grid.c_x c) i) + Grid.sqr (np.item (Grid.c_y c) i)
  = Grid.sqr (np.item (Grid.c_r_cylindrical c) i).

Definition spherical_identity (c : Grid.coordinates_dict) (i : np.index)
  : Prop :=
  Grid.sqr (np.item (Grid.c_x c) i) + Grid.sqr (np.item (Grid.c_y c) i)
  + Grid.sqr (np.item (Grid.c_z c) i)
  = Grid.sqr (np.item (Grid.c_r_spherical c) i).

(** [z = r_spherical * cos(theta)]: the right-hand side is a finite
    float and it is [z]. *)
Definition polar_identity (c : Grid.coordinates_dict) (i : np.index)
  : Prop :=
  np.multiply (np.item (Grid.c_r_spherical c) i)
    (np.cos (np.item (Grid.c_theta c) i))
  = Some (np.item (Grid.c_z c) i).

Definition positive_resolution (res : Z * Z * Z) : Prop :=
  let '(n0, n1, n2) := res in (0 < n0 /\ 0 < n1 /\ 0 < n2)%Z.

(** A grid freshly made by the constructor. *)
Definition fresh (box : (R * R) * (R * R) * (R * R)) (res : Z * Z * Z)
    (grid_type : string) : Grid.t :=
  Grid.mk_Grid box res grid_type None None.

Definition cube : (R * R) * (R * R) * (R * R) := ((-1, 1), (-1, 1), (-1, 1)).

End GridSpec.

Module DiskSpec.

Section with_scipy.
Context `{SciPy}.

(** The value [compute_normalization] returns for [kn] and [p]. *)
Definition normalization_value (kn : R) (p : disk.params) : result R :=
  disk.float_pow
    (fst (nquad (fun r phi z => disk.__intregrand_compute_normalization r phi z kn p)
            [(0, 1); (0, 2 * PI); (-1, 1)]))
    (-0.5).

(** The integrand of the normalization as the specification words it:
    [r] times the sum of the three squared components. *)
Definition spec_integrand (r phi z kn : R) (p : disk.params) : R :=
  let '(Br, Bphi, Bz) := disk.get_B_disk_cyl_unnormalized_item r phi z kn p in
  r * (Br * Br + Bphi * Bphi + Bz * Bz).

(** One call of [get_B_disk_cyl_component]. *)
Record call : Type := mk_call {
  call_r : np.ndarray R;
  call_phi : np.ndarray R;
  call_z : np.ndarray R;
  call_kn : R;
  call_p : disk.params
}.

Definition do_call (c : call) (w : disk.world) : disk.world :=
  snd (disk.get_B_disk_cyl_component (call_r c) (call_phi c) (call_z c)
         (call_kn c) (call_p c) w).

(** The module state after a sequence of calls, whatever each returns
    or raises. *)
Definition run (cs : list call) (w : disk.world) : disk.world :=
  fold_left (fun w c => do_call c w) cs w.

(** How often a sequence of calls started on the empty cache integrates
    for [kn]: once for each call with [kn], up to and including the
    first one whose integration gives a factor. *)
Fixpoint integrations (kn : R) (cs : list call) : nat :=
  match cs with
  | [] => 0
  | c :: cs' =>
      if Req_dec_T (call_kn c) kn then
        match normalization_value kn (call_p c) with
        | Ok _ => 1
        | Raise _ => S (integrations kn cs')
        end
      else integrations kn cs'
  end.

End with_scipy.

End DiskSpec.

Module HaloSpec.

(** A mode is purely toroidal when its radial and polar components are
    zero at every item, and purely poloidal when its azimuthal one is,
    whatever the arrays are. *)
Definition purely_toroidal (m : halo_free_decay_modes.mode) : Prop :=
  forall (r theta phi : np.ndarray R) (i : np.index),
    np.item (B_1 (m r theta phi)) i = 0 /\ np.item (B_2 (m r theta phi)) i = 0.

Definition purely_poloidal (m : halo_free_decay_modes.mode) : Prop :=
  forall (r theta phi : np.ndarray R) (i : np.index),
    np.item (B_3 (m r theta phi)) i = 0.

End HaloSpec.

Module DiskSum.

Section with_scipy.
Context `{SciPy}.

(** The factor cached for [kn] in a state of the module (0 when there
    is none). *)
Definition cached_factor (w : disk.world) (kn : R) : R :=
  match disk.dict_get (disk.B_norm w) kn with
  | Some N => N
  | None => 0
  end.

(** The sum the loop of [get_B_disk_cyl] builds for one component
    (picked by [proj]) at the sample [(r, phi, z)]: starting from [b],
    each mode [(kn, Cn)] adds [Cn] times its normalized component. *)
Definition superposition (proj : R * R * R -> R) (w : disk.world)
    (p : disk.params) (r phi z : R) (modes : list (R * R)) (b : R) : R :=
  fold_left
    (fun acc m =>
       acc + snd m * (cached_factor w (fst m)
                      * proj (disk.get_B_disk_cyl_unnormalized_item
                                r phi z (fst m) p)))
    modes b.

End with_scipy.

End DiskSum.

(** A second stand-in, with the closed form of the Bessel function of
    order 3/2 for [jv]: sqrt(2/(pi x)) (sin x / x - cos x). *)
Definition j_three_halves (x : R) : R :=
  sqrt (2 / (PI * x)) * (sin x / x - cos x).

Definition closed_form_scipy : SciPy := {|
  j0 := fun x => 1 - x * x / 4;
  j1 := fun x => x / 2;
  jv := fun _ x => j_three_halves x;
  jn_zeros := fun _ nt => firstn nt [3.8317; 7.0156];
  nquad := fun _ _ => (1, 0)
|}.

(** A stand-in for SciPy, to exhibit runs of the code: the leading terms
    of the Bessel series, two zeros of J1 to four digits, and the
    midpoint rule on the box of [compute_normalization]. *)
Definition sample_nquad (f : R -> R -> R -> R) (ranges : list (R * R))
  : R * R :=
  match ranges with
  | [(a0, b0); (a1, b1); (a2, b2)] =>
      ((b0 - a0) * (b1 - a1) * (b2 - a2)
       * f ((a0 + b0) / 2) ((a1 + b1) / 2) ((a2 + b2) / 2), 0)
  | _ => (0, 0)
  end.

Definition sample_scipy : SciPy := {|
  j0 := fun x => 1 - x * x / 4;
  j1 := fun x => x / 2;
  jv := fun v x => if Req_dec_T v 2 then x * x / 8 else 0;
  jn_zeros := fun _ nt => firstn nt [3.8317; 7.0156];
  nquad := sample_nquad
|}.

(** Parameters with no induction term, one mode, unit lengths. *)
Definition sample_params (D : R) : disk.params := disk.mk_params 0 D 1 [1] 1.

(** Two radii, 1 and 2, along the first axis. *)
Definition two_radii : np.ndarray R :=
  np.mk_ndarray (2, 1, 1)%nat (fun '(i, _, _) => if Nat.eqb i 0 then 1 else 2).

(** The polar angle pi/2 at every item of an array. *)
Definition equatorial (a : np.ndarray R) : np.ndarray R :=
  np.map (fun _ => PI / 2) a.

(** A one-item array. *)
Definition single (a : R) : np.ndarray R := np.mk_ndarray (1, 1, 1)%nat (fun _ => a).

(** Samples [f 0], [f 1], ... evenly spaced from [a] to [b], both ends
    included, [n] of them. *)
Definition evenly_spaced (a b : R) (n : Z) (f : nat -> R) : Prop :=
  f 0%nat = a
  /\ ((1 < n)%Z ->
      f (Z.to_nat n - 1)%nat = b
      /\ forall i, f (S i) - f i = (b - a) / (IZR n - 1))
  /\ (a <= b -> forall i, (i < Z.to_nat n)%nat -> a <= f i <= b).

(** The component [comp] of the mode [m] is, at a radius above 1, its
    value on the unit sphere at the same polar angle divided by the
    [n]-th power of the radius. *)
Definition decays_from_boundary
    (comp : np.ndarray R * np.ndarray R * np.ndarray R -> np.ndarray R)
    (m : halo_free_decay_modes.mode) (n : nat) : Prop :=
  forall (r theta phi : np.ndarray R) (i j : np.index),
    np.item r i = 1 -> 1 < np.item r j ->
    np.item theta j = np.item theta i ->
    np.item (comp (m r theta phi)) j
    = np.item (comp (m r theta phi)) i / np.item r j ^ n.

(** Reflecting the polar angle across the equator multiplies the three
    components of the mode [m] by [s1], [s2] and [s3]. *)
Definition reflects_with (s1 s2 s3 : R) (m : halo_free_decay_modes.mode)
  : Prop :=
  forall (r theta theta' phi phi' : np.ndarray R) (i : np.index),
    np.item theta' i = PI - np.item theta i ->
    np.item (B_1 (m r theta' phi')) i = s1 * np.item (B_1 (m r theta phi)) i
    /\ np.item (B_2 (m r theta' phi')) i = s2 * np.item (B_2 (m r theta phi)) i
    /\ np.item (B_3 (m r theta' phi')) i = s3 * np.item (B_3 (m r theta phi)) i.

(** Parameters as [sample_params], with the single coefficient 0. *)
Definition null_params (D : R) : disk.params := disk.mk_params 0 D 1 [0] 1.

(** The polar angles pi/3 and 2 pi/3, mirror images across the equator. *)
Definition north (a : np.ndarray R) : np.ndarray R := np.map (fun _ => PI / 3) a.
Definition south (a : np.ndarray R) : np.ndarray R :=
  np.map (fun _ => PI - PI / 3) a.


(** * Properties *)

(** ** Grid *)

Section GridFacts.

Import GridSpec.

Lemma empty_positive (res : Z * Z * Z) :
  positive_resolution res ->
  exists a, np.empty res = Ok a.
Proof.
  destruct res as [[n0 n1] n2]; simpl; intros (H0 & H1 & H2).
  replace (n0 <? 0)%Z with false by (symmetry; apply Z.ltb_ge; lia).
  replace (n1 <? 0)%Z with false by (symmetry; apply Z.ltb_ge; lia).
  replace (n2 <? 0)%Z with false by (symmetry; apply Z.ltb_ge; lia).
  simpl; eauto.
Qed.

(** The quotient of a coordinate by a non-zero radius it is part of lies
    in the domain of [arccos], and the cosine of the angle gives the
    coordinate back. *)
Lemma polar_of_sqrt (s c : R) :
  0 <= s ->
  sqrt (s + Grid.sqr c) <> 0 ->
  np.multiply (sqrt (s + Grid.sqr c))
    (np.cos (np.arccos (np.divide c (sqrt (s + Grid.sqr c)))))
  = Some c.
Proof.
  intros Hs Hr.
  set (r := sqrt (s + Grid.sqr c)) in *.
  assert (Hsq : r * r = s + c * c).
  { unfold r, Grid.sqr; apply sqrt_sqrt; nra. }
  assert (Hpos : 0 < r).
  { destruct (sqrt_pos (s + Grid.sqr c)) as [Hlt | Heq]; [exact Hlt|].
    exfalso; apply Hr; symmetry; exact Heq. }
  assert (Hu : -1 <= c / r <= 1).
  { split.
    - apply Rmult_le_reg_r with r; [exact Hpos|].
      unfold Rdiv; rewrite Rmult_assoc, Rinv_l by exact Hr; nra.
    - apply Rmult_le_reg_r with r; [exact Hpos|].
      unfold Rdiv; rewrite Rmult_assoc, Rinv_l by exact Hr; nra. }
  unfold np.divide.
  destruct (Req_dec_T r 0) as [E | _]; [contradiction|].
  unfold np.arccos.
  destruct (Rle_dec (-1) (c / r)) as [_ | N]; [|tauto].
  destruct (Rle_dec (c / r) 1) as [_ | N]; [|tauto].
  simpl; rewrite cos_acos by exact Hu.
  f_equal; field; exact Hr.
Qed.

(** At a zero radius the polar angle is not a finite float. *)
Lemma polar_at_zero (c r : R) :
  r = 0 -> np.arccos (np.divide c r) = None.
Proof.
  intros ->; unfold np.divide.
  destruct (Req_dec_T 0 0) as [_ | N]; [reflexivity | contradiction].
Qed.

Lemma sqr_nonneg (a : R) : 0 <= Grid.sqr a.
Proof. unfold Grid.sqr; nra. Qed.

Lemma sqr_sqrt (a : R) : 0 <= a -> Grid.sqr (sqrt a) = a.
Proof. intros Ha; unfold Grid.sqr; apply sqrt_sqrt; exact Ha. Qed.

Lemma sin_cos_sqr (a : R) : Grid.sqr (sin a) + Grid.sqr (cos a) = 1.
Proof. unfold Grid.sqr; generalize (sin2_cos2 a); unfold Rsqr; tauto. Qed.

(** What [_generate_coordinates] returns on a positive resolution, for
    each of the three grid types. *)
Lemma generate_on_positive (b0 b1 b2 : R * R) (n0 n1 n2 : Z) (gt : string) :
  positive_resolution (n0, n1, n2) ->
  Grid._generate_coordinates (fresh (b0, b1, b2) (n0, n1, n2) gt)
  = let '(lc0, lc1, lc2) :=
      np.mgrid (np.mk_slice (fst b0) (snd b0) n0)
               (np.mk_slice (fst b1) (snd b1) n1)
               (np.mk_slice (fst b2) (snd b2) n2) in
    if String.eqb gt "cartesian" then
      let x2y2 := np.map2 (fun a b => Grid.sqr a + Grid.sqr b) lc0 lc1 in
      let rs := np.map2 (fun s c => sqrt (s + Grid.sqr c)) x2y2 lc2 in
      Ok (Grid.mk_coordinates lc0 lc1 lc2 rs (np.map sqrt x2y2)
            (np.map2 (fun c r => np.arccos (np.divide c r)) lc2 rs)
            (np.map2 np.arctan2 lc1 lc0))
    else if String.eqb gt "spherical" then
      let st := np.map sin lc1 in
      Ok (Grid.mk_coordinates
            (np.map3 (fun r st cp => r * st * cp) lc0 st (np.map cos lc2))
            (np.map3 (fun r st sp => r * st * sp) lc0 st (np.map sin lc2))
            (np.map2 Rmult lc0 (np.map cos lc1)) lc0
            (np.map2 Rmult lc0 st) (np.map Some lc1) lc2)
    else if String.eqb gt "cylindrical" then
      let rs := np.map2 (fun s c => sqrt (Grid.sqr s + Grid.sqr c)) lc0 lc2 in
      Ok (Grid.mk_coordinates
            (np.map2 Rmult lc0 (np.map cos lc1))
            (np.map2 Rmult lc0 (np.map sin lc1)) lc2 rs lc0
            (np.map2 (fun c r => np.arccos (np.divide c r)) lc2 rs) lc1)
    else Raise ValueError.
Proof.
  intros Hres.
  destruct (empty_positive _ Hres) as [a Ha].
  unfold Grid._generate_coordinates, Grid.get_prototype, fresh.
  cbn [Grid.resolution Grid.box Grid.grid_type].
  rewrite Ha; reflexivity.
Qed.

(** C6, as the code has it.  For every box, every strictly positive
    resolution and each of the three grid types, the first access to the
    coordinates returns the bundle and keeps it in the grid, and at every
    index the bundle satisfies [x^2 + y^2 = r_cylindrical^2] and
    [x^2 + y^2 + z^2 = r_spherical^2]; [z = r_spherical * cos(theta)]
    holds at every index of a spherical grid, and on the two other grids
    at every index where [r_spherical] is not zero; where it is zero
    there, [theta] is not a finite float. *)
Theorem C6_coordinate_identities
    (box : (R * R) * (R * R) * (R * R)) (res : Z * Z * Z) (gt : string) :
  positive_resolution res ->
  Grid.valid_grid_type gt ->
  exists c,
    Grid.coordinates (fresh box res gt)
    = (Ok c, Grid.mk_Grid box res gt (Some c) None)
    /\ forall i,
         cylindrical_identity c i
         /\ spherical_identity c i
         /\ (np.item (Grid.c_r_spherical c) i <> 0 -> polar_identity c i)
         /\ (gt = "spherical"%string -> polar_identity c i)
         /\ (gt <> "spherical"%string ->
             np.item (Grid.c_r_spherical c) i = 0 ->
             np.item (Grid.c_theta c) i = None).
Proof.
  destruct box as [[b0 b1] b2], res as [[n0 n1] n2].
  intros Hres Hgt.
  unfold Grid.coordinates.
  change (Grid._coordinates (fresh (b0, b1, b2) (n0, n1, n2) gt)) with
    (@None Grid.coordinates_dict).
  rewrite (generate_on_positive b0 b1 b2 n0 n1 n2 gt Hres).
  unfold np.mgrid.
  destruct Hgt as [-> | [-> | ->]]; cbn [String.eqb Ascii.eqb Bool.eqb];
    eexists; (split; [reflexivity|]);
    intros [[i0 i1] i2];
    unfold cylindrical_identity, spherical_identity, polar_identity;
    cbn [Grid.c_x Grid.c_y Grid.c_z Grid.c_r_spherical Grid.c_r_cylindrical
         Grid.c_theta np.item np.map np.map2 np.map3].
  - (* cartesian *)
    set (a := np.mgrid_axis _ i0); set (b := np.mgrid_axis _ i1);
      set (c := np.mgrid_axis _ i2).
    assert (Hab : 0 <= Grid.sqr a + Grid.sqr b)
      by (generalize (sqr_nonneg a) (sqr_nonneg b); lra).
    assert (Habc : 0 <= Grid.sqr a + Grid.sqr b + Grid.sqr c)
      by (generalize (sqr_nonneg c); lra).
    split; [|split; [|split; [|split]]].
    + rewrite sqr_sqrt by exact Hab; reflexivity.
    + rewrite sqr_sqrt by exact Habc; reflexivity.
    + intros Hr; apply polar_of_sqrt; assumption.
    + discriminate.
    + intros _ Hr; apply polar_at_zero; exact Hr.
  - (* spherical *)
    set (r := np.mgrid_axis _ i0); set (th := np.mgrid_axis _ i1);
      set (ph := np.mgrid_axis _ i2).
    generalize (sin_cos_sqr th) (sin_cos_sqr ph); unfold Grid.sqr;
      intros Hth Hph.
    split; [|split; [|split; [|split]]].
    + nra.
    + replace (r * sin th * cos ph * (r * sin th * cos ph)
               + r * sin th * sin ph * (r * sin th * sin ph))
        with (r * r * (sin th * sin th) * (sin ph * sin ph + cos ph * cos ph))
        by ring.
      rewrite Hph.
      replace (r * r * (sin th * sin th) * 1 + r * cos th * (r * cos th))
        with (r * r * (sin th * sin th + cos th * cos th)) by ring.
      rewrite Hth; ring.
    + intros _; reflexivity.
    + intros _; reflexivity.
    + intros N; contradiction N; reflexivity.
  - (* cylindrical *)
    set (s := np.mgrid_axis _ i0); set (ph := np.mgrid_axis _ i1);
      set (c := np.mgrid_axis _ i2).
    generalize (sin_cos_sqr ph); unfold Grid.sqr at 1 2; intros Hph.
    assert (Hs : 0 <= Grid.sqr s) by apply sqr_nonneg.
    assert (Hsc : 0 <= Grid.sqr s + Grid.sqr c)
      by (generalize (sqr_nonneg c); lra).
    assert (Hxy : Grid.sqr (s * cos ph) + Grid.sqr (s * sin ph) = Grid.sqr s).
    { unfold Grid.sqr.
      replace (s * cos ph * (s * cos ph) + s * sin ph * (s * sin ph))
        with (s * s * (sin ph * sin ph + cos ph * cos ph)) by ring.
      rewrite Hph; ring. }
    split; [|split; [|split; [|split]]].
    + exact Hxy.
    + rewrite Hxy, sqr_sqrt by exact Hsc; reflexivity.
    + intros Hr; apply polar_of_sqrt; assumption.
    + discriminate.
    + intros _ Hr; apply polar_at_zero; exact Hr.
Qed.

Lemma C6_coordinate_identities_witness :
  positive_resolution (3, 3, 3)%Z /\
  Grid.valid_grid_type "cartesian" /\
  exists c,
    Grid.coordinates (fresh cube (3, 3, 3)%Z "cartesian")
    = (Ok c, Grid.mk_Grid cube (3, 3, 3)%Z "cartesian" (Some c) None)
    /\ forall i,
         cylindrical_identity c i
         /\ spherical_identity c i
         /\ (np.item (Grid.c_r_spherical c) i <> 0 -> polar_identity c i)
         /\ ("cartesian"%string = "spherical"%string -> polar_identity c i)
         /\ ("cartesian"%string <> "spherical"%string ->
             np.item (Grid.c_r_spherical c) i = 0 ->
             np.item (Grid.c_theta c) i = None).
Proof.
  assert (Hres : positive_resolution (3, 3, 3)%Z) by (simpl; lia).
  assert (Hgt : Grid.valid_grid_type "cartesian") by (left; reflexivity).
  split; [exact Hres|].
  split; [exact Hgt|].
  exact (C6_coordinate_identities cube (3, 3, 3)%Z "cartesian" Hres Hgt).
Defined.

(** The middle sample of three on [-1, 1] is 0. *)
Lemma cube_axis_middle :
  np.mgrid_axis (np.mk_slice (-1) 1 3) 1 = 0.
Proof.
  unfold np.mgrid_axis, np.mgrid_step; simpl; field.
Qed.

(** C6 fails as stated.  On the cartesian grid of 3 x 3 x 3 points over
    the cube [-1, 1]^3 the index (1, 1, 1) is the origin: there
    [r_spherical] is 0, [theta] is the arccos of 0/0, and
    [r_spherical * cos(theta)] is not a finite float, so it is not [z]. *)
Lemma C6_counterexample_origin :
  positive_resolution (3, 3, 3)%Z /\
  Grid.valid_grid_type "cartesian" /\
  exists c,
    fst (Grid.coordinates (fresh cube (3, 3, 3)%Z "cartesian")) = Ok c
    /\ np.in_shape (np.shape (Grid.c_z c)) (1, 1, 1)%nat
    /\ np.item (Grid.c_z c) (1, 1, 1)%nat = 0
    /\ np.item (Grid.c_theta c) (1, 1, 1)%nat = None
    /\ ~ polar_identity c (1, 1, 1)%nat.
Proof.
  assert (Hres : positive_resolution (3, 3, 3)%Z) by (simpl; lia).
  split; [exact Hres|].
  split; [left; reflexivity|].
  unfold Grid.coordinates.
  change (Grid._coordinates (fresh cube (3, 3, 3)%Z "cartesian")) with
    (@None Grid.coordinates_dict).
  unfold cube.
  rewrite (generate_on_positive _ _ _ _ _ _ "cartesian" Hres).
  unfold np.mgrid; cbn [String.eqb Ascii.eqb Bool.eqb fst snd].
  eexists; split; [reflexivity|].
  unfold polar_identity.
  cbn [Grid.c_x Grid.c_y Grid.c_z Grid.c_r_spherical Grid.c_r_cylindrical
       Grid.c_theta np.item np.shape np.map np.map2 np.map3].
  rewrite cube_axis_middle.
  assert (Hr : sqrt (Grid.sqr 0 + Grid.sqr 0 + Grid.sqr 0) = 0).
  { unfold Grid.sqr; replace (0 * 0 + 0 * 0 + 0 * 0) with 0 by ring.
    apply sqrt_0. }
  rewrite (polar_at_zero 0 _ Hr).
  split; [cbv; lia|].
  split; [reflexivity|].
  split; [reflexivity|].
  simpl; discriminate.
Qed.

(** [np.empty] raises nothing but [ValueError]. *)
Lemma empty_raises (res : Z * Z * Z) (e : exn) :
  np.empty res = Raise e -> e = ValueError.
Proof.
  destruct res as [[n0 n1] n2]; simpl.
  destruct ((n0 <? 0)%Z || (n1 <? 0)%Z || (n2 <? 0)%Z)%bool;
    intros E; inversion E; reflexivity.
Qed.

Lemma generate_invalid (box : (R * R) * (R * R) * (R * R)) (res : Z * Z * Z)
    (gt : string) :
  ~ Grid.valid_grid_type gt ->
  Grid._generate_coordinates (fresh box res gt) = Raise ValueError.
Proof.
  intros Hgt.
  unfold Grid._generate_coordinates, Grid.get_prototype, fresh.
  cbn [Grid.resolution Grid.box Grid.grid_type].
  destruct (np.empty res) as [a | e] eqn:E.
  - destruct box as [[b0 b1] b2], res as [[n0 n1] n2]; simpl.
    destruct (String.eqb_spec gt "cartesian") as [-> | _].
    { exfalso; apply Hgt; left; reflexivity. }
    destruct (String.eqb_spec gt "spherical") as [-> | _].
    { exfalso; apply Hgt; right; left; reflexivity. }
    destruct (String.eqb_spec gt "cylindrical") as [-> | _].
    { exfalso; apply Hgt; right; right; reflexivity. }
    reflexivity.
  - simpl; rewrite (empty_raises _ _ E); reflexivity.
Qed.

(** C3 fails as stated: the constructor accepts the grid type "polar",
    which is none of the three, and returns a grid. *)
Lemma C3_counterexample_constructor_accepts :
  ~ Grid.valid_grid_type "polar" /\
  Grid.__init__ cube (3, 3, 3)%Z "polar"
  = Ok (Grid.mk_Grid cube (3, 3, 3)%Z "polar" None None).
Proof.
  split; [|reflexivity].
  intros [E | [E | E]]; discriminate E.
Qed.

(** C3, as the code has it.  For a grid type that is none of cartesian,
    spherical and cylindrical the constructor returns a grid, with no
    coordinates computed; the [ValueError] is raised by the first access
    to the coordinates, through any of the seven coordinate properties,
    and the grid is left as it was, so every later access raises too. *)
Theorem C3_invalid_grid_type_raises_on_access
    (box : (R * R) * (R * R) * (R * R)) (res : Z * Z * Z) (gt : string) :
  ~ Grid.valid_grid_type gt ->
  Grid.__init__ box res gt = Ok (fresh box res gt)
  /\ Grid._coordinates (fresh box res gt) = None
  /\ Grid.coordinates (fresh box res gt) = (Raise ValueError, fresh box res gt)
  /\ Grid.x (fresh box res gt) = (Raise ValueError, fresh box res gt)
  /\ Grid.y (fresh box res gt) = (Raise ValueError, fresh box res gt)
  /\ Grid.z (fresh box res gt) = (Raise ValueError, fresh box res gt)
  /\ Grid.r_spherical (fresh box res gt) = (Raise ValueError, fresh box res gt)
  /\ Grid.r_cylindrical (fresh box res gt)
     = (Raise ValueError, fresh box res gt)
  /\ Grid.theta (fresh box res gt) = (Raise ValueError, fresh box res gt)
  /\ Grid.phi (fresh box res gt) = (Raise ValueError, fresh box res gt).
Proof.
  intros Hgt.
  assert (Hc : Grid.coordinates (fresh box res gt)
               = (Raise ValueError, fresh box res gt)).
  { unfold Grid.coordinates.
    change (Grid._coordinates (fresh box res gt)) with
      (@None Grid.coordinates_dict).
    rewrite (generate_invalid box res gt Hgt); reflexivity. }
  unfold Grid.x, Grid.y, Grid.z, Grid.r_spherical, Grid.r_cylindrical,
    Grid.theta, Grid.phi, Grid.property.
  rewrite Hc; simpl.
  repeat (split; [reflexivity|]); reflexivity.
Qed.

Lemma C3_invalid_grid_type_raises_on_access_witness :
  ~ Grid.valid_grid_type "polar" /\
  Grid.__init__ cube (3, 3, 3)%Z "polar"
  = Ok (fresh cube (3, 3, 3)%Z "polar")
  /\ Grid.coordinates (fresh cube (3, 3, 3)%Z "polar")
     = (Raise ValueError, fresh cube (3, 3, 3)%Z "polar").
Proof.
  assert (Hgt : ~ Grid.valid_grid_type "polar").
  { intros [E | [E | E]]; discriminate E. }
  split; [exact Hgt|].
  destruct (C3_invalid_grid_type_raises_on_access cube (3, 3, 3)%Z "polar" Hgt)
    as (Hinit & _ & Hcoord & _).
  split; [exact Hinit | exact Hcoord].
Defined.

End GridFacts.

(** ** Halo free-decay modes *)

Section HaloFacts.

Import halo_free_decay_modes HaloSpec.
Context `{SciPy}.

(** C5.  The modes s_2, s_4 and a_3 return [Br] and [Btheta] zero at
    every item, for all arrays and for every [C] and [k]; the modes s_1,
    s_3, a_1, a_2 and a_4 return [Bphi] zero at every item; so each of
    the eight modes of the two tables is purely toroidal or purely
    poloidal. *)
Theorem C5_modes_toroidal_or_poloidal :
  (forall C k, purely_toroidal (get_B_s_2 C k))
  /\ (forall C k, purely_toroidal (get_B_s_4 C k))
  /\ (forall C k, purely_toroidal (get_B_a_3 C k))
  /\ (forall C k, purely_poloidal (get_B_s_1 C k))
  /\ (forall C k, purely_poloidal (get_B_s_3 C k))
  /\ (forall C k, purely_poloidal (get_B_a_1 C k))
  /\ (forall C k, purely_poloidal (get_B_a_2 C k))
  /\ (forall C k, purely_poloidal (get_B_a_4 C k))
  /\ Forall (fun m => purely_toroidal m \/ purely_poloidal m)
       (symmetric_modes_list ++ antisymmetric_modes_list).
Proof.
  assert (T2 : forall C k, purely_toroidal (get_B_s_2 C k))
    by (intros C k r theta phi i; split; reflexivity).
  assert (T4 : forall C k, purely_toroidal (get_B_s_4 C k))
    by (intros C k r theta phi i; split; reflexivity).
  assert (T3 : forall C k, purely_toroidal (get_B_a_3 C k))
    by (intros C k r theta phi i; split; reflexivity).
  assert (P1 : forall C k, purely_poloidal (get_B_s_1 C k))
    by (intros C k r theta phi i; reflexivity).
  assert (P3 : forall C k, purely_poloidal (get_B_s_3 C k))
    by (intros C k r theta phi i; reflexivity).
  assert (Q1 : forall C k, purely_poloidal (get_B_a_1 C k))
    by (intros C k r theta phi i; reflexivity).
  assert (Q2 : forall C k, purely_poloidal (get_B_a_2 C k))
    by (intros C k r theta phi i; reflexivity).
  assert (Q4 : forall C k, purely_poloidal (get_B_a_4 C k))
    by (intros C k r theta phi i; reflexivity).
  repeat (split; [assumption|]).
  unfold symmetric_modes_list, antisymmetric_modes_list; simpl app.
  apply Forall_cons; [right; apply P1|].
  apply Forall_cons; [left; apply T2|].
  apply Forall_cons; [right; apply P3|].
  apply Forall_cons; [left; apply T4|].
  apply Forall_cons; [right; apply Q1|].
  apply Forall_cons; [right; apply Q2|].
  apply Forall_cons; [left; apply T3|].
  apply Forall_cons; [right; apply Q4|].
  apply Forall_nil.
Qed.

(** C7.  For every mode index above 4, with either value of
    [symmetric] and on all arrays, [get_mode] raises
    [NotImplementedError] and returns no field. *)
Theorem C7_get_mode_above_four
    (r theta phi : np.ndarray R) (n_mode : Z) (symmetric : bool) :
  (4 < n_mode)%Z ->
  get_mode r theta phi n_mode symmetric = Raise NotImplementedError.
Proof.
  intros Hn; unfold get_mode.
  replace (n_mode >? 4)%Z with true; [reflexivity|].
  symmetry; apply Z.gtb_lt; exact Hn.
Qed.

(** The entry of a table of four that a non-positive mode index
    selects. *)
Lemma getitem_wraps {A} (a b c d : A) (n : Z) :
  (n <= 0)%Z ->
  list_getitem [a; b; c; d] (n - 1)
  = if (n =? 0)%Z then Ok d
    else if (n =? -1)%Z then Ok c
    else if (n =? -2)%Z then Ok b
    else if (n =? -3)%Z then Ok a
    else Raise IndexError.
Proof.
  intros Hn.
  destruct (Z.eq_dec n 0) as [-> | N0]; [reflexivity|].
  destruct (Z.eq_dec n (-1)) as [-> | N1]; [reflexivity|].
  destruct (Z.eq_dec n (-2)) as [-> | N2]; [reflexivity|].
  destruct (Z.eq_dec n (-3)) as [-> | N3]; [reflexivity|].
  replace (n =? 0)%Z with false by (symmetry; apply Z.eqb_neq; exact N0).
  replace (n =? -1)%Z with false by (symmetry; apply Z.eqb_neq; exact N1).
  replace (n =? -2)%Z with false by (symmetry; apply Z.eqb_neq; exact N2).
  replace (n =? -3)%Z with false by (symmetry; apply Z.eqb_neq; exact N3).
  unfold list_getitem.
  cbn [List.length Z.of_nat Pos.of_succ_nat Pos.succ].
  replace (n - 1 <? 0)%Z with true by (symmetry; apply Z.ltb_lt; lia).
  replace (n - 1 + 4 <? 0)%Z with true by (symmetry; apply Z.ltb_lt; lia).
  reflexivity.
Qed.

(** C10.  [get_mode] checks the mode index from above only.  For every
    index [n_mode <= 0] no [NotImplementedError] and no [ValueError] is
    raised: the indices 0, -1, -2 and -3 return the 4th, 3rd, 2nd and
    1st mode of the requested symmetry class, through the negative
    indexing of the tables, and an index below -3 leaves the table with
    an [IndexError]. *)
Theorem C10_get_mode_nonpositive_index
    (r theta phi : np.ndarray R) (symmetric : bool) :
  (forall n_mode, (n_mode <= 0)%Z ->
     get_mode r theta phi n_mode symmetric <> Raise NotImplementedError
     /\ get_mode r theta phi n_mode symmetric <> Raise ValueError)
  /\ get_mode r theta phi 0 true = Ok (s_4 r theta phi)
  /\ get_mode r theta phi 0 false = Ok (a_4 r theta phi)
  /\ get_mode r theta phi (-3) true = Ok (s_1 r theta phi)
  /\ get_mode r theta phi (-3) false = Ok (a_1 r theta phi)
  /\ get_mode r theta phi (-1) true = Ok (s_3 r theta phi)
  /\ get_mode r theta phi (-1) false = Ok (a_3 r theta phi)
  /\ get_mode r theta phi (-2) true = Ok (s_2 r theta phi)
  /\ get_mode r theta phi (-2) false = Ok (a_2 r theta phi)
  /\ (forall n_mode, (n_mode < -3)%Z ->
        get_mode r theta phi n_mode symmetric = Raise IndexError).
Proof.
  assert (Hgen : forall n sym, (n <= 0)%Z ->
    get_mode r theta phi n sym
    = if sym
      then result_bind
             (if (n =? 0)%Z then Ok s_4 else if (n =? -1)%Z then Ok s_3
              else if (n =? -2)%Z then Ok s_2 else if (n =? -3)%Z then Ok s_1
              else Raise IndexError) (fun f => Ok (f r theta phi))
      else result_bind
             (if (n =? 0)%Z then Ok a_4 else if (n =? -1)%Z then Ok a_3
              else if (n =? -2)%Z then Ok a_2 else if (n =? -3)%Z then Ok a_1
              else Raise IndexError) (fun f => Ok (f r theta phi))).
  { intros n sym Hn; unfold get_mode.
    replace (n >? 4)%Z with false
      by (symmetry; rewrite Z.gtb_ltb; apply Z.ltb_ge; lia).
    unfold symmetric_modes_list, antisymmetric_modes_list.
    rewrite !getitem_wraps by exact Hn; reflexivity. }
  split.
  { intros n Hn; rewrite (Hgen n symmetric Hn).
    destruct symmetric;
      destruct (n =? 0)%Z; [split; discriminate| |split; discriminate|];
      destruct (n =? -1)%Z; [split; discriminate| |split; discriminate|];
      destruct (n =? -2)%Z; [split; discriminate| |split; discriminate|];
      destruct (n =? -3)%Z; split; discriminate. }
  repeat (split; [reflexivity|]).
  intros n Hn; rewrite (Hgen n symmetric) by lia.
  replace (n =? 0)%Z with false by (symmetry; apply Z.eqb_neq; lia).
  replace (n =? -1)%Z with false by (symmetry; apply Z.eqb_neq; lia).
  replace (n =? -2)%Z with false by (symmetry; apply Z.eqb_neq; lia).
  replace (n =? -3)%Z with false by (symmetry; apply Z.eqb_neq; lia).
  destruct symmetric; reflexivity.
Qed.

End HaloFacts.

(** Bounds on pi, from the alternating series of pi/4. *)
Lemma PI_upper : PI <= 3.5.
Proof.
  generalize (PI_ineq 1); intros [_ Hu].
  unfold sum_f_R0, tg_alt, PI_tg in Hu; simpl in Hu.
  lra.
Qed.

Lemma PI_lower : 3 < PI.
Proof. generalize PI2_3_2; lra. Qed.

Lemma Rpower_3_2 (y : R) : 0 < y -> Rpower y (3 / 2) = y * sqrt y.
Proof.
  intros Hy.
  replace (3 / 2) with (1 + / 2) by field.
  rewrite Rpower_plus, Rpower_1, Rpower_sqrt by exact Hy.
  reflexivity.
Qed.

Lemma sqrt_lower (a b : R) : 0 <= b -> b * b <= a -> b <= sqrt a.
Proof.
  intros Hb Hab.
  rewrite <- (sqrt_square b Hb).
  apply sqrt_le_1_alt; exact Hab.
Qed.

Lemma sqrt_upper (a b : R) : 0 <= a -> 0 <= b -> a <= b * b -> sqrt a <= b.
Proof.
  intros Ha Hb Hab.
  rewrite <- (sqrt_square b Hb).
  apply sqrt_le_1_alt; exact Hab.
Qed.

(** 5.763 lies between 3pi/2 and 2pi. *)
Lemma sin_cos_k : sin 5.763 <= 0 /\ 0 <= cos 5.763 /\ 1 <= cos 5.763 - sin 5.763.
Proof.
  generalize PI_upper PI_lower; intros Hu Hl.
  assert (Hs : sin 5.763 < 0) by (apply sin_lt_0; lra).
  assert (Hc : 0 <= cos 5.763) by (apply cos_ge_0_3PI2; lra).
  generalize (sin2_cos2 5.763); unfold Rsqr; intros Hsc.
  repeat split; [lra | exact Hc | nra].
Qed.

(** At r = 1 the two terms in [A] of the interior [X] of a_2 cancel. *)
Lemma a_2_X_algebra (C k A B p q t : R) :
  k <> 0 -> p <> 0 -> q <> 0 ->
  C * (- (1) / 1) * (5 * 0 ^ 2 - 1)
  * (A / (p * q) - k * 1 * A / p / (k * q) + t * B / q)
  = C * (t * B) * / q.
Proof. intros Hk Hp Hq; field; repeat split; assumption. Qed.

Section HaloJump.

Import halo_free_decay_modes.
Context `{SciPy}.

Lemma a_2_Btheta_at_1 (phi : R) :
  1 / 20 <= snd (fst (get_B_a_2_item 0.250 5.763 1 (PI / 2) phi)).
Proof.
  unfold get_B_a_2_item; cbn [fst snd].
  destruct (Rle_dec 1 1) as [_ | N]; [|exfalso; apply N; lra].
  rewrite sin_PI2, cos_PI2.
  replace (5.763 * 1) with 5.763 by ring.
  destruct sin_cos_k as (Hs & Hc & Hsc).
  generalize PI_upper PI_lower; intros Hu Hl.
  set (s := sin 5.763) in *; set (c := cos 5.763) in *.
  rewrite Rpower_3_2 by lra.
  replace (2 * PI * 1 * 5.763) with (2 * PI * 5.763) by ring.
  rewrite (sqrt_mult (2 * PI) 5.763) by lra.
  rewrite sqrt_1.
  assert (Hq : 2 <= sqrt 5.763 <= 2.5).
  { split; [apply sqrt_lower; lra | apply sqrt_upper; lra]. }
  assert (Hp : 2 <= sqrt (2 * PI)).
  { apply sqrt_lower; lra. }
  assert (Ht : 0.7 <= sqrt (2 / PI)).
  { assert (Hi : / 3.5 <= / PI) by (apply Rinv_le_contravar; lra).
    apply sqrt_lower; lra. }
  set (q := sqrt 5.763) in *; set (p := sqrt (2 * PI)) in *;
    set (t := sqrt (2 / PI)) in *.
  set (A := 15 * s / 5.763 ^ 3 - 15 * c / 5.763 ^ 2 - 6 * (s / 5.763) + c).
  set (B := -45 * s / 5.763 ^ 3 / 1 + 45 * c / 5.763 ^ 2 / 1
            + 21 * s / 5.763 / 1 - 5.763 * s - 6 * s / 1).
  assert (HB : 1.3 <= B) by (unfold B; lra).
  rewrite (a_2_X_algebra 0.250 5.763 A B p q t) by lra.
  assert (HtB : 0.91 <= t * B) by nra.
  assert (Hiq : 0.4 <= / q).
  { replace 0.4 with (/ 2.5) by lra.
    apply Rinv_le_contravar; lra. }
  nra.
Qed.

Lemma a_2_Btheta_outside (r theta phi : R) :
  1 < r -> snd (fst (get_B_a_2_item 0.250 5.763 r theta phi)) = 0.
Proof.
  intros Hr; unfold get_B_a_2_item; cbn [fst snd].
  destruct (Rle_dec r 1) as [L | _]; [exfalso; lra|].
  ring.
Qed.


(** C2, at the mode where it fails.  For the second antisymmetric mode
    with its default constants, [Btheta] at [r = 1] on the equator
    ([theta = pi/2]) is at least 1/20 by the interior formula, and it is
    0 at every [r > 1], where [X] is set to 0: the polar component jumps
    at [r = 1] by far more than 1e-6. *)
Theorem C2_a_2_Btheta_jumps_at_1
    (r theta phi : np.ndarray R) (i j : np.index) :
  np.item r i = 1 -> np.item theta i = PI / 2 ->
  1 < np.item r j -> np.item theta j = PI / 2 ->
  1 / 20 <= np.item (B_2 (a_2 r theta phi)) i
  /\ np.item (B_2 (a_2 r theta phi)) j = 0
  /\ 1 / 1000000
     < Rabs (np.item (B_2 (a_2 r theta phi)) i
             - np.item (B_2 (a_2 r theta phi)) j).
Proof.
  intros Hri Hti Hrj Htj.
  assert (Hi : np.item (B_2 (a_2 r theta phi)) i
               = snd (fst (get_B_a_2_item 0.250 5.763 (np.item r i)
                             (np.item theta i) (np.item phi i))))
    by reflexivity.
  assert (Hj : np.item (B_2 (a_2 r theta phi)) j
               = snd (fst (get_B_a_2_item 0.250 5.763 (np.item r j)
                             (np.item theta j) (np.item phi j))))
    by reflexivity.
  rewrite Hi, Hj, Hri, Hti.
  rewrite (a_2_Btheta_outside _ _ _ Hrj).
  generalize (a_2_Btheta_at_1 (np.item phi i)); intros Hb.
  split; [exact Hb|]; split; [reflexivity|].
  rewrite Rminus_0_r, Rabs_right; lra.
Qed.

End HaloJump.

(** ** Disk field *)

Section DiskFacts.

Import disk DiskSpec.
Context `{SciPy}.

Lemma dict_get_set_same (d : dict) (k v : R) :
  dict_get (dict_set d k v) k = Some v.
Proof.
  induction d as [| [k' v'] d IH]; simpl.
  - destruct (Req_dec_T k k) as [_ | N]; [reflexivity | contradiction].
  - destruct (Req_dec_T k k') as [E | N]; simpl.
    + destruct (Req_dec_T k k') as [_ | N]; [reflexivity | contradiction].
    + destruct (Req_dec_T k k') as [E | _]; [contradiction | exact IH].
Qed.

Lemma dict_get_set_other (d : dict) (k k' v : R) :
  k <> k' -> dict_get (dict_set d k v) k' = dict_get d k'.
Proof.
  intros Hk; induction d as [| [k0 v0] d IH]; simpl.
  - destruct (Req_dec_T k' k) as [E | _]; [symmetry in E; contradiction|].
    reflexivity.
  - destruct (Req_dec_T k k0) as [E | N]; simpl.
    + subst k0. destruct (Req_dec_T k' k) as [E | _];
        [symmetry in E; contradiction | reflexivity].
    + destruct (Req_dec_T k' k0); [reflexivity | exact IH].
Qed.


Lemma compute_normalization_run (kn : R) (p : params) (w : world) :
  compute_normalization kn p w
  = (normalization_value kn p, mk_world (B_norm w) (nquad_calls w ++ [kn])).
Proof. reflexivity. Qed.

Lemma component_cached (r phi z : np.ndarray R) (kn : R) (p : params)
    (w : world) (N : R) :
  dict_get (B_norm w) kn = Some N ->
  get_B_disk_cyl_component r phi z kn p w
  = (Ok (scale N (get_B_disk_cyl_unnormalized r phi z kn p)), w).
Proof.
  intros Hget.
  unfold get_B_disk_cyl_component, bind, get_B_norm, dict_contains.
  rewrite Hget; unfold ret; simpl. rewrite Hget. reflexivity.
Qed.

Lemma component_fresh (r phi z : np.ndarray R) (kn : R) (p : params)
    (w : world) (N : R) :
  dict_get (B_norm w) kn = None ->
  normalization_value kn p = Ok N ->
  get_B_disk_cyl_component r phi z kn p w
  = (Ok (scale N (get_B_disk_cyl_unnormalized r phi z kn p)),
     mk_world (dict_set (B_norm w) kn N) (nquad_calls w ++ [kn])).
Proof.
  intros Hget HN.
  unfold get_B_disk_cyl_component, bind, get_B_norm, dict_contains.
  rewrite Hget, compute_normalization_run, HN.
  unfold set_B_norm; simpl.
  rewrite dict_get_set_same; reflexivity.
Qed.

Lemma component_raises (r phi z : np.ndarray R) (kn : R) (p : params)
    (w : world) (e : exn) :
  dict_get (B_norm w) kn = None ->
  normalization_value kn p = Raise e ->
  get_B_disk_cyl_component r phi z kn p w
  = (Raise e, mk_world (B_norm w) (nquad_calls w ++ [kn])).
Proof.
  intros Hget HN.
  unfold get_B_disk_cyl_component, bind, get_B_norm, dict_contains.
  rewrite Hget, compute_normalization_run, HN; reflexivity.
Qed.


(** The three outcomes of a call: the wavenumber is cached; it is not
    and the integration gives a factor; it is not and the power raises. *)
Lemma component_cases (r phi z : np.ndarray R) (kn : R) (p : params)
    (w : world) :
  (exists N, dict_get (B_norm w) kn = Some N
     /\ get_B_disk_cyl_component r phi z kn p w
        = (Ok (scale N (get_B_disk_cyl_unnormalized r phi z kn p)), w))
  \/ (dict_get (B_norm w) kn = None
      /\ exists N, normalization_value kn p = Ok N
         /\ get_B_disk_cyl_component r phi z kn p w
            = (Ok (scale N (get_B_disk_cyl_unnormalized r phi z kn p)),
               mk_world (dict_set (B_norm w) kn N) (nquad_calls w ++ [kn])))
  \/ (dict_get (B_norm w) kn = None
      /\ exists e, normalization_value kn p = Raise e
         /\ get_B_disk_cyl_component r phi z kn p w
            = (Raise e, mk_world (B_norm w) (nquad_calls w ++ [kn]))).
Proof.
  destruct (dict_get (B_norm w) kn) as [N |] eqn:Hget.
  - left; exists N; split; [reflexivity | apply component_cached; exact Hget].
  - right; destruct (normalization_value kn p) as [N | e] eqn:HN.
    + left; split; [reflexivity|]; exists N; split; [reflexivity|].
      apply component_fresh; assumption.
    + right; split; [reflexivity|]; exists e; split; [reflexivity|].
      apply component_raises; assumption.
Qed.

Lemma count_occ_snoc_other (l : list R) (k k' : R) :
  k' <> k ->
  count_occ Req_dec_T (l ++ [k']) k = count_occ Req_dec_T l k.
Proof.
  intros Hk; rewrite count_occ_app; simpl.
  destruct (Req_dec_T k' k) as [E | _]; [contradiction | lia].
Qed.

(** A cached factor stays, and its wavenumber is not integrated again. *)
Lemma cached_persists_call (c : call) (w : world) (kn N : R) :
  dict_get (B_norm w) kn = Some N ->
  dict_get (B_norm (do_call c w)) kn = Some N
  /\ count_occ Req_dec_T (nquad_calls (do_call c w)) kn
     = count_occ Req_dec_T (nquad_calls w) kn.
Proof.
  intros Hget; unfold do_call.
  destruct (component_cases (call_r c) (call_phi c) (call_z c) (call_kn c)
              (call_p c) w)
    as [(N' & _ & ->) | [(Hnone & N' & _ & ->) | (Hnone & e & _ & ->)]];
    cbn [snd B_norm nquad_calls].
  - split; [exact Hget | reflexivity].
  - assert (Hk : call_kn c <> kn) by (intros E; rewrite E in Hnone; congruence).
    split; [rewrite dict_get_set_other by exact Hk; exact Hget|].
    apply count_occ_snoc_other; exact Hk.
  - assert (Hk : call_kn c <> kn) by (intros E; rewrite E in Hnone; congruence).
    split; [exact Hget | apply count_occ_snoc_other; exact Hk].
Qed.

Lemma cached_persists_run (cs : list call) (w : world) (kn N : R) :
  dict_get (B_norm w) kn = Some N ->
  dict_get (B_norm (run cs w)) kn = Some N
  /\ count_occ Req_dec_T (nquad_calls (run cs w)) kn
     = count_occ Req_dec_T (nquad_calls w) kn.
Proof.
  revert w; induction cs as [| c cs IH]; intros w Hget; simpl.
  - split; [exact Hget | reflexivity].
  - destruct (cached_persists_call c w kn N Hget) as [Hget' Hcount'].
    destruct (IH (do_call c w) Hget') as [Hg Hc].
    split; [exact Hg | rewrite Hc; exact Hcount'].
Qed.

Lemma count_occ_snoc_same (l : list R) (k : R) :
  count_occ Req_dec_T (l ++ [k]) k = S (count_occ Req_dec_T l k).
Proof.
  rewrite count_occ_app; simpl.
  destruct (Req_dec_T k k) as [_ | N]; [lia | contradiction N; reflexivity].
Qed.

(** From a state where [kn] is not cached, the calls integrate for [kn]
    as often as [integrations] counts. *)
Lemma integrations_count (kn : R) (cs : list call) (w : world) :
  dict_get (B_norm w) kn = None ->
  count_occ Req_dec_T (nquad_calls (run cs w)) kn
  = (count_occ Req_dec_T (nquad_calls w) kn + integrations kn cs)%nat.
Proof.
  revert w; induction cs as [| c cs IH]; intros w Hnone;
    cbn [run fold_left integrations]; [lia|].
  fold (run cs (do_call c w)).
  unfold do_call at 1.
  destruct (component_cases (call_r c) (call_phi c) (call_z c) (call_kn c)
              (call_p c) w)
    as [(N' & Hsome & ->) | [(Hc & N' & HN & ->) | (Hc & e & He & ->)]];
    cbn [snd].
  - destruct (Req_dec_T (call_kn c) kn) as [E | _];
      [rewrite E in Hsome; congruence|].
    apply IH; exact Hnone.
  - destruct (Req_dec_T (call_kn c) kn) as [E | Hne].
    + rewrite E in *; rewrite HN.
      destruct (cached_persists_run cs
                  (mk_world (dict_set (B_norm w) kn N') (nquad_calls w ++ [kn]))
                  kn N') as [_ Hcount].
      { cbn [B_norm]; apply dict_get_set_same. }
      rewrite Hcount; cbn [nquad_calls]; rewrite count_occ_snoc_same; lia.
    + rewrite IH by (cbn [B_norm]; rewrite dict_get_set_other by exact Hne;
                     exact Hnone).
      cbn [nquad_calls]; rewrite count_occ_snoc_other by exact Hne; reflexivity.
  - destruct (Req_dec_T (call_kn c) kn) as [E | Hne].
    + rewrite E in *; rewrite He.
      rewrite IH by exact Hnone.
      cbn [nquad_calls]; rewrite count_occ_snoc_same; lia.
    + rewrite IH by exact Hnone.
      cbn [nquad_calls]; rewrite count_occ_snoc_other by exact Hne; reflexivity.
Qed.

Lemma integrations_at_most_once (kn : R) (cs : list call) :
  (forall c, In c cs -> call_kn c = kn ->
     exists N, normalization_value kn (call_p c) = Ok N) ->
  (integrations kn cs <= 1)%nat.
Proof.
  induction cs as [| c cs IH]; intros Hall; cbn [integrations]; [lia|].
  destruct (Req_dec_T (call_kn c) kn) as [E | _].
  - destruct (Hall c (or_introl eq_refl) E) as [N ->]; lia.
  - apply IH; intros c' Hin; apply Hall; right; exact Hin.
Qed.

(** A call that raises: the power of a zero integral, nothing cached. *)
Lemma component_raised (r phi z : np.ndarray R) (kn : R) (p : params)
    (w w1 : world) (e : exn) :
  get_B_disk_cyl_component r phi z kn p w = (Raise e, w1) ->
  e = ZeroDivisionError
  /\ dict_get (B_norm w) kn = None
  /\ normalization_value kn p = Raise ZeroDivisionError
  /\ w1 = mk_world (B_norm w) (nquad_calls w ++ [kn]).
Proof.
  intros Hcall.
  destruct (component_cases r phi z kn p w)
    as [(N & _ & E) | [(_ & N & _ & E) | (Hnone & e' & He & E)]];
    rewrite E in Hcall; inversion Hcall; subst; clear Hcall.
  assert (Hz : e = ZeroDivisionError).
  { unfold normalization_value, float_pow in He.
    destruct (Req_dec_T _ 0) as [_ | _]; [|discriminate].
    destruct (Rlt_dec (-0.5) 0) as [_ | N]; [|exfalso; lra].
    inversion He; reflexivity. }
  subst e; repeat (split; [assumption || reflexivity|]); reflexivity.
Qed.

Lemma Some_neq_None {A} (a : A) : Some a <> None.
Proof. discriminate. Qed.

Lemma component_returns (r phi z : np.ndarray R) (kn : R) (p : params)
    (w : world) :
  (exists N, normalization_value kn p = Ok N) ->
  exists B w', get_B_disk_cyl_component r phi z kn p w = (Ok B, w').
Proof.
  intros [N HN].
  destruct (component_cases r phi z kn p w)
    as [(N' & _ & E) | [(_ & N' & _ & E) | (_ & e & He & _)]].
  - eauto.
  - eauto.
  - congruence.
Qed.

Lemma loop_returns (r phi z : np.ndarray R) (p : params)
    (l : list (R * R)) :
  (forall kn Cn, In (kn, Cn) l -> exists N, normalization_value kn p = Ok N) ->
  forall (i : nat) (acc : option field) (w : world),
    i = 0%nat \/ acc <> None ->
    exists acc' w',
      get_B_disk_cyl_loop r phi z p i l acc w = (Ok acc', w')
      /\ (l <> [] \/ acc <> None -> acc' <> None).
Proof.
  induction l as [| [kn Cn] l IH]; intros Hall i acc w Hi.
  - exists acc, w; split; [reflexivity|].
    intros [N | N]; [contradiction N; reflexivity | exact N].
  - cbn [get_B_disk_cyl_loop]; unfold bind.
    destruct (component_returns r phi z kn p w
                (Hall kn Cn (or_introl eq_refl)))
      as ([[Bt1 Bt2] Bt3] & w1 & ->).
    assert (Hacc : exists a b c,
              (if Nat.eqb i 0
               then Some (np.zeros_like r, np.zeros_like r, np.zeros_like r)
               else acc) = Some (a, b, c)).
    { destruct Hi as [-> | Hacc]; [simpl; eauto|].
      destruct (Nat.eqb i 0); [eauto|].
      destruct acc as [[[a b] c] |]; [eauto | contradiction Hacc; reflexivity]. }
    destruct Hacc as (a & b & c & ->).
    match goal with
    | |- context [get_B_disk_cyl_loop _ _ _ _ _ _ (Some ?f) ?w0] =>
        destruct (IH (fun kn' Cn' Hin => Hall kn' Cn' (or_intror Hin))
                    (S i) (Some f) w0 (or_intror (@Some_neq_None field f)))
          as (acc' & w' & E & Hsome)
    end.
    exists acc', w'; split; [exact E|].
    intros _; apply Hsome; right; apply Some_neq_None.
Qed.

Lemma get_B_disk_cyl_returns (r phi z : np.ndarray R) (p : params) (w : world) :
  combine (jn_zeros 1 (List.length (Cn_d p))) (Cn_d p) <> [] ->
  (forall kn, In kn (jn_zeros 1 (List.length (Cn_d p))) ->
     exists N, normalization_value kn p = Ok N) ->
  exists B w', get_B_disk_cyl r phi z p w = (Ok B, w').
Proof.
  intros Hne Hall.
  unfold get_B_disk_cyl, bind.
  destruct (loop_returns r phi z p
              (combine (jn_zeros 1 (List.length (Cn_d p))) (Cn_d p)))
    with (i := 0%nat) (acc := @None field) (w := w)
    as (acc' & w' & -> & Hsome).
  - intros kn Cn Hin; apply Hall. eapply in_combine_l; exact Hin.
  - left; reflexivity.
  - destruct acc' as [[[Br Bphi] Bz] |].
    + unfold ret; eauto.
    + exfalso; apply Hsome; [left; exact Hne | reflexivity].
Qed.

(** C8, as the code has it, for calls made one after the other.  When a
    call of [get_B_disk_cyl_component] with the wavenumber [kn] has
    returned, its result is the unnormalized field times the factor [N]
    now cached under [kn], and it ran [nquad] at most once; every next
    call with the same [kn], whatever its arrays and parameters,
    returns its unnormalized field times the same [N] and leaves the
    module state as it is, so no integration is made; and after any
    further calls [kn] keeps its factor and is not integrated again.
    When the call raises, it is the [ZeroDivisionError] of the power of
    a zero integral: [nquad] was run, nothing was cached, and the same
    call made again integrates again and raises again.  In a process
    started on the empty cache, [kn] is integrated once for each call
    with [kn] up to and including the first one whose integration gives
    a factor: at most once when no integration for [kn] gives 0. *)
Theorem C8_normalization_cached
    (r1 phi1 z1 : np.ndarray R) (kn : R) (p1 : params) (w : world) :
  (forall B1 w1,
     get_B_disk_cyl_component r1 phi1 z1 kn p1 w = (Ok B1, w1) ->
     exists N,
       dict_get (B_norm w1) kn = Some N
       /\ B1 = scale N (get_B_disk_cyl_unnormalized r1 phi1 z1 kn p1)
       /\ (List.length (nquad_calls w1) <= List.length (nquad_calls w) + 1)%nat
       /\ (forall r2 phi2 z2 p2,
             get_B_disk_cyl_component r2 phi2 z2 kn p2 w1
             = (Ok (scale N (get_B_disk_cyl_unnormalized r2 phi2 z2 kn p2)),
                w1))
       /\ (forall cs,
             dict_get (B_norm (run cs w1)) kn = Some N
             /\ count_occ Req_dec_T (nquad_calls (run cs w1)) kn
                = count_occ Req_dec_T (nquad_calls w1) kn))
  /\ (forall e w1,
        get_B_disk_cyl_component r1 phi1 z1 kn p1 w = (Raise e, w1) ->
        e = ZeroDivisionError
        /\ fst (nquad (fun r phi z =>
                         __intregrand_compute_normalization r phi z kn p1)
                  [(0, 1); (0, 2 * PI); (-1, 1)]) = 0
        /\ B_norm w1 = B_norm w
        /\ nquad_calls w1 = nquad_calls w ++ [kn]
        /\ forall r2 phi2 z2,
             get_B_disk_cyl_component r2 phi2 z2 kn p1 w1
             = (Raise ZeroDivisionError,
                mk_world (B_norm w) (nquad_calls w ++ [kn; kn])))
  /\ (forall cs,
        count_occ Req_dec_T (nquad_calls (run cs initial_world)) kn
        = integrations kn cs)
  /\ (forall cs,
        (forall c, In c cs -> call_kn c = kn ->
           exists N', normalization_value kn (call_p c) = Ok N') ->
        (count_occ Req_dec_T (nquad_calls (run cs initial_world)) kn <= 1)%nat).
Proof.
  split; [|split; [|split]].
  - intros B1 w1 Hcall.
    assert (Hex : exists N, dict_get (B_norm w1) kn = Some N
                   /\ B1 = scale N (get_B_disk_cyl_unnormalized r1 phi1 z1 kn p1)
                   /\ (List.length (nquad_calls w1)
                       <= List.length (nquad_calls w) + 1)%nat).
    { destruct (component_cases r1 phi1 z1 kn p1 w)
        as [(N & Hget & E) | [(Hnone & N & HN & E) | (Hnone & e & He & E)]];
        rewrite E in Hcall; inversion Hcall; subst.
      - exists N; repeat split; [exact Hget | lia].
      - exists N; cbn [B_norm nquad_calls].
        rewrite dict_get_set_same, length_app; simpl.
        repeat split; lia. }
    destruct Hex as (N & Hget & HB & Hlen).
    exists N; split; [exact Hget|]; split; [exact HB|]; split; [exact Hlen|].
    split.
    + intros r2 phi2 z2 p2; apply component_cached; exact Hget.
    + intros cs; apply cached_persists_run; exact Hget.
  - intros e w1 Hcall.
    destruct (component_raised r1 phi1 z1 kn p1 w w1 e Hcall)
      as (-> & Hnone & He & ->).
    split; [reflexivity|]; split.
    { unfold normalization_value, float_pow in He.
      destruct (Req_dec_T _ 0) as [E0 | _]; [exact E0 | discriminate]. }
    split; [reflexivity|]; split; [reflexivity|].
    intros r2 phi2 z2.
    rewrite (component_raises r2 phi2 z2 kn p1 _ ZeroDivisionError);
      [|exact Hnone | exact He].
    cbn [B_norm nquad_calls]; rewrite <- app_assoc; reflexivity.
  - intros cs.
    rewrite (integrations_count kn cs initial_world) by reflexivity.
    reflexivity.
  - intros cs Hall.
    rewrite (integrations_count kn cs initial_world) by reflexivity.
    cbn [initial_world nquad_calls count_occ].
    apply integrations_at_most_once; exact Hall.
Qed.

(** Two scaled fields that differ at an item are different results. *)
Lemma scaled_results_differ (N1 N2 : R) (U : field) (i : np.index) :
  np.item (B_1 (scale N1 U)) i <> np.item (B_1 (scale N2 U)) i
  \/ np.item (B_2 (scale N1 U)) i <> np.item (B_2 (scale N2 U)) i
  \/ np.item (B_3 (scale N1 U)) i <> np.item (B_3 (scale N2 U)) i ->
  @Ok field (scale N1 U) <> Ok (scale N2 U).
Proof.
  intros Hd E; inversion E as [[E1 E2 E3]].
  unfold scale, B_1, B_2, B_3 in Hd; cbn [fst snd np.item np.map] in Hd.
  destruct Hd as [Hd | [Hd | Hd]]; apply Hd.
  - exact (f_equal (fun f => f i) E1).
  - exact (f_equal (fun f => f i) E2).
  - exact (f_equal (fun f => f i) E3).
Qed.

(** C9.  The cache is keyed by [kn] alone.  Let the integrations for
    [(kn, p1)] and [(kn, p2)] give the factors [N1] and [N2].  With [kn]
    uncached, a call with [p2] made after a call with [p1] returns the
    unnormalized field of [p2] times [N1], the factor computed from
    [p1]; the same call on the empty cache returns that field times
    [N2].  When the factor depends on the parameters, [N1 <> N2], the
    two results differ at every item and component where the
    unnormalized field of [p2] is not zero; then [p1 <> p2], and the
    call with [p2] after the call with [p1] does not return what it
    returns on the empty cache: the result of a call depends on the
    state of the cache. *)
Theorem C9_cached_factor_of_first_parameters
    (kn : R) (p1 p2 : params) (N1 N2 : R) :
  normalization_value kn p1 = Ok N1 ->
  normalization_value kn p2 = Ok N2 ->
  (forall (r1 phi1 z1 r phi z : np.ndarray R) (w : world),
     dict_get (B_norm w) kn = None ->
     let U := get_B_disk_cyl_unnormalized r phi z kn p2 in
     let w1 := snd (get_B_disk_cyl_component r1 phi1 z1 kn p1 w) in
     fst (get_B_disk_cyl_component r phi z kn p2 w1) = Ok (scale N1 U)
     /\ fst (get_B_disk_cyl_component r phi z kn p2 initial_world)
        = Ok (scale N2 U)
     /\ (N1 <> N2 ->
         forall i,
           (np.item (B_1 U) i <> 0 ->
            np.item (B_1 (scale N1 U)) i <> np.item (B_1 (scale N2 U)) i)
           /\ (np.item (B_2 U) i <> 0 ->
               np.item (B_2 (scale N1 U)) i <> np.item (B_2 (scale N2 U)) i)
           /\ (np.item (B_3 U) i <> 0 ->
               np.item (B_3 (scale N1 U)) i <> np.item (B_3 (scale N2 U)) i)))
  /\ (N1 <> N2 ->
      p1 <> p2
      /\ forall (r1 phi1 z1 r phi z : np.ndarray R) (i : np.index),
           let U := get_B_disk_cyl_unnormalized r phi z kn p2 in
           np.item (B_1 U) i <> 0 \/ np.item (B_2 U) i <> 0
           \/ np.item (B_3 U) i <> 0 ->
           fst (get_B_disk_cyl_component r phi z kn p2
                  (snd (get_B_disk_cyl_component r1 phi1 z1 kn p1
                          initial_world)))
           <> fst (get_B_disk_cyl_component r phi z kn p2 initial_world)).
Proof.
  intros HN1 HN2.
  assert (Hmul : N1 <> N2 -> forall b, b <> 0 -> N1 * b <> N2 * b).
  { intros Hne b Hb E; apply Hne.
    apply Rmult_eq_reg_r with b; assumption. }
  assert (Hafter : forall r1 phi1 z1 r phi z w,
            dict_get (B_norm w) kn = None ->
            fst (get_B_disk_cyl_component r phi z kn p2
                   (snd (get_B_disk_cyl_component r1 phi1 z1 kn p1 w)))
            = Ok (scale N1 (get_B_disk_cyl_unnormalized r phi z kn p2))).
  { intros r1 phi1 z1 r phi z w Hnone.
    rewrite (component_fresh r1 phi1 z1 kn p1 w N1 Hnone HN1); cbn [snd].
    rewrite (component_cached r phi z kn p2 _ N1); [reflexivity|].
    cbn [B_norm]; apply dict_get_set_same. }
  assert (Hfresh : forall r phi z,
            fst (get_B_disk_cyl_component r phi z kn p2 initial_world)
            = Ok (scale N2 (get_B_disk_cyl_unnormalized r phi z kn p2))).
  { intros r phi z.
    rewrite (component_fresh r phi z kn p2 initial_world N2);
      [reflexivity | reflexivity | exact HN2]. }
  split.
  - intros r1 phi1 z1 r phi z w Hnone U w1.
    split; [apply Hafter; exact Hnone|]; split; [apply Hfresh|].
    intros Hne i.
    unfold scale, B_1, B_2, B_3; cbn [fst snd np.item np.map].
    repeat split; apply Hmul; exact Hne.
  - intros Hne; split.
    + intros ->; rewrite HN1 in HN2; inversion HN2; contradiction.
    + intros r1 phi1 z1 r phi z i U HU.
      rewrite (Hafter r1 phi1 z1 r phi z initial_world eq_refl), Hfresh.
      apply (scaled_results_differ N1 N2 _ i).
      fold U; unfold scale, B_1, B_2, B_3 in *;
        cbn [fst snd np.item np.map] in *.
      destruct HU as [HU | [HU | HU]];
        [left | right; left | right; right]; apply Hmul; assumption.
Qed.

(** C4.  Whenever [get_B_disk_cyl] returns a field, [Br], [Bphi] and
    [Bz] are exactly 0 at every item where [|z| > 1], whatever the
    coefficients, the parameters and the cache are.  And it does return
    a field when there is at least one mode and every integration it
    needs gives a factor. *)
Theorem C4_disk_field_zero_outside
    (r phi z : np.ndarray R) (p : params) (w : world) :
  (forall (B : field) (w' : world),
     get_B_disk_cyl r phi z p w = (Ok B, w') ->
     forall i,
       Rabs (np.item z i) > 1 ->
       np.item (B_1 B) i = 0 /\ np.item (B_2 B) i = 0 /\ np.item (B_3 B) i = 0)
  /\ (combine (jn_zeros 1 (List.length (Cn_d p))) (Cn_d p) <> [] ->
      (forall kn, In kn (jn_zeros 1 (List.length (Cn_d p))) ->
         exists N, normalization_value kn p = Ok N) ->
      exists B w', get_B_disk_cyl r phi z p w = (Ok B, w')).
Proof.
  split; [|apply get_B_disk_cyl_returns].
  intros B w'.
  unfold get_B_disk_cyl, bind.
  destruct (get_B_disk_cyl_loop r phi z p 0
              (combine (jn_zeros 1 (List.length (Cn_d p))) (Cn_d p)) None w)
    as [[[[[Br Bphi] Bz] |] | e] w0]; unfold ret, raise;
    intros E; inversion E; subst; clear E.
  intros i Hz.
  unfold B_1, B_2, B_3; cbn [fst snd np.item np.setitem_mask np.map].
  unfold np.gtb.
  destruct (Rgt_dec (Rabs (np.item z i)) 1) as [_ | N]; [|contradiction].
  repeat split.
Qed.

(** C1, against the code.  The integrand of the normalization is
    [r * Br * Br + Bphi * Bphi + Bz * Bz]: the factor [r] multiplies the
    square of the radial component only.  It exceeds [r] times the sum
    of the three squares by [(1 - r) * (Bphi^2 + Bz^2)], and the two are
    different at every point of the midplane [z = 0] with [r <> 1]
    where [J1(kn * r)] is not zero, for a negative dynamo number. *)
Theorem C1_integrand_weights_radial_square_only
    (r phi z kn : R) (p : params) :
  let Br := fst (fst (get_B_disk_cyl_unnormalized_item r phi z kn p)) in
  let Bphi := snd (fst (get_B_disk_cyl_unnormalized_item r phi z kn p)) in
  let Bz := snd (get_B_disk_cyl_unnormalized_item r phi z kn p) in
  __intregrand_compute_normalization r phi z kn p
  = r * Br * Br + Bphi * Bphi + Bz * Bz
  /\ __intregrand_compute_normalization r phi z kn p - spec_integrand r phi z kn p
     = (1 - r) * (Bphi * Bphi + Bz * Bz)
  /\ (D_d p < 0 -> j1 (kn * r) <> 0 -> r <> 1 -> z = 0 ->
      __intregrand_compute_normalization r phi z kn p
      <> spec_integrand r phi z kn p).
Proof.
  intros Br Bphi Bz.
  assert (H1 : __intregrand_compute_normalization r phi z kn p
               = r * Br * Br + Bphi * Bphi + Bz * Bz) by reflexivity.
  assert (H2 : spec_integrand r phi z kn p
               = r * (Br * Br + Bphi * Bphi + Bz * Bz)) by reflexivity.
  split; [exact H1|]; split; [rewrite H1, H2; ring|].
  intros HD Hj Hr Hz E.
  rewrite H1, H2 in E.
  assert (Hphi : Bphi <> 0).
  { unfold Bphi, get_B_disk_cyl_unnormalized_item; cbn [fst snd].
    subst z.
    replace (PI * 0 / 2) with 0 by (unfold Rdiv; ring).
    rewrite cos_0.
    assert (Hs : 0 < sqrt (- D_d p / PI)).
    { apply sqrt_lt_R0.
      apply Rmult_lt_0_compat; [lra | apply Rinv_0_lt_compat, PI_RGT_0]. }
    intros E0.
    assert (E1 : j1 (kn * r) * sqrt (- D_d p / PI) = 0) by lra.
    apply Rmult_integral in E1; destruct E1; [contradiction | lra]. }
  assert (Hpos : 0 < Bphi * Bphi + Bz * Bz) by nra.
  assert (E' : (1 - r) * (Bphi * Bphi + Bz * Bz) = 0) by lra.
  apply Rmult_integral in E'; destruct E'; lra.
Qed.

End DiskFacts.

(** ** Runs on the stand-in for SciPy *)

Section Runs.

Import disk DiskSpec.

(** The midpoint rule on the integrand, for parameters without induction
    term. *)
Lemma sample_integral (kn D : R) :
  D < 0 ->
  fst (@nquad sample_scipy
         (fun r phi z =>
            @__intregrand_compute_normalization sample_scipy r phi z kn
              (sample_params D))
         [(0, 1); (0, 2 * PI); (-1, 1)])
  = - D * kn * kn.
Proof.
  intros HD.
  cbn [nquad sample_scipy sample_nquad fst].
  unfold __intregrand_compute_normalization, get_B_disk_cyl_unnormalized_item.
  cbn [sample_params Ralpha_d D_d j1 j0 jv sample_scipy].
  replace ((-1 + 1) / 2) with 0 by lra.
  replace (PI * 0 / 2) with 0 by lra.
  replace (3 * PI * 0 / 2) with 0 by lra.
  rewrite cos_0, sin_0.
  assert (HS : sqrt (- D / PI) * sqrt (- D / PI) = - D / PI).
  { apply sqrt_sqrt.
    apply Rlt_le, Rmult_lt_0_compat; [lra | apply Rinv_0_lt_compat, PI_RGT_0]. }
  set (S := sqrt (- D / PI)) in *.
  set (X := 1 + 3 * 1 / (4 * Rpower PI 1.5 * sqrt (- D))).
  set (Y := 0 + 0 / (4 * Rpower PI 1.5 * sqrt (- D))).
  set (Z := kn * ((0 + 1) / 2) / 2
            + 0.5 * kn * ((0 + 1) / 2)
              * (1 - kn * ((0 + 1) / 2) * (kn * ((0 + 1) / 2)) / 4
                 - (if Req_dec_T 2 2
                    then kn * ((0 + 1) / 2) * (kn * ((0 + 1) / 2)) / 8
                    else 0))).
  replace ((1 - 0) * (2 * PI - 0) * (1 - -1) *
           ((0 + 1) / 2 * (0 * (kn * ((0 + 1) / 2) / 2) * X)
              * (0 * (kn * ((0 + 1) / 2) / 2) * X)
            + -2 * (kn * ((0 + 1) / 2) / 2) * S * 1
              * (-2 * (kn * ((0 + 1) / 2) / 2) * S * 1)
            + -2 * 0 / PI * Z * Y * (-2 * 0 / PI * Z * Y)))
    with (PI * (S * S) * kn * kn) by (field; apply PI_neq0).
  rewrite HS; field; apply PI_neq0.
Qed.

Lemma sample_normalization (kn D : R) :
  D < 0 -> kn <> 0 ->
  @normalization_value sample_scipy kn (sample_params D)
  = Ok (Rpower (- D * kn * kn) (-0.5)).
Proof.
  intros HD Hkn; unfold normalization_value.
  rewrite (sample_integral kn D HD).
  unfold float_pow.
  destruct (Req_dec_T (- D * kn * kn) 0) as [E | _]; [|reflexivity].
  exfalso.
  assert (0 < kn * kn) by nra.
  nra.
Qed.

Lemma Rpower_neg_half_inj (a b : R) :
  0 < a -> 0 < b -> Rpower a (-0.5) = Rpower b (-0.5) -> a = b.
Proof.
  intros Ha Hb E; unfold Rpower in E.
  apply exp_inv in E.
  apply ln_inv; [exact Ha | exact Hb | lra].
Qed.

(** On the stand-in the integral for the wavenumber 0 is 0, and the
    power raises. *)
Lemma sample_normalization_zero (D : R) :
  D < 0 ->
  @normalization_value sample_scipy 0 (sample_params D)
  = Raise ZeroDivisionError.
Proof.
  intros HD; unfold normalization_value.
  rewrite (sample_integral 0 D HD).
  unfold float_pow.
  destruct (Req_dec_T (- D * 0 * 0) 0) as [_ | N]; [|exfalso; apply N; ring].
  destruct (Rlt_dec (-0.5) 0) as [_ | N]; [reflexivity | exfalso; lra].
Qed.

(** C8 fails as stated.  For the wavenumber 0 the unnormalized field,
    and with it the integrand of the normalization, is 0 at every point
    (for any Bessel function [j1] with [j1 0 = 0]), so the integral is
    0 and the power [tmp[0]**(-0.5)] raises before anything is stored.
    On the stand-in, two successive calls with [kn = 0] both raise, and
    each of them has run the integration: the record of [nquad] runs is
    [0; 0]. *)
Lemma C8_counterexample_zero_integral_repeats :
  (forall (S : SciPy), @j1 S 0 = 0 ->
     forall r phi z p, @__intregrand_compute_normalization S r phi z 0 p = 0)
  /\ @get_B_disk_cyl_component sample_scipy (single 1) (single 0) (single 0) 0
       (sample_params (-1)) initial_world
     = (Raise ZeroDivisionError, mk_world [] [0])
  /\ @get_B_disk_cyl_component sample_scipy (single 1) (single 0) (single 0) 0
       (sample_params (-1)) (mk_world [] [0])
     = (Raise ZeroDivisionError, mk_world [] [0; 0])
  /\ count_occ Req_dec_T
       (nquad_calls
          (@run sample_scipy
             [mk_call (single 1) (single 0) (single 0) 0 (sample_params (-1));
              mk_call (single 1) (single 0) (single 0) 0 (sample_params (-1))]
             initial_world)) 0
     = 2%nat.
Proof.
  assert (HN := sample_normalization_zero (-1) ltac:(lra)).
  assert (E1 : @get_B_disk_cyl_component sample_scipy (single 1) (single 0)
                 (single 0) 0 (sample_params (-1)) initial_world
               = (Raise ZeroDivisionError, mk_world [] [0]))
    by exact (@component_raises sample_scipy (single 1) (single 0) (single 0)
                0 (sample_params (-1)) initial_world ZeroDivisionError
                eq_refl HN).
  assert (E2 : @get_B_disk_cyl_component sample_scipy (single 1) (single 0)
                 (single 0) 0 (sample_params (-1)) (mk_world [] [0])
               = (Raise ZeroDivisionError, mk_world [] [0; 0]))
    by exact (@component_raises sample_scipy (single 1) (single 0) (single 0)
                0 (sample_params (-1)) (mk_world [] [0]) ZeroDivisionError
                eq_refl HN).
  split; [|split; [exact E1 | split; [exact E2|]]].
  - intros S Hj r phi z p.
    unfold __intregrand_compute_normalization, get_B_disk_cyl_unnormalized_item.
    replace (0 * r) with 0 by ring.
    rewrite Hj; ring.
  - unfold run, do_call; cbn [fold_left call_r call_phi call_z call_kn call_p].
    rewrite E1; cbn [snd].
    rewrite E2; cbn [snd nquad_calls count_occ].
    destruct (Req_dec_T 0 0) as [_ | N]; [reflexivity | contradiction N; reflexivity].
Qed.

Lemma C8_normalization_cached_witness :
  (exists B1 w1 N,
     @get_B_disk_cyl_component sample_scipy (single (1 / 2)) (single 0)
       (single 0) 2 (sample_params (-1)) initial_world = (Ok B1, w1)
     /\ dict_get (B_norm w1) 2 = Some N
     /\ @get_B_disk_cyl_component sample_scipy (single 1) (single 0)
          (single 0) 2 (sample_params (-4)) w1
        = (Ok (scale N (@get_B_disk_cyl_unnormalized sample_scipy (single 1)
                          (single 0) (single 0) 2 (sample_params (-4)))), w1))
  /\ (exists w1,
        @get_B_disk_cyl_component sample_scipy (single 1) (single 0)
          (single 0) 0 (sample_params (-1)) initial_world
        = (Raise ZeroDivisionError, w1)
        /\ @get_B_disk_cyl_component sample_scipy (single 1) (single 0)
             (single 0) 0 (sample_params (-1)) w1
           = (Raise ZeroDivisionError, mk_world [] [0; 0]))
  /\ le (count_occ Req_dec_T
            (nquad_calls
               (@run sample_scipy
                  [mk_call (single 1) (single 0) (single 0) 2
                     (sample_params (-1));
                   mk_call (single 1) (single 0) (single 0) 2
                     (sample_params (-4))]
                  initial_world)) 2) 1.
Proof.
  assert (H1 : @normalization_value sample_scipy 2 (sample_params (-1))
               = Ok (Rpower (- -1 * 2 * 2) (-0.5)))
    by (apply sample_normalization; lra).
  assert (H4 : @normalization_value sample_scipy 2 (sample_params (-4))
               = Ok (Rpower (- -4 * 2 * 2) (-0.5)))
    by (apply sample_normalization; lra).
  assert (H0 : @normalization_value sample_scipy 0 (sample_params (-1))
               = Raise ZeroDivisionError)
    by (apply sample_normalization_zero; lra).
  assert (E := @component_fresh sample_scipy (single (1 / 2)) (single 0)
                 (single 0) 2 (sample_params (-1)) initial_world _
                 eq_refl H1).
  assert (E0 := @component_raises sample_scipy (single 1) (single 0) (single 0)
                  0 (sample_params (-1)) initial_world ZeroDivisionError
                  eq_refl H0).
  destruct (@C8_normalization_cached sample_scipy (single (1 / 2)) (single 0)
              (single 0) 2 (sample_params (-1)) initial_world)
    as (Hok & _ & _ & Honce).
  destruct (@C8_normalization_cached sample_scipy (single 1) (single 0)
              (single 0) 0 (sample_params (-1)) initial_world)
    as (_ & Hraise & _ & _).
  split; [|split].
  - destruct (Hok _ _ E) as (N & Hget & _ & _ & Hnext & _).
    eexists _, _, N.
    split; [exact E|]; split; [exact Hget | apply Hnext].
  - destruct (Hraise _ _ E0) as (_ & _ & _ & _ & Hagain).
    eexists; split; [exact E0 | apply Hagain].
  - apply Honce.
    intros c [<- | [<- | []]] _; cbn [call_p]; eexists; eassumption.
Defined.

Lemma C9_cached_factor_of_first_parameters_witness :
  exists N1 N2,
    let U := @get_B_disk_cyl_unnormalized sample_scipy (single (1 / 2))
               (single 0) (single 0) 2 (sample_params (-4)) in
    let w1 := snd (@get_B_disk_cyl_component sample_scipy (single 1)
                     (single 0) (single 0) 2 (sample_params (-1))
                     initial_world) in
    N1 <> N2
    /\ @normalization_value sample_scipy 2 (sample_params (-1)) = Ok N1
    /\ @normalization_value sample_scipy 2 (sample_params (-4)) = Ok N2
    /\ np.item (B_2 U) (0, 0, 0)%nat <> 0
    /\ fst (@get_B_disk_cyl_component sample_scipy (single (1 / 2)) (single 0)
              (single 0) 2 (sample_params (-4)) w1) = Ok (scale N1 U)
    /\ fst (@get_B_disk_cyl_component sample_scipy (single (1 / 2)) (single 0)
              (single 0) 2 (sample_params (-4)) initial_world)
       = Ok (scale N2 U)
    /\ np.item (B_2 (scale N1 U)) (0, 0, 0)%nat
       <> np.item (B_2 (scale N2 U)) (0, 0, 0)%nat
    /\ sample_params (-1) <> sample_params (-4)
    /\ fst (@get_B_disk_cyl_component sample_scipy (single (1 / 2)) (single 0)
              (single 0) 2 (sample_params (-4)) w1)
       <> fst (@get_B_disk_cyl_component sample_scipy (single (1 / 2))
                 (single 0) (single 0) 2 (sample_params (-4)) initial_world).
Proof.
  assert (H1 : @normalization_value sample_scipy 2 (sample_params (-1))
               = Ok (Rpower (- -1 * 2 * 2) (-0.5)))
    by (apply sample_normalization; lra).
  assert (H4 : @normalization_value sample_scipy 2 (sample_params (-4))
               = Ok (Rpower (- -4 * 2 * 2) (-0.5)))
    by (apply sample_normalization; lra).
  assert (Hne : Rpower (- -1 * 2 * 2) (-0.5) <> Rpower (- -4 * 2 * 2) (-0.5)).
  { intros E; apply Rpower_neg_half_inj in E; lra. }
  exists (Rpower (- -1 * 2 * 2) (-0.5)), (Rpower (- -4 * 2 * 2) (-0.5)).
  intros U w1.
  assert (HU : np.item (B_2 U) (0, 0, 0)%nat <> 0).
  { unfold U, B_2, get_B_disk_cyl_unnormalized,
      get_B_disk_cyl_unnormalized_item.
    cbn [fst snd np.item np.map np.map3 single sample_params Ralpha_d D_d j1
         sample_scipy].
    replace (PI * 0 / 2) with 0 by lra.
    rewrite cos_0.
    assert (Hs : 0 < sqrt (- -4 / PI)).
    { apply sqrt_lt_R0.
      apply Rmult_lt_0_compat; [lra | apply Rinv_0_lt_compat, PI_RGT_0]. }
    nra. }
  destruct (@C9_cached_factor_of_first_parameters sample_scipy
              2 (sample_params (-1)) (sample_params (-4)) _ _ H1 H4)
    as (Hstate & Hexists).
  destruct (Hstate (single 1) (single 0) (single 0)
              (single (1 / 2)) (single 0) (single 0) initial_world eq_refl)
    as (Hafter & Hfresh & Hdiff).
  destruct (Hexists Hne) as (Hp & Hres).
  split; [exact Hne|]; split; [exact H1|]; split; [exact H4|].
  split; [exact HU|]; split; [exact Hafter|]; split; [exact Hfresh|].
  split; [apply (Hdiff Hne (0, 0, 0)%nat); exact HU|].
  split; [exact Hp|].
  apply (Hres (single 1) (single 0) (single 0)
           (single (1 / 2)) (single 0) (single 0) (0, 0, 0)%nat).
  right; left; exact HU.
Defined.

Lemma C4_disk_field_zero_outside_witness :
  exists B w',
    @get_B_disk_cyl sample_scipy (single (1 / 2)) (single 0) (single 2)
      (sample_params (-1)) initial_world = (Ok B, w')
    /\ Rabs (np.item (single 2) (0, 0, 0)%nat) > 1
    /\ np.item (B_1 B) (0, 0, 0)%nat = 0
    /\ np.item (B_2 B) (0, 0, 0)%nat = 0
    /\ np.item (B_3 B) (0, 0, 0)%nat = 0.
Proof.
  destruct (@C4_disk_field_zero_outside sample_scipy (single (1 / 2))
              (single 0) (single 2) (sample_params (-1)) initial_world)
    as [Hzero Hret].
  destruct Hret as (B & w' & E).
  - cbn [sample_params Cn_d List.length jn_zeros sample_scipy firstn combine].
    discriminate.
  - cbn [sample_params Cn_d List.length jn_zeros sample_scipy firstn].
    intros kn [<- | []].
    eexists; apply sample_normalization; lra.
  - assert (Hz : Rabs (np.item (single 2) (0, 0, 0)%nat) > 1).
    { cbn [np.item single]; rewrite Rabs_right; lra. }
    exists B, w'.
    split; [exact E|]; split; [exact Hz|].
    exact (Hzero B w' E (0, 0, 0)%nat Hz).
Defined.

Lemma C1_integrand_weights_radial_square_only_witness :
  D_d (sample_params (-1)) < 0
  /\ @j1 sample_scipy (2 * (1 / 2)) <> 0
  /\ 1 / 2 <> 1
  /\ @__intregrand_compute_normalization sample_scipy (1 / 2) 0 0 2
       (sample_params (-1))
     <> @spec_integrand sample_scipy (1 / 2) 0 0 2 (sample_params (-1)).
Proof.
  assert (HD : D_d (sample_params (-1)) < 0) by (simpl; lra).
  assert (Hj : @j1 sample_scipy (2 * (1 / 2)) <> 0) by (simpl; lra).
  assert (Hr : 1 / 2 <> 1) by lra.
  split; [exact HD|]; split; [exact Hj|]; split; [exact Hr|].
  exact (proj2 (proj2 (@C1_integrand_weights_radial_square_only sample_scipy
                         (1 / 2) 0 0 2 (sample_params (-1))))
           HD Hj Hr eq_refl).
Defined.

Import halo_free_decay_modes.

Lemma C2_a_2_Btheta_jumps_at_1_witness :
  np.item two_radii (0, 0, 0)%nat = 1
  /\ 1 < np.item two_radii (1, 0, 0)%nat
  /\ 1 / 20
     <= np.item (B_2 (@a_2 sample_scipy two_radii (equatorial two_radii)
                        (np.zeros_like two_radii))) (0, 0, 0)%nat
  /\ np.item (B_2 (@a_2 sample_scipy two_radii (equatorial two_radii)
                     (np.zeros_like two_radii))) (1, 0, 0)%nat = 0.
Proof.
  assert (H0 : np.item two_radii (0, 0, 0)%nat = 1) by reflexivity.
  assert (H1 : 1 < np.item two_radii (1, 0, 0)%nat) by (simpl; lra).
  destruct (@C2_a_2_Btheta_jumps_at_1 sample_scipy two_radii
              (equatorial two_radii) (np.zeros_like two_radii)
              (0, 0, 0)%nat (1, 0, 0)%nat H0 eq_refl H1 eq_refl)
    as (Hin & Hout & _).
  split; [exact H0|]; split; [exact H1|]; split; [exact Hin | exact Hout].
Defined.

Lemma C7_get_mode_above_four_witness :
  (4 < 5)%Z
  /\ @get_mode sample_scipy two_radii (equatorial two_radii)
       (np.zeros_like two_radii) 5 true = Raise NotImplementedError.
Proof.
  assert (H5 : (4 < 5)%Z) by lia.
  split; [exact H5|].
  exact (@C7_get_mode_above_four sample_scipy two_radii
           (equatorial two_radii) (np.zeros_like two_radii) 5 true H5).
Defined.

Lemma C10_get_mode_nonpositive_index_witness :
  (0 <= 0)%Z /\ (-5 < -3)%Z
  /\ @get_mode sample_scipy two_radii (equatorial two_radii)
       (np.zeros_like two_radii) 0 true <> Raise NotImplementedError
  /\ @get_mode sample_scipy two_radii (equatorial two_radii)
       (np.zeros_like two_radii) (-5) true = Raise IndexError.
Proof.
  assert (H0 : (0 <= 0)%Z) by lia.
  assert (H5 : (-5 < -3)%Z) by lia.
  destruct (@C10_get_mode_nonpositive_index sample_scipy two_radii
              (equatorial two_radii) (np.zeros_like two_radii) true)
    as (Hno & _ & _ & _ & _ & _ & _ & _ & _ & Hbelow).
  split; [exact H0|]; split; [exact H5|].
  split; [exact (proj1 (Hno 0%Z H0)) | exact (Hbelow (-5)%Z H5)].
Defined.

End Runs.

(** * Further properties *)

(** ** Grid: sampling, ranges, round trips and the cache *)

Section GridMore.

Import GridSpec.

Lemma bundle_items (b0 b1 b2 : R * R) (n0 n1 n2 : Z) (gt : string) :
  positive_resolution (n0, n1, n2) ->
  Grid.valid_grid_type gt ->
  exists c,
    Grid._generate_coordinates (fresh (b0, b1, b2) (n0, n1, n2) gt) = Ok c
    /\ (forall i0 i1 i2 u0 u1 u2 i,
         u0 = np.mgrid_axis (np.mk_slice (fst b0) (snd b0) n0) i0 ->
         u1 = np.mgrid_axis (np.mk_slice (fst b1) (snd b1) n1) i1 ->
         u2 = np.mgrid_axis (np.mk_slice (fst b2) (snd b2) n2) i2 ->
         i = (i0, i1, i2) ->
         (gt = "cartesian"%string ->
          np.item (Grid.c_x c) i = u0 /\ np.item (Grid.c_y c) i = u1
          /\ np.item (Grid.c_z c) i = u2
          /\ np.item (Grid.c_r_spherical c) i
             = sqrt (Grid.sqr u0 + Grid.sqr u1 + Grid.sqr u2)
          /\ np.item (Grid.c_r_cylindrical c) i
             = sqrt (Grid.sqr u0 + Grid.sqr u1)
          /\ np.item (Grid.c_theta c) i
             = np.arccos (np.divide u2
                            (sqrt (Grid.sqr u0 + Grid.sqr u1 + Grid.sqr u2)))
          /\ np.item (Grid.c_phi c) i = np.arctan2 u1 u0)
         /\ (gt = "spherical"%string ->
             np.item (Grid.c_x c) i = u0 * sin u1 * cos u2
             /\ np.item (Grid.c_y c) i = u0 * sin u1 * sin u2
             /\ np.item (Grid.c_z c) i = u0 * cos u1
             /\ np.item (Grid.c_r_spherical c) i = u0
             /\ np.item (Grid.c_r_cylindrical c) i = u0 * sin u1
             /\ np.item (Grid.c_theta c) i = Some u1
             /\ np.item (Grid.c_phi c) i = u2)
         /\ (gt = "cylindrical"%string ->
             np.item (Grid.c_x c) i = u0 * cos u1
             /\ np.item (Grid.c_y c) i = u0 * sin u1
             /\ np.item (Grid.c_z c) i = u2
             /\ np.item (Grid.c_r_spherical c) i
                = sqrt (Grid.sqr u0 + Grid.sqr u2)
             /\ np.item (Grid.c_r_cylindrical c) i = u0
             /\ np.item (Grid.c_theta c) i
                = np.arccos (np.divide u2 (sqrt (Grid.sqr u0 + Grid.sqr u2)))
             /\ np.item (Grid.c_phi c) i = u1))
    /\ np.shape (Grid.c_x c) = (Z.to_nat n0, Z.to_nat n1, Z.to_nat n2)
    /\ np.shape (Grid.c_y c) = (Z.to_nat n0, Z.to_nat n1, Z.to_nat n2)
    /\ np.shape (Grid.c_z c) = (Z.to_nat n0, Z.to_nat n1, Z.to_nat n2)
    /\ np.shape (Grid.c_r_spherical c) = (Z.to_nat n0, Z.to_nat n1, Z.to_nat n2)
    /\ np.shape (Grid.c_r_cylindrical c)
       = (Z.to_nat n0, Z.to_nat n1, Z.to_nat n2)
    /\ np.shape (Grid.c_theta c) = (Z.to_nat n0, Z.to_nat n1, Z.to_nat n2)
    /\ np.shape (Grid.c_phi c) = (Z.to_nat n0, Z.to_nat n1, Z.to_nat n2).
Proof.
  intros Hres Hgt.
  rewrite (generate_on_positive b0 b1 b2 n0 n1 n2 gt Hres).
  unfold np.mgrid.
  assert (Hsh : forall (a b : R) (n : Z), (0 < n)%Z ->
                  np.mgrid_size (np.mk_slice a b n) = Z.to_nat n).
  { intros a b n Hn; unfold np.mgrid_size; cbn [np.step_j].
    rewrite Z.abs_eq by lia; reflexivity. }
  destruct Hres as (H0 & H1 & H2).
  destruct Hgt as [-> | [-> | ->]]; cbn [String.eqb Ascii.eqb Bool.eqb];
    eexists; (split; [reflexivity|]);
    cbn [Grid.c_x Grid.c_y Grid.c_z Grid.c_r_spherical Grid.c_r_cylindrical
         Grid.c_theta Grid.c_phi np.item np.shape np.map np.map2 np.map3];
    rewrite !Hsh by assumption;
    (split; [|repeat split; reflexivity]);
    intros i0 i1 i2 u0 u1 u2 i -> -> -> ->;
    (split; [intros E | split; intros E]);
    first [discriminate E | repeat split; reflexivity].
Qed.

Lemma radius_factor (x y : R) :
  x <> 0 ->
  sqrt (Grid.sqr x + Grid.sqr y) = Rabs x * sqrt (1 + (y / x)²)
  /\ 0 < sqrt (1 + (y / x)²).
Proof.
  intros Hx.
  assert (Hpos : 0 < 1 + (y / x)²) by (generalize (Rle_0_sqr (y / x)); lra).
  split; [|apply sqrt_lt_R0; exact Hpos].
  rewrite <- sqrt_Rsqr_abs, <- sqrt_mult by (try apply Rle_0_sqr; lra).
  f_equal; unfold Grid.sqr, Rsqr; field; exact Hx.
Qed.

(** [arctan2] gives the angle of the point [(x, y)]: the radius times
    its cosine and sine are [x] and [y]. *)
Lemma arctan2_polar (x y : R) :
  sqrt (Grid.sqr x + Grid.sqr y) * cos (np.arctan2 y x) = x
  /\ sqrt (Grid.sqr x + Grid.sqr y) * sin (np.arctan2 y x) = y.
Proof.
  unfold np.arctan2.
  destruct (Rlt_dec 0 x) as [Hx | Hx].
  - destruct (radius_factor x y) as [-> Hs]; [lra|].
    rewrite cos_atan, sin_atan, Rabs_right by lra.
    split; field; lra.
  - destruct (Rlt_dec x 0) as [Hx' | Hx'].
    + destruct (radius_factor x y) as [-> Hs]; [lra|].
      rewrite Rabs_left by lra.
      destruct (Rle_dec 0 y) as [Hy | Hy].
      * rewrite neg_cos, neg_sin, cos_atan, sin_atan.
        split; field; lra.
      * replace (atan (y / x) - PI) with (- (PI - atan (y / x))) by ring.
        rewrite cos_neg, sin_neg, Rtrigo_facts.cos_pi_minus,
          Rtrigo_facts.sin_pi_minus, cos_atan, sin_atan.
        split; field; lra.
    + assert (E : x = 0) by lra; subst x.
      replace (Grid.sqr 0 + Grid.sqr y) with (y²)
        by (unfold Grid.sqr, Rsqr; ring).
      rewrite sqrt_Rsqr_abs.
      destruct (Rlt_dec 0 y) as [Hy | Hy].
      * rewrite cos_PI2, sin_PI2, Rabs_right by lra; split; ring.
      * destruct (Rlt_dec y 0) as [Hy' | Hy'].
        -- rewrite cos_neg, sin_neg, cos_PI2, sin_PI2, Rabs_left by lra.
           split; ring.
        -- assert (E : y = 0) by lra; subst y.
           rewrite Rabs_R0; split; ring.
Qed.

Lemma arctan2_range (x y : R) : - PI < np.arctan2 y x <= PI.
Proof.
  unfold np.arctan2.
  generalize PI_RGT_0; intros Hpi.
  destruct (Rlt_dec 0 x) as [Hx | Hx].
  - generalize (atan_bound (y / x)); lra.
  - destruct (Rlt_dec x 0) as [Hx' | Hx'].
    + generalize (atan_bound (y / x)); intros Hb.
      destruct (Rle_dec 0 y) as [Hy | Hy].
      * assert (Ht : y / x <= 0).
        { unfold Rdiv. assert (/ x < 0) by (apply Rinv_lt_0_compat; lra). nra. }
        assert (atan (y / x) <= 0).
        { destruct Ht as [Ht | Ht];
            [left; rewrite <- atan_0; apply atan_increasing; exact Ht
            | rewrite Ht, atan_0; lra]. }
        lra.
      * assert (Ht : 0 < y / x).
        { unfold Rdiv. assert (/ x < 0) by (apply Rinv_lt_0_compat; lra). nra. }
        assert (0 < atan (y / x))
          by (rewrite <- atan_0; apply atan_increasing; exact Ht).
        lra.
    + destruct (Rlt_dec 0 y); [lra|].
      destruct (Rlt_dec y 0); lra.
Qed.


Lemma mgrid_axis_evenly_spaced (a b : R) (n : Z) :
  (0 < n)%Z ->
  evenly_spaced a b n (np.mgrid_axis (np.mk_slice a b n)).
Proof.
  intros Hn; unfold evenly_spaced, np.mgrid_axis, np.mgrid_step.
  cbn [np.start np.stop np.step_j].
  rewrite Z.abs_eq by lia.
  split; [simpl; ring|].
  split.
  - intros H1.
    replace (n =? 1)%Z with false by (symmetry; apply Z.eqb_neq; lia).
    assert (Hd : IZR n - 1 <> 0).
    { assert (1 < IZR n) by (apply IZR_lt; exact H1); lra. }
    split.
    + rewrite minus_INR by lia.
      rewrite INR_IZR_INZ, Z2Nat.id by lia.
      simpl; field; exact Hd.
    + intros i; rewrite S_INR; field; exact Hd.
  - intros Hab i Hi.
    destruct (Z.eqb_spec n 1) as [-> | Hne].
    + assert (i = 0%nat) by (simpl in Hi; lia); subst i; simpl; lra.
    + assert (H1 : 1 < IZR n) by (apply IZR_lt; lia).
      assert (Hi' : INR i <= IZR n - 1).
      { replace (IZR n - 1) with (INR (Z.to_nat n - 1)).
        - apply le_INR; lia.
        - rewrite minus_INR by lia.
          rewrite INR_IZR_INZ, Z2Nat.id by lia; simpl; ring. }
      assert (H0 : 0 <= INR i) by apply pos_INR.
      assert (Hs : 0 <= (b - a) / (IZR n - 1)).
      { apply Rmult_le_pos; [lra|].
        apply Rlt_le, Rinv_0_lt_compat; lra. }
      split; [nra|].
      replace b with ((IZR n - 1) * ((b - a) / (IZR n - 1)) + a) at 2
        by (field; lra).
      nra.
Qed.

(** X3.  The native coordinates of a grid are evenly spaced along their
    axis, both ends of the box included: the first sample is the lower
    limit; with more than one sample the last one is the upper limit and
    neighbours differ by (upper - lower)/(n - 1); and when lower <= upper
    every sample lies between them.  This holds for x, y, z on a
    cartesian grid, r_spherical and phi on a spherical one,
    r_cylindrical, phi and z on a cylindrical one. *)
Theorem grid_axes_evenly_spaced
    (b0 b1 b2 : R * R) (n0 n1 n2 : Z) (gt : string) :
  positive_resolution (n0, n1, n2) ->
  Grid.valid_grid_type gt ->
  exists c,
    Grid._generate_coordinates (fresh (b0, b1, b2) (n0, n1, n2) gt) = Ok c
    /\ forall i0 i1 i2 : nat,
         (gt = "cartesian"%string ->
          evenly_spaced (fst b0) (snd b0) n0
            (fun i => np.item (Grid.c_x c) (i, i1, i2))
          /\ evenly_spaced (fst b1) (snd b1) n1
               (fun i => np.item (Grid.c_y c) (i0, i, i2))
          /\ evenly_spaced (fst b2) (snd b2) n2
               (fun i => np.item (Grid.c_z c) (i0, i1, i)))
         /\ (gt = "spherical"%string ->
             evenly_spaced (fst b0) (snd b0) n0
               (fun i => np.item (Grid.c_r_spherical c) (i, i1, i2))
             /\ evenly_spaced (fst b2) (snd b2) n2
                  (fun i => np.item (Grid.c_phi c) (i0, i1, i)))
         /\ (gt = "cylindrical"%string ->
             evenly_spaced (fst b0) (snd b0) n0
               (fun i => np.item (Grid.c_r_cylindrical c) (i, i1, i2))
             /\ evenly_spaced (fst b1) (snd b1) n1
                  (fun i => np.item (Grid.c_phi c) (i0, i, i2))
             /\ evenly_spaced (fst b2) (snd b2) n2
                  (fun i => np.item (Grid.c_z c) (i0, i1, i))).
Proof.
  intros Hres Hgt.
  destruct (bundle_items b0 b1 b2 n0 n1 n2 gt Hres Hgt) as (c & Hc & Hit & _).
  destruct Hres as (H0 & H1 & H2).
  assert (E0 := mgrid_axis_evenly_spaced (fst b0) (snd b0) n0 H0).
  assert (E1 := mgrid_axis_evenly_spaced (fst b1) (snd b1) n1 H1).
  assert (E2 := mgrid_axis_evenly_spaced (fst b2) (snd b2) n2 H2).
  assert (Hext : forall a b n f g,
            (forall i, g i = f i) -> evenly_spaced a b n f ->
            evenly_spaced a b n g).
  { intros a b n f g Hfg (Ha & Hb & Hr); split; [rewrite Hfg; exact Ha|].
    split.
    - intros Hn; destruct (Hb Hn) as [Hl Hd]; split.
      + rewrite Hfg; exact Hl.
      + intros i; rewrite !Hfg; apply Hd.
    - intros Hab i Hi; rewrite Hfg; apply Hr; assumption. }
  exists c; split; [exact Hc|].
  intros i0 i1 i2; split; [|split]; intros E.
  - refine (conj _ (conj _ _)).
    + eapply Hext; [|exact E0]; intros i.
      destruct (Hit i i1 i2 _ _ _ _ eq_refl eq_refl eq_refl eq_refl) as (Hcart & _); destruct (Hcart E) as (-> & _).
      reflexivity.
    + eapply Hext; [|exact E1]; intros i.
      destruct (Hit i0 i i2 _ _ _ _ eq_refl eq_refl eq_refl eq_refl) as (Hcart & _);
        destruct (Hcart E) as (_ & -> & _).
      reflexivity.
    + eapply Hext; [|exact E2]; intros i.
      destruct (Hit i0 i1 i _ _ _ _ eq_refl eq_refl eq_refl eq_refl) as (Hcart & _);
        destruct (Hcart E) as (_ & _ & -> & _).
      reflexivity.
  - refine (conj _ _).
    + eapply Hext; [|exact E0]; intros i.
      destruct (Hit i i1 i2 _ _ _ _ eq_refl eq_refl eq_refl eq_refl) as (_ & Hsph & _);
        destruct (Hsph E) as (_ & _ & _ & -> & _).
      reflexivity.
    + eapply Hext; [|exact E2]; intros i.
      destruct (Hit i0 i1 i _ _ _ _ eq_refl eq_refl eq_refl eq_refl) as (_ & Hsph & _);
        destruct (Hsph E) as (_ & _ & _ & _ & _ & _ & ->).
      reflexivity.
  - refine (conj _ (conj _ _)).
    + eapply Hext; [|exact E0]; intros i.
      destruct (Hit i i1 i2 _ _ _ _ eq_refl eq_refl eq_refl eq_refl) as (_ & _ & Hcyl);
        destruct (Hcyl E) as (_ & _ & _ & _ & -> & _).
      reflexivity.
    + eapply Hext; [|exact E1]; intros i.
      destruct (Hit i0 i i2 _ _ _ _ eq_refl eq_refl eq_refl eq_refl) as (_ & _ & Hcyl);
        destruct (Hcyl E) as (_ & _ & _ & _ & _ & _ & ->).
      reflexivity.
    + eapply Hext; [|exact E2]; intros i.
      destruct (Hit i0 i1 i _ _ _ _ eq_refl eq_refl eq_refl eq_refl) as (_ & _ & Hcyl);
        destruct (Hcyl E) as (_ & _ & -> & _).
      reflexivity.
Qed.

Lemma polar_angle_of_sqrt (s c : R) :
  0 <= s ->
  sqrt (s + Grid.sqr c) <> 0 ->
  exists t,
    np.arccos (np.divide c (sqrt (s + Grid.sqr c))) = Some t
    /\ c = sqrt (s + Grid.sqr c) * cos t
    /\ 0 <= t <= PI.
Proof.
  intros Hs Hr.
  generalize (polar_of_sqrt s c Hs Hr).
  unfold np.divide.
  destruct (Req_dec_T (sqrt (s + Grid.sqr c)) 0) as [E | _]; [contradiction|].
  unfold np.arccos.
  destruct (Rle_dec (-1) (c / sqrt (s + Grid.sqr c))); [|discriminate].
  destruct (Rle_dec (c / sqrt (s + Grid.sqr c)) 1); [|discriminate].
  simpl; intros E.
  assert (E' := f_equal (fun o => match o with Some v => v | None => 0 end) E);
    simpl in E'.
  eexists; split; [reflexivity|]; split; [symmetry; exact E'|].
  apply acos_bound.
Qed.

Lemma bundle_relations (b0 b1 b2 : R * R) (n0 n1 n2 : Z) (gt : string) :
  positive_resolution (n0, n1, n2) ->
  Grid.valid_grid_type gt ->
  exists c,
    Grid._generate_coordinates (fresh (b0, b1, b2) (n0, n1, n2) gt) = Ok c
    /\ forall i,
         np.item (Grid.c_x c) i
         = np.item (Grid.c_r_cylindrical c) i * cos (np.item (Grid.c_phi c) i)
         /\ np.item (Grid.c_y c) i
            = np.item (Grid.c_r_cylindrical c) i
              * sin (np.item (Grid.c_phi c) i)
         /\ Grid.sqr (np.item (Grid.c_r_cylindrical c) i)
            + Grid.sqr (np.item (Grid.c_z c) i)
            = Grid.sqr (np.item (Grid.c_r_spherical c) i)
         /\ (np.item (Grid.c_r_spherical c) i <> 0 ->
             exists t,
               np.item (Grid.c_theta c) i = Some t
               /\ np.item (Grid.c_z c) i
                  = np.item (Grid.c_r_spherical c) i * cos t)
         /\ (gt <> "spherical"%string ->
             0 <= np.item (Grid.c_r_spherical c) i
             /\ Rabs (np.item (Grid.c_r_cylindrical c) i)
                <= np.item (Grid.c_r_spherical c) i
             /\ Rabs (np.item (Grid.c_z c) i)
                <= np.item (Grid.c_r_spherical c) i
             /\ forall t, np.item (Grid.c_theta c) i = Some t -> 0 <= t <= PI)
         /\ (gt = "cartesian"%string ->
             0 <= np.item (Grid.c_r_cylindrical c) i
             /\ - PI <= np.item (Grid.c_phi c) i <= PI).
Proof.
  intros Hres Hgt.
  destruct (bundle_items b0 b1 b2 n0 n1 n2 gt Hres Hgt) as (c & Hc & Hit & _).
  exists c; split; [exact Hc|].
  intros [[i0 i1] i2].
  destruct (Hit i0 i1 i2 _ _ _ _ eq_refl eq_refl eq_refl eq_refl)
    as (Hcart & Hsph & Hcyl).
  set (u0 := np.mgrid_axis _ i0) in *; set (u1 := np.mgrid_axis _ i1) in *;
    set (u2 := np.mgrid_axis _ i2) in *.
  assert (Habs : forall a b, Rabs a <= sqrt (Grid.sqr a + Grid.sqr b)).
  { intros a b; rewrite <- sqrt_Rsqr_abs.
    apply sqrt_le_1_alt; unfold Grid.sqr, Rsqr; nra. }
  destruct Hgt as [E | [E | E]].
  - destruct (Hcart E) as (-> & -> & -> & -> & -> & -> & ->).
    destruct (arctan2_polar u0 u1) as [Hx Hy].
    assert (H01 : 0 <= Grid.sqr u0 + Grid.sqr u1)
      by (generalize (sqr_nonneg u0) (sqr_nonneg u1); lra).
    assert (H012 : 0 <= Grid.sqr u0 + Grid.sqr u1 + Grid.sqr u2)
      by (generalize (sqr_nonneg u2); lra).
    split; [symmetry; exact Hx|]; split; [symmetry; exact Hy|].
    split; [rewrite !sqr_sqrt by assumption; reflexivity|].
    split.
    { intros Hr.
      destruct (polar_angle_of_sqrt _ u2 H01 Hr) as (t & Ht & Hz & _).
      exists t; split; assumption. }
    split.
    { intros _; split; [apply sqrt_pos|].
      split.
      - rewrite Rabs_right by (apply Rle_ge, sqrt_pos).
        apply sqrt_le_1_alt; generalize (sqr_nonneg u2); lra.
      - replace (Grid.sqr u0 + Grid.sqr u1 + Grid.sqr u2)
          with (Grid.sqr u2 + (Grid.sqr u0 + Grid.sqr u1)) by ring.
        split.
        + rewrite <- sqrt_Rsqr_abs.
          apply sqrt_le_1_alt; unfold Grid.sqr, Rsqr in *; nra.
        + intros t Ht.
          replace (Grid.sqr u2 + (Grid.sqr u0 + Grid.sqr u1))
            with (Grid.sqr u0 + Grid.sqr u1 + Grid.sqr u2) in Ht by ring.
          unfold np.divide, np.arccos in Ht.
          destruct (Req_dec_T _ 0); [discriminate|].
          destruct (Rle_dec _ _); [|discriminate].
          destruct (Rle_dec _ _); [|discriminate].
          inversion Ht; apply acos_bound. }
    intros _; split; [apply sqrt_pos|].
    generalize (arctan2_range u0 u1); lra.
  - destruct (Hsph E) as (-> & -> & -> & -> & -> & -> & ->).
    generalize (sin_cos_sqr u1); unfold Grid.sqr; intros Hth.
    split; [ring|]; split; [ring|].
    split; [nra|].
    split; [intros _; exists u1; split; reflexivity|].
    split; [intros N; contradiction|].
    intros E'; rewrite E in E'; discriminate E'.
  - destruct (Hcyl E) as (-> & -> & -> & -> & -> & -> & ->).
    assert (H0 : 0 <= Grid.sqr u0) by apply sqr_nonneg.
    assert (H02 : 0 <= Grid.sqr u0 + Grid.sqr u2)
      by (generalize (sqr_nonneg u2); lra).
    split; [reflexivity|]; split; [reflexivity|].
    split; [rewrite sqr_sqrt by assumption; reflexivity|].
    split.
    { intros Hr.
      destruct (polar_angle_of_sqrt _ u2 H0 Hr) as (t & Ht & Hz & _).
      exists t; split; assumption. }
    split.
    { intros _; split; [apply sqrt_pos|].
      split; [apply Habs|].
      split.
      - replace (Grid.sqr u0 + Grid.sqr u2) with (Grid.sqr u2 + Grid.sqr u0)
          by ring.
        apply Habs.
      - intros t Ht.
        unfold np.divide, np.arccos in Ht.
        destruct (Req_dec_T _ 0); [discriminate|].
        destruct (Rle_dec _ _); [|discriminate].
        destruct (Rle_dec _ _); [|discriminate].
        inversion Ht; apply acos_bound. }
    intros E'; rewrite E in E'; discriminate E'.
Qed.

Lemma coordinates_again (g g' : Grid.t) (c : Grid.coordinates_dict) :
  Grid.coordinates g = (Ok c, g') ->
  Grid._coordinates g' = Some c
  /\ Grid.box g' = Grid.box g
  /\ Grid.resolution g' = Grid.resolution g
  /\ Grid.grid_type g' = Grid.grid_type g
  /\ Grid.coordinates g' = (Ok c, g')
  /\ Grid.x g' = (Ok (Grid.c_x c), g')
  /\ Grid.y g' = (Ok (Grid.c_y c), g')
  /\ Grid.z g' = (Ok (Grid.c_z c), g')
  /\ Grid.r_spherical g' = (Ok (Grid.c_r_spherical c), g')
  /\ Grid.r_cylindrical g' = (Ok (Grid.c_r_cylindrical c), g')
  /\ Grid.theta g' = (Ok (Grid.c_theta c), g')
  /\ Grid.phi g' = (Ok (Grid.c_phi c), g').
Proof.
  intros Hc.
  assert (Hg' : Grid._coordinates g' = Some c
                /\ Grid.box g' = Grid.box g
                /\ Grid.resolution g' = Grid.resolution g
                /\ Grid.grid_type g' = Grid.grid_type g).
  { unfold Grid.coordinates in Hc.
    destruct (Grid._coordinates g) as [c0 |] eqn:E.
    - inversion Hc; subst; repeat split; assumption.
    - destruct (Grid._generate_coordinates g) as [c0 | e];
        inversion Hc; subst; repeat split; reflexivity. }
  destruct Hg' as (Hs & Hb & Hr & Ht).
  assert (Hagain : Grid.coordinates g' = (Ok c, g')).
  { unfold Grid.coordinates; rewrite Hs; reflexivity. }
  unfold Grid.x, Grid.y, Grid.z, Grid.r_spherical, Grid.r_cylindrical,
    Grid.theta, Grid.phi, Grid.property.
  rewrite Hagain; simpl.
  repeat (split; [assumption || reflexivity|]); reflexivity.
Qed.

(** X1.  Once an access to the coordinates has returned a bundle, the
    grid holds it: box, resolution and grid type are unchanged, and
    every later access, through [coordinates] or any of the seven
    coordinate properties, returns the arrays of that same bundle and
    leaves the grid as it is. *)
Theorem coordinates_cached (g g' : Grid.t) (c : Grid.coordinates_dict) :
  Grid.coordinates g = (Ok c, g') ->
  Grid._coordinates g' = Some c
  /\ Grid.box g' = Grid.box g
  /\ Grid.resolution g' = Grid.resolution g
  /\ Grid.grid_type g' = Grid.grid_type g
  /\ Grid.coordinates g' = (Ok c, g')
  /\ Grid.x g' = (Ok (Grid.c_x c), g')
  /\ Grid.y g' = (Ok (Grid.c_y c), g')
  /\ Grid.z g' = (Ok (Grid.c_z c), g')
  /\ Grid.r_spherical g' = (Ok (Grid.c_r_spherical c), g')
  /\ Grid.r_cylindrical g' = (Ok (Grid.c_r_cylindrical c), g')
  /\ Grid.theta g' = (Ok (Grid.c_theta c), g')
  /\ Grid.phi g' = (Ok (Grid.c_phi c), g').
Proof. exact (coordinates_again g g' c). Qed.

Lemma coordinates_of_generate (box : (R * R) * (R * R) * (R * R))
    (res : Z * Z * Z) (gt : string) (c : Grid.coordinates_dict) :
  Grid._generate_coordinates (fresh box res gt) = Ok c ->
  Grid.coordinates (fresh box res gt)
  = (Ok c, Grid.mk_Grid box res gt (Some c) None).
Proof.
  intros Hc; unfold Grid.coordinates.
  change (Grid._coordinates (fresh box res gt)) with
    (@None Grid.coordinates_dict).
  rewrite Hc; reflexivity.
Qed.

(** X2.  On a strictly positive resolution and one of the three grid
    types, each of the seven coordinate arrays has the shape of the
    resolution. *)
Theorem grid_arrays_have_the_resolution_shape
    (box : (R * R) * (R * R) * (R * R)) (n0 n1 n2 : Z) (gt : string) :
  positive_resolution (n0, n1, n2) ->
  Grid.valid_grid_type gt ->
  exists c g',
    Grid.coordinates (fresh box (n0, n1, n2) gt) = (Ok c, g')
    /\ np.shape (Grid.c_x c) = (Z.to_nat n0, Z.to_nat n1, Z.to_nat n2)
    /\ np.shape (Grid.c_y c) = (Z.to_nat n0, Z.to_nat n1, Z.to_nat n2)
    /\ np.shape (Grid.c_z c) = (Z.to_nat n0, Z.to_nat n1, Z.to_nat n2)
    /\ np.shape (Grid.c_r_spherical c) = (Z.to_nat n0, Z.to_nat n1, Z.to_nat n2)
    /\ np.shape (Grid.c_r_cylindrical c)
       = (Z.to_nat n0, Z.to_nat n1, Z.to_nat n2)
    /\ np.shape (Grid.c_theta c) = (Z.to_nat n0, Z.to_nat n1, Z.to_nat n2)
    /\ np.shape (Grid.c_phi c) = (Z.to_nat n0, Z.to_nat n1, Z.to_nat n2).
Proof.
  destruct box as [[b0 b1] b2]; intros Hres Hgt.
  destruct (bundle_items b0 b1 b2 n0 n1 n2 gt Hres Hgt) as (c & Hc & _ & Hsh).
  exists c; eexists; split; [apply coordinates_of_generate; exact Hc|].
  exact Hsh.
Qed.

(** X4.  For each of the three grid types and at every grid point, the
    cylindrical radius and the azimuth give the horizontal cartesian
    coordinates back: [x = r_cylindrical cos(phi)] and
    [y = r_cylindrical sin(phi)]; on a cartesian grid this is the round
    trip through [sqrt(x^2 + y^2)] and [arctan2(y, x)], the axis
    included. *)
Theorem grid_polar_round_trip
    (box : (R * R) * (R * R) * (R * R)) (res : Z * Z * Z) (gt : string) :
  positive_resolution res ->
  Grid.valid_grid_type gt ->
  exists c g',
    Grid.coordinates (fresh box res gt) = (Ok c, g')
    /\ forall i,
         np.item (Grid.c_x c) i
         = np.item (Grid.c_r_cylindrical c) i * cos (np.item (Grid.c_phi c) i)
         /\ np.item (Grid.c_y c) i
            = np.item (Grid.c_r_cylindrical c) i
              * sin (np.item (Grid.c_phi c) i).
Proof.
  destruct box as [[b0 b1] b2], res as [[n0 n1] n2]; intros Hres Hgt.
  destruct (bundle_relations b0 b1 b2 n0 n1 n2 gt Hres Hgt) as (c & Hc & Hrel).
  exists c; eexists; split; [apply coordinates_of_generate; exact Hc|].
  intros i; destruct (Hrel i) as (Hx & Hy & _); split; assumption.
Qed.

(** X5.  On a cartesian or a cylindrical grid, at every grid point:
    [r_spherical >= 0], [|r_cylindrical| <= r_spherical],
    [|z| <= r_spherical], [theta] lies in [0, pi] when it is a finite
    float, and it is not one exactly where [r_spherical] is 0.  On a
    cartesian grid moreover [r_cylindrical >= 0] and [phi] lies in
    [-pi, pi]. *)
Theorem grid_coordinate_ranges
    (box : (R * R) * (R * R) * (R * R)) (res : Z * Z * Z) (gt : string) :
  positive_resolution res ->
  gt = "cartesian"%string \/ gt = "cylindrical"%string ->
  exists c g',
    Grid.coordinates (fresh box res gt) = (Ok c, g')
    /\ forall i,
         0 <= np.item (Grid.c_r_spherical c) i
         /\ Rabs (np.item (Grid.c_r_cylindrical c) i)
            <= np.item (Grid.c_r_spherical c) i
         /\ Rabs (np.item (Grid.c_z c) i) <= np.item (Grid.c_r_spherical c) i
         /\ (forall t, np.item (Grid.c_theta c) i = Some t -> 0 <= t <= PI)
         /\ (np.item (Grid.c_theta c) i = None <->
             np.item (Grid.c_r_spherical c) i = 0)
         /\ (gt = "cartesian"%string ->
             0 <= np.item (Grid.c_r_cylindrical c) i
             /\ - PI <= np.item (Grid.c_phi c) i <= PI).
Proof.
  destruct box as [[b0 b1] b2], res as [[n0 n1] n2]; intros Hres Hgt.
  assert (Hv : Grid.valid_grid_type gt)
    by (destruct Hgt; [left | right; right]; assumption).
  assert (Hns : gt <> "spherical"%string)
    by (destruct Hgt as [-> | ->]; discriminate).
  destruct (bundle_relations b0 b1 b2 n0 n1 n2 gt Hres Hv) as (c & Hc & Hrel).
  destruct (bundle_items b0 b1 b2 n0 n1 n2 gt Hres Hv) as (c' & Hc' & Hit & _).
  rewrite Hc in Hc'; inversion Hc'; subst c'; clear Hc'.
  exists c; eexists; split; [apply coordinates_of_generate; exact Hc|].
  intros i; destruct (Hrel i) as (_ & _ & _ & Hth & Hr & Hcart).
  destruct (Hr Hns) as (H0 & H1 & H2 & H3).
  split; [exact H0|]; split; [exact H1|]; split; [exact H2|].
  split; [exact H3|]; split; [|exact Hcart].
  split.
  - intros Hnone.
    destruct (Req_dec_T (np.item (Grid.c_r_spherical c) i) 0) as [E | N];
      [exact E|].
    destruct (Hth N) as (t & Ht & _); congruence.
  - intros Hz; destruct i as [[i0 i1] i2].
    destruct (Hit i0 i1 i2 _ _ _ _ eq_refl eq_refl eq_refl eq_refl)
      as (Hca & _ & Hcy).
    destruct Hgt as [E | E].
    + destruct (Hca E) as (_ & _ & _ & Hrs & _ & -> & _).
      apply polar_at_zero; rewrite <- Hrs; exact Hz.
    + destruct (Hcy E) as (_ & _ & _ & Hrs & _ & -> & _).
      apply polar_at_zero; rewrite <- Hrs; exact Hz.
Qed.

Lemma ratio_after_first_access (g g' : Grid.t) (c : Grid.coordinates_dict)
    (num den : Grid.coordinates_dict -> np.ndarray R) :
  Grid.coordinates g = (Ok c, g') ->
  Grid.ratio num den g = (Ok (np.map2 np.divide (num c) (den c)), g').
Proof.
  intros Hc.
  destruct (coordinates_again g g' c Hc) as (_ & _ & _ & _ & Hagain & _).
  unfold Grid.ratio, Grid.property.
  rewrite Hc; cbn [result_bind]; rewrite Hagain; reflexivity.
Qed.

(** X6.  The ratio properties on a fresh grid, for a strictly positive
    resolution and each grid type: the first one read computes the
    coordinates, and all four return arrays.  Where [r_spherical] is
    not 0, [sin_theta] and [cos_theta] are finite, their squares add up
    to 1 and [cos_theta] is the cosine of [theta]; where it is 0 both
    are non-finite.  Where [r_cylindrical] is not 0, [sin_phi] and
    [cos_phi] are the sine and cosine of [phi]; where it is 0 both are
    non-finite. *)
Theorem grid_ratio_properties
    (box : (R * R) * (R * R) * (R * R)) (res : Z * Z * Z) (gt : string) :
  positive_resolution res ->
  Grid.valid_grid_type gt ->
  exists c g' st ct sp cp,
    Grid.coordinates (fresh box res gt) = (Ok c, g')
    /\ Grid.sin_theta (fresh box res gt) = (Ok st, g')
    /\ Grid.cos_theta (fresh box res gt) = (Ok ct, g')
    /\ Grid.sin_phi (fresh box res gt) = (Ok sp, g')
    /\ Grid.cos_phi (fresh box res gt) = (Ok cp, g')
    /\ forall i,
         (np.item (Grid.c_r_spherical c) i <> 0 ->
          exists s k t,
            np.item st i = Some s /\ np.item ct i = Some k
            /\ s * s + k * k = 1
            /\ np.item (Grid.c_theta c) i = Some t /\ k = cos t)
         /\ (np.item (Grid.c_r_spherical c) i = 0 ->
             np.item st i = None /\ np.item ct i = None)
         /\ (np.item (Grid.c_r_cylindrical c) i <> 0 ->
             np.item sp i = Some (sin (np.item (Grid.c_phi c) i))
             /\ np.item cp i = Some (cos (np.item (Grid.c_phi c) i)))
         /\ (np.item (Grid.c_r_cylindrical c) i = 0 ->
             np.item sp i = None /\ np.item cp i = None).
Proof.
  destruct box as [[b0 b1] b2], res as [[n0 n1] n2]; intros Hres Hgt.
  destruct (bundle_relations b0 b1 b2 n0 n1 n2 gt Hres Hgt) as (c & Hc & Hrel).
  assert (Hco := coordinates_of_generate _ _ _ _ Hc).
  exists c; do 5 eexists.
  split; [exact Hco|].
  unfold Grid.sin_theta, Grid.cos_theta, Grid.sin_phi, Grid.cos_phi.
  rewrite !(ratio_after_first_access _ _ _ _ _ Hco).
  repeat (split; [reflexivity|]).
  intros i; destruct (Hrel i) as (Hx & Hy & Hsq & Hth & _).
  cbn [np.item np.map2]; unfold np.divide.
  set (rs := np.item (Grid.c_r_spherical c) i) in *.
  set (rc := np.item (Grid.c_r_cylindrical c) i) in *.
  set (z := np.item (Grid.c_z c) i) in *.
  split; [|split; [|split]].
  - intros Hrs.
    destruct (Req_dec_T rs 0) as [E | _]; [contradiction|].
    destruct (Hth Hrs) as (t & Ht & Hz).
    exists (rc / rs), (z / rs), t.
    split; [reflexivity|]; split; [reflexivity|].
    split; [|split; [exact Ht|]].
    + unfold Grid.sqr in Hsq.
      replace (rc / rs * (rc / rs) + z / rs * (z / rs))
        with ((rc * rc + z * z) / (rs * rs)) by (field; exact Hrs).
      rewrite Hsq; field; exact Hrs.
    + rewrite Hz; field; exact Hrs.
  - intros Hrs.
    destruct (Req_dec_T rs 0) as [_ | N]; [split; reflexivity | contradiction].
  - intros Hrc.
    destruct (Req_dec_T rc 0) as [E | _]; [contradiction|].
    rewrite Hx, Hy; split; f_equal; field; exact Hrc.
  - intros Hrc.
    destruct (Req_dec_T rc 0) as [_ | N]; [split; reflexivity | contradiction].
Qed.

(** X7.  A negative point count on some axis is accepted by the
    constructor, and the first access to the coordinates raises
    [ValueError] (from the allocation of the prototypes), whatever the
    grid type is.  With no negative count and one of the three grid
    types the coordinates are generated, also when a count is 0 (the
    arrays are then empty). *)
Theorem grid_generation_needs_non_negative_resolution
    (box : (R * R) * (R * R) * (R * R)) (n0 n1 n2 : Z) (gt : string) :
  ((n0 < 0 \/ n1 < 0 \/ n2 < 0)%Z ->
   Grid.__init__ box (n0, n1, n2) gt = Ok (fresh box (n0, n1, n2) gt)
   /\ Grid.coordinates (fresh box (n0, n1, n2) gt)
      = (Raise ValueError, fresh box (n0, n1, n2) gt))
  /\ ((0 <= n0 /\ 0 <= n1 /\ 0 <= n2)%Z ->
      Grid.valid_grid_type gt ->
      exists c,
        Grid.coordinates (fresh box (n0, n1, n2) gt)
        = (Ok c, Grid.mk_Grid box (n0, n1, n2) gt (Some c) None)
        /\ np.shape (Grid.c_x c) = (Z.to_nat n0, Z.to_nat n1, Z.to_nat n2)).
Proof.
  split.
  - intros Hneg; split; [reflexivity|].
    unfold Grid.coordinates.
    change (Grid._coordinates (fresh box (n0, n1, n2) gt)) with
      (@None Grid.coordinates_dict).
    unfold Grid._generate_coordinates, Grid.get_prototype, fresh.
    cbn [Grid.resolution np.empty].
    replace ((n0 <? 0)%Z || (n1 <? 0)%Z || (n2 <? 0)%Z)%bool with true;
      [reflexivity|].
    symmetry; rewrite !orb_true_iff, !Z.ltb_lt; tauto.
  - intros (H0 & H1 & H2) Hgt.
    unfold Grid.coordinates.
    change (Grid._coordinates (fresh box (n0, n1, n2) gt)) with
      (@None Grid.coordinates_dict).
    unfold Grid._generate_coordinates, Grid.get_prototype, fresh.
    cbn [Grid.resolution Grid.box Grid.grid_type np.empty].
    replace ((n0 <? 0)%Z || (n1 <? 0)%Z || (n2 <? 0)%Z)%bool with false
      by (symmetry; rewrite !orb_false_iff, !Z.ltb_ge; tauto).
    cbn [result_bind].
    destruct box as [[b0 b1] b2].
    unfold np.mgrid, np.mgrid_size; cbn [np.step_j].
    rewrite !Z.abs_eq by assumption.
    destruct Hgt as [-> | [-> | ->]]; cbn [String.eqb Ascii.eqb Bool.eqb];
      eexists; split; reflexivity.
Qed.

End GridMore.

(** ** Disk field: superposition, symmetry, failures, cartesian wrapper *)

Section DiskMore.

Import disk DiskSpec DiskSum.
Context `{SciPy}.

Lemma unnormalized_mirror_symmetry (r phi phi' z kn : R) (p : params) :
  get_B_disk_cyl_unnormalized_item r phi' (- z) kn p
  = (fst (fst (get_B_disk_cyl_unnormalized_item r phi z kn p)),
     snd (fst (get_B_disk_cyl_unnormalized_item r phi z kn p)),
     - snd (get_B_disk_cyl_unnormalized_item r phi z kn p)).
Proof.
  unfold get_B_disk_cyl_unnormalized_item; cbn [fst snd].
  replace (PI * - z / 2) with (- (PI * z / 2)) by (unfold Rdiv; ring).
  replace (3 * PI * - z / 2) with (- (3 * PI * z / 2)) by (unfold Rdiv; ring).
  rewrite !cos_neg, !sin_neg.
  f_equal.
  unfold Rdiv; ring.
Qed.

Lemma unnormalized_horizontal_zero_at_surface (r phi z kn : R) (p : params) :
  z = 1 \/ z = -1 ->
  fst (fst (get_B_disk_cyl_unnormalized_item r phi z kn p)) = 0
  /\ snd (fst (get_B_disk_cyl_unnormalized_item r phi z kn p)) = 0.
Proof.
  intros Hz.
  assert (Hc : cos (PI * z / 2) = 0 /\ cos (3 * PI * z / 2) = 0).
  { destruct Hz as [-> | ->].
    - replace (PI * 1 / 2) with (PI / 2) by (unfold Rdiv; ring).
      replace (3 * PI * 1 / 2) with (3 * (PI / 2)) by (unfold Rdiv; ring).
      split; [apply cos_PI2 | apply cos_3PI2].
    - replace (PI * -1 / 2) with (- (PI / 2)) by (unfold Rdiv; ring).
      replace (3 * PI * -1 / 2) with (- (3 * (PI / 2))) by (unfold Rdiv; ring).
      rewrite !cos_neg; split; [apply cos_PI2 | apply cos_3PI2]. }
  destruct Hc as [Hc1 Hc3].
  unfold get_B_disk_cyl_unnormalized_item; cbn [fst snd].
  rewrite Hc1, Hc3; split; unfold Rdiv; ring.
Qed.

(** X8.  [get_B_disk_cyl_component] raises only a [ZeroDivisionError],
    and only when the wavenumber was not cached and [nquad] returned 0.
    The failed call has run [nquad] once and cached nothing, so the
    same call made again integrates again and raises again. *)
Theorem component_exception_safety
    (r phi z : np.ndarray R) (kn : R) (p : params) (w w' : world) (e : exn) :
  get_B_disk_cyl_component r phi z kn p w = (Raise e, w') ->
  e = ZeroDivisionError
  /\ dict_get (B_norm w) kn = None
  /\ fst (nquad (fun r phi z => __intregrand_compute_normalization r phi z kn p)
            [(0, 1); (0, 2 * PI); (-1, 1)]) = 0
  /\ B_norm w' = B_norm w
  /\ nquad_calls w' = nquad_calls w ++ [kn]
  /\ forall r2 phi2 z2,
       get_B_disk_cyl_component r2 phi2 z2 kn p w'
       = (Raise ZeroDivisionError,
          mk_world (B_norm w) (nquad_calls w ++ [kn; kn])).
Proof.
  intros Hcall.
  destruct (component_cases r phi z kn p w)
    as [(N & _ & E) | [(_ & N & _ & E) | (Hnone & e' & He & E)]];
    rewrite E in Hcall; inversion Hcall; subst; clear Hcall.
  assert (Hz : fst (nquad (fun r phi z =>
                      __intregrand_compute_normalization r phi z kn p)
                      [(0, 1); (0, 2 * PI); (-1, 1)]) = 0
               /\ e = ZeroDivisionError).
  { unfold normalization_value, float_pow in He.
    destruct (Req_dec_T _ 0) as [E0 | _]; [|discriminate].
    destruct (Rlt_dec (-0.5) 0) as [_ | N]; [|exfalso; lra].
    inversion He; split; [exact E0 | reflexivity]. }
  destruct Hz as [Hz ->].
  repeat (split; [assumption || reflexivity|]).
  intros r2 phi2 z2.
  rewrite (component_raises r2 phi2 z2 kn p _ ZeroDivisionError);
    [|exact Hnone | exact He].
  cbn [B_norm nquad_calls]; rewrite <- app_assoc; reflexivity.
Qed.

Lemma component_returned (r phi z : np.ndarray R) (kn : R) (p : params)
    (w w1 : world) (B : field) :
  get_B_disk_cyl_component r phi z kn p w = (Ok B, w1) ->
  exists N,
    dict_get (B_norm w1) kn = Some N
    /\ B = scale N (get_B_disk_cyl_unnormalized r phi z kn p)
    /\ forall k' N', dict_get (B_norm w) k' = Some N' ->
                     dict_get (B_norm w1) k' = Some N'.
Proof.
  intros Hcall.
  destruct (component_cases r phi z kn p w)
    as [(N & Hget & E) | [(Hnone & N & HN & E) | (Hnone & e & He & E)]];
    rewrite E in Hcall; inversion Hcall; subst; clear Hcall.
  - exists N; repeat split; [exact Hget | tauto].
  - exists N; cbn [B_norm]; split; [apply dict_get_set_same|].
    split; [reflexivity|].
    intros k' N' Hk'.
    rewrite dict_get_set_other; [exact Hk'|].
    intros E'; rewrite E' in Hnone; congruence.
Qed.

Lemma loop_closed_form (r phi z : np.ndarray R) (p : params)
    (l : list (R * R)) :
  forall (i : nat) (A : field) (w w' : world) (acc' : option field),
    i <> 0%nat ->
    get_B_disk_cyl_loop r phi z p i l (Some A) w = (Ok acc', w') ->
    exists B,
      acc' = Some B
      /\ (forall k N, dict_get (B_norm w) k = Some N ->
                      dict_get (B_norm w') k = Some N)
      /\ (forall k, In k (map fst l) -> dict_get (B_norm w') k <> None)
      /\ forall j,
           np.item (B_1 B) j
           = superposition (fun t => fst (fst t)) w' p (np.item r j)
               (np.item phi j) (np.item z j) l (np.item (B_1 A) j)
           /\ np.item (B_2 B) j
              = superposition (fun t => snd (fst t)) w' p (np.item r j)
                  (np.item phi j) (np.item z j) l (np.item (B_2 A) j)
           /\ np.item (B_3 B) j
              = superposition snd w' p (np.item r j)
                  (np.item phi j) (np.item z j) l (np.item (B_3 A) j).
Proof.
  induction l as [| [kn Cn] l IH]; intros i A w w' acc' Hi Hrun.
  - inversion Hrun; subst.
    exists A; split; [reflexivity|]; split; [tauto|].
    split; [intros k []|].
    intros j; repeat split.
  - cbn [get_B_disk_cyl_loop] in Hrun; unfold bind in Hrun.
    replace (Nat.eqb i 0) with false in Hrun
      by (symmetry; apply Nat.eqb_neq; exact Hi).
    destruct (get_B_disk_cyl_component r phi z kn p w)
      as [[[[Bt1 Bt2] Bt3] | e] w1] eqn:Hcall; [|discriminate Hrun].
    destruct (component_returned _ _ _ _ _ _ _ _ Hcall) as (N & HN & HB & Hkeep).
    destruct A as [[A1 A2] A3].
    destruct (IH (S i) _ w1 w' acc' (Nat.neq_succ_0 i) Hrun)
      as (B & -> & Hkeep' & Hall & Hsum).
    exists B; split; [reflexivity|].
    split; [intros k N' Hk; apply Hkeep', Hkeep; exact Hk|].
    split.
    { intros k [<- | Hk]; [|apply Hall; exact Hk].
      cbn [fst]; rewrite (Hkeep' kn N HN); discriminate. }
    assert (Hcf : cached_factor w' kn = N).
    { unfold cached_factor; rewrite (Hkeep' kn N HN); reflexivity. }
    inversion HB; subst Bt1 Bt2 Bt3.
    intros j; destruct (Hsum j) as (H1 & H2 & H3).
    unfold superposition in *; cbn [fold_left fst snd].
    rewrite Hcf, H1, H2, H3.
    repeat split.
Qed.

Lemma disk_cyl_closed_form
    (r phi z : np.ndarray R) (p : params) (w w' : world) (B : field) :
  get_B_disk_cyl r phi z p w = (Ok B, w') ->
  (forall k N, dict_get (B_norm w) k = Some N ->
               dict_get (B_norm w') k = Some N)
  /\ (forall kn, In kn (map fst (combine (jn_zeros 1 (List.length (Cn_d p)))
                                   (Cn_d p))) ->
                 dict_get (B_norm w') kn <> None)
  /\ forall j,
       Rabs (np.item z j) <= 1 ->
       let modes := combine (jn_zeros 1 (List.length (Cn_d p))) (Cn_d p) in
       np.item (B_1 B) j
       = superposition (fun t => fst (fst t)) w' p (np.item r j)
           (np.item phi j) (np.item z j) modes 0
       /\ np.item (B_2 B) j
          = superposition (fun t => snd (fst t)) w' p (np.item r j)
              (np.item phi j) (np.item z j) modes 0
       /\ np.item (B_3 B) j
          = superposition snd w' p (np.item r j)
              (np.item phi j) (np.item z j) modes 0.
Proof.
  unfold get_B_disk_cyl, bind.
  destruct (combine (jn_zeros 1 (List.length (Cn_d p))) (Cn_d p))
    as [| [kn Cn] l] eqn:Hmodes.
  { cbn [get_B_disk_cyl_loop]; unfold ret, raise; discriminate. }
  cbn [get_B_disk_cyl_loop Nat.eqb]; unfold bind.
  destruct (get_B_disk_cyl_component r phi z kn p w)
    as [[[[Bt1 Bt2] Bt3] | e] w1] eqn:Hcall; [|discriminate].
  destruct (component_returned _ _ _ _ _ _ _ _ Hcall) as (N & HN & HB & Hkeep).
  destruct (get_B_disk_cyl_loop r phi z p 1 l _ w1) as [[acc' | e] w2] eqn:Hloop;
    [|discriminate].
  destruct (loop_closed_form r phi z p l 1 _ w1 w2 acc' (Nat.neq_succ_0 0) Hloop)
    as ([[B1 B2] B3] & -> & Hkeep' & Hall & Hsum).
  unfold ret; intros E; inversion E; subst; clear E.
  split; [intros k N' Hk; apply Hkeep', Hkeep; exact Hk|].
  split.
  { intros k [<- | Hk]; [|apply Hall; exact Hk].
    cbn [fst]; rewrite (Hkeep' kn N HN); discriminate. }
  intros j Hz; cbv zeta.
  assert (Hcf : cached_factor w' kn = N).
  { unfold cached_factor; rewrite (Hkeep' kn N HN); reflexivity. }
  inversion HB; subst Bt1 Bt2 Bt3.
  destruct (Hsum j) as (H1 & H2 & H3).
  unfold B_1, B_2, B_3 in *;
    cbn [fst snd np.item np.setitem_mask np.map np.map2 np.zeros_like] in *.
  unfold np.gtb.
  destruct (Rgt_dec (Rabs (np.item z j)) 1) as [Hgt | _]; [exfalso; lra|].
  unfold superposition in *; cbn [fold_left fst snd].
  rewrite Hcf, H1, H2, H3.
  repeat split.
Qed.

(** X9.  When [get_B_disk_cyl] returns, no factor that was cached has
    changed, every wavenumber of its modes is cached, and at every
    sample with [|z| <= 1] each component of the field is the sum over
    the modes [(kn, Cn)], in order, of [Cn] times the factor cached for
    [kn] times that component of the unnormalized field of [kn]. *)
Theorem disk_field_is_mode_superposition
    (r phi z : np.ndarray R) (p : params) (w w' : world) (B : field) :
  get_B_disk_cyl r phi z p w = (Ok B, w') ->
  (forall k N, dict_get (B_norm w) k = Some N ->
               dict_get (B_norm w') k = Some N)
  /\ (forall kn, In kn (map fst (combine (jn_zeros 1 (List.length (Cn_d p)))
                                   (Cn_d p))) ->
                 dict_get (B_norm w') kn <> None)
  /\ forall j,
       Rabs (np.item z j) <= 1 ->
       let modes := combine (jn_zeros 1 (List.length (Cn_d p))) (Cn_d p) in
       np.item (B_1 B) j
       = superposition (fun t => fst (fst t)) w' p (np.item r j)
           (np.item phi j) (np.item z j) modes 0
       /\ np.item (B_2 B) j
          = superposition (fun t => snd (fst t)) w' p (np.item r j)
              (np.item phi j) (np.item z j) modes 0
       /\ np.item (B_3 B) j
          = superposition snd w' p (np.item r j)
              (np.item phi j) (np.item z j) modes 0.
Proof. exact (disk_cyl_closed_form r phi z p w w' B). Qed.

Lemma disk_cyl_masked (r phi z : np.ndarray R) (p : params) (w w' : world)
    (B : field) :
  get_B_disk_cyl r phi z p w = (Ok B, w') ->
  forall j, Rabs (np.item z j) > 1 ->
    np.item (B_1 B) j = 0 /\ np.item (B_2 B) j = 0 /\ np.item (B_3 B) j = 0.
Proof.
  unfold get_B_disk_cyl, bind.
  destruct (get_B_disk_cyl_loop r phi z p 0
              (combine (jn_zeros 1 (List.length (Cn_d p))) (Cn_d p)) None w)
    as [[[[[Br Bphi] Bz] |] | e] w0]; unfold ret, raise;
    intros E; inversion E; subst; clear E.
  intros j Hz.
  unfold B_1, B_2, B_3; cbn [fst snd np.item np.setitem_mask np.map].
  unfold np.gtb.
  destruct (Rgt_dec (Rabs (np.item z j)) 1) as [_ | N]; [|contradiction].
  repeat split.
Qed.

Lemma superposition_null_terms (proj : R * R * R -> R) (w : world)
    (p : params) (r phi z : R) (modes : list (R * R)) (b : R) :
  (forall m, In m modes ->
     snd m = 0 \/ proj (get_B_disk_cyl_unnormalized_item r phi z (fst m) p) = 0) ->
  superposition proj w p r phi z modes b = b.
Proof.
  unfold superposition; revert b.
  induction modes as [| m modes IH]; intros b Hall; [reflexivity|].
  cbn [fold_left]; rewrite IH by (intros m' Hm'; apply Hall; right; exact Hm').
  destruct (Hall m (or_introl eq_refl)) as [-> | ->]; ring.
Qed.

(** X10.  With every coefficient of [Cn_d] equal to 0 and a negative
    dynamo number, the field [get_B_disk_cyl] returns is 0 at every
    sample, inside and outside the disk. *)
Theorem disk_field_zero_coefficients
    (r phi z : np.ndarray R) (p : params) (w w' : world) (B : field) :
  D_d p < 0 ->
  Forall (fun Cn => Cn = 0) (Cn_d p) ->
  get_B_disk_cyl r phi z p w = (Ok B, w') ->
  forall j,
    np.item (B_1 B) j = 0 /\ np.item (B_2 B) j = 0 /\ np.item (B_3 B) j = 0.
Proof.
  intros _ Hzero Hrun j.
  destruct (Rle_or_lt (Rabs (np.item z j)) 1) as [Hin | Hout].
  - destruct (disk_cyl_closed_form r phi z p w w' B Hrun)
      as (_ & _ & Hsum).
    destruct (Hsum j Hin) as (-> & -> & ->).
    assert (Hall : forall proj m,
              In m (combine (jn_zeros 1 (List.length (Cn_d p))) (Cn_d p)) ->
              snd m = 0
              \/ proj (get_B_disk_cyl_unnormalized_item (np.item r j)
                         (np.item phi j) (np.item z j) (fst m) p) = 0).
    { intros proj [kn Cn] Hm; left; cbn [snd].
      apply in_combine_r in Hm.
      rewrite Forall_forall in Hzero; apply Hzero; exact Hm. }
    rewrite (superposition_null_terms (fun t => fst (fst t)))
      by (intros m Hm; exact (Hall (fun t => fst (fst t)) m Hm)).
    rewrite (superposition_null_terms (fun t => snd (fst t)))
      by (intros m Hm; exact (Hall (fun t => snd (fst t)) m Hm)).
    rewrite (superposition_null_terms snd)
      by (intros m Hm; exact (Hall snd m Hm)).
    repeat split.
  - apply (disk_cyl_masked r phi z p w w' B Hrun j); lra.
Qed.

(** X11.  In exact arithmetic the horizontal components of the field
    that [get_B_disk_cyl] returns vanish on the surfaces [|z| = 1] of
    the disk, for every mode set and coefficients (negative dynamo
    number): [Br] and [Bphi] have no jump where the mask sets in. *)
Theorem disk_field_horizontal_zero_at_surface
    (r phi z : np.ndarray R) (p : params) (w w' : world) (B : field) :
  D_d p < 0 ->
  get_B_disk_cyl r phi z p w = (Ok B, w') ->
  forall j,
    Rabs (np.item z j) = 1 ->
    np.item (B_1 B) j = 0 /\ np.item (B_2 B) j = 0.
Proof.
  intros _ Hrun j Hz.
  destruct (disk_cyl_closed_form r phi z p w w' B Hrun)
    as (_ & _ & Hsum).
  destruct (Hsum j) as (-> & -> & _); [lra|].
  assert (Hz' : np.item z j = 1 \/ np.item z j = -1).
  { unfold Rabs in Hz; destruct (Rcase_abs (np.item z j)); [right | left]; lra. }
  split.
  - apply (superposition_null_terms (fun t => fst (fst t))); intros m _; right.
    exact (proj1 (unnormalized_horizontal_zero_at_surface _ _ _ _ _ Hz')).
  - apply (superposition_null_terms (fun t => snd (fst t))); intros m _; right.
    exact (proj2 (unnormalized_horizontal_zero_at_surface _ _ _ _ _ Hz')).
Qed.

Lemma component_on_other_arrays (r phi z r2 phi2 z2 : np.ndarray R) (kn : R)
    (p : params) (w w1 : world) (B : field) :
  get_B_disk_cyl_component r phi z kn p w = (Ok B, w1) ->
  exists B2, get_B_disk_cyl_component r2 phi2 z2 kn p w = (Ok B2, w1).
Proof.
  intros Hcall.
  destruct (component_cases r phi z kn p w)
    as [(N & Hget & E) | [(Hnone & N & HN & E) | (Hnone & e & He & E)]];
    rewrite E in Hcall; inversion Hcall; subst; clear Hcall.
  - eexists; apply component_cached; exact Hget.
  - eexists; apply component_fresh; assumption.
Qed.

Lemma loop_on_other_arrays (r phi z r2 phi2 z2 : np.ndarray R) (p : params)
    (l : list (R * R)) :
  forall (i : nat) (A A2 : field) (w w' : world) (acc' : option field),
    i <> 0%nat ->
    get_B_disk_cyl_loop r phi z p i l (Some A) w = (Ok acc', w') ->
    exists acc2,
      get_B_disk_cyl_loop r2 phi2 z2 p i l (Some A2) w = (Ok acc2, w').
Proof.
  induction l as [| [kn Cn] l IH]; intros i A A2 w w' acc' Hi Hrun.
  - inversion Hrun; subst; eexists; reflexivity.
  - cbn [get_B_disk_cyl_loop] in *; unfold bind in *.
    replace (Nat.eqb i 0) with false in *
      by (symmetry; apply Nat.eqb_neq; exact Hi).
    destruct (get_B_disk_cyl_component r phi z kn p w)
      as [[[[Bt1 Bt2] Bt3] | e] w1] eqn:Hcall; [|discriminate Hrun].
    destruct (component_on_other_arrays r phi z r2 phi2 z2 _ _ _ _ _ Hcall)
      as ([[Bu1 Bu2] Bu3] & ->).
    destruct A as [[A1 A2'] A3], A2 as [[C1 C2] C3].
    eapply IH; [apply Nat.neq_succ_0 | exact Hrun].
Qed.

(** The state in which [get_B_disk_cyl] ends does not depend on the
    arrays it is given. *)
Lemma disk_cyl_on_other_arrays (r phi z r2 phi2 z2 : np.ndarray R)
    (p : params) (w w' : world) (B : field) :
  get_B_disk_cyl r phi z p w = (Ok B, w') ->
  exists B2, get_B_disk_cyl r2 phi2 z2 p w = (Ok B2, w').
Proof.
  unfold get_B_disk_cyl, bind.
  destruct (combine (jn_zeros 1 (List.length (Cn_d p))) (Cn_d p))
    as [| [kn Cn] l].
  { cbn [get_B_disk_cyl_loop]; unfold ret, raise; discriminate. }
  cbn [get_B_disk_cyl_loop Nat.eqb]; unfold bind.
  destruct (get_B_disk_cyl_component r phi z kn p w)
    as [[[[Bt1 Bt2] Bt3] | e] w1] eqn:Hcall; [|discriminate].
  destruct (component_on_other_arrays r phi z r2 phi2 z2 _ _ _ _ _ Hcall)
    as ([[Bu1 Bu2] Bu3] & ->).
  destruct (get_B_disk_cyl_loop r phi z p 1 l _ w1) as [[acc' | e] w2] eqn:Hloop;
    [|discriminate].
  match goal with
  | |- context [get_B_disk_cyl_loop r2 phi2 z2 p 1 l (Some ?A2) w1] =>
      destruct (loop_on_other_arrays r phi z r2 phi2 z2 p l 1 _ A2 w1 w2 acc'
                  (Nat.neq_succ_0 0) Hloop) as (acc2 & Hloop2);
      destruct (get_B_disk_cyl_loop r2 phi2 z2 p 1 l (Some A2) w1)
        as [ra wa] eqn:X;
      assert (Hx : (ra, wa) = (Ok acc2, w2))
        by (rewrite <- X; exact Hloop2);
      inversion Hx; subst ra wa; clear Hx
  end.
  destruct (loop_closed_form r phi z p l 1 _ w1 w2 acc' (Nat.neq_succ_0 0) Hloop)
    as ([[B1 B2] B3] & -> & _).
  destruct (loop_closed_form r2 phi2 z2 p l 1 _ w1 w2 acc2 (Nat.neq_succ_0 0)
              Hloop2) as ([[D1 D2] D3] & E2 & _).
  rewrite E2 in *.
  unfold ret; intros E; inversion E; subst; eexists; reflexivity.
Qed.

Lemma superposition_mirror (w : world) (p : params) (r phi phi2 z : R)
    (modes : list (R * R)) (b : R) :
  superposition (fun t => fst (fst t)) w p r phi2 (- z) modes b
  = superposition (fun t => fst (fst t)) w p r phi z modes b
  /\ superposition (fun t => snd (fst t)) w p r phi2 (- z) modes b
     = superposition (fun t => snd (fst t)) w p r phi z modes b
  /\ superposition snd w p r phi2 (- z) modes (- b)
     = - superposition snd w p r phi z modes b.
Proof.
  unfold superposition; revert b.
  induction modes as [| m modes IH]; intros b.
  - repeat split.
  - cbn [fold_left].
    rewrite (unnormalized_mirror_symmetry r phi phi2 z (fst m) p);
      cbn [fst snd].
    destruct (IH (b + snd m * (cached_factor w (fst m)
                    * fst (fst (get_B_disk_cyl_unnormalized_item r phi z
                                  (fst m) p))))) as (H1 & _ & _).
    destruct (IH (b + snd m * (cached_factor w (fst m)
                    * snd (fst (get_B_disk_cyl_unnormalized_item r phi z
                                  (fst m) p))))) as (_ & H2 & _).
    destruct (IH (b + snd m * (cached_factor w (fst m)
                    * snd (get_B_disk_cyl_unnormalized_item r phi z
                             (fst m) p)))) as (_ & _ & H3).
    split; [exact H1|]; split; [exact H2|].
    rewrite <- H3; f_equal; ring.
Qed.

(** X12.  The disk field is symmetric about the midplane and does not
    depend on the azimuth: when [get_B_disk_cyl] returns on [(r, phi,
    z)], it returns on [(r, phi2, -z)] for any [phi2], ends in the same
    module state, and there [Br] and [Bphi] are the same and [Bz] is the
    opposite, at every sample (negative dynamo number). *)
Theorem disk_field_mirror_symmetry
    (r phi phi2 z : np.ndarray R) (p : params) (w w' : world) (B : field) :
  D_d p < 0 ->
  get_B_disk_cyl r phi z p w = (Ok B, w') ->
  exists B',
    get_B_disk_cyl r phi2 (np.map Ropp z) p w = (Ok B', w')
    /\ forall j,
         np.item (B_1 B') j = np.item (B_1 B) j
         /\ np.item (B_2 B') j = np.item (B_2 B) j
         /\ np.item (B_3 B') j = - np.item (B_3 B) j.
Proof.
  intros _ Hrun.
  destruct (disk_cyl_on_other_arrays r phi z r phi2 (np.map Ropp z) p w w' B
              Hrun) as (B' & Hrun').
  exists B'; split; [exact Hrun'|].
  intros j.
  assert (Habs : Rabs (np.item (np.map Ropp z) j) = Rabs (np.item z j))
    by (cbn [np.item np.map]; apply Rabs_Ropp).
  destruct (Rle_or_lt (Rabs (np.item z j)) 1) as [Hin | Hout].
  - destruct (disk_cyl_closed_form _ _ _ _ _ _ _ Hrun)
      as (_ & _ & Hsum).
    destruct (disk_cyl_closed_form _ _ _ _ _ _ _ Hrun')
      as (_ & _ & Hsum').
    destruct (Hsum j Hin) as (-> & -> & ->).
    destruct (Hsum' j) as (-> & -> & ->); [rewrite Habs; exact Hin|].
    cbn [np.item np.map].
    destruct (superposition_mirror w' p (np.item r j) (np.item phi j)
                (np.item phi2 j) (np.item z j)
                (combine (jn_zeros 1 (List.length (Cn_d p))) (Cn_d p)) 0)
      as (H1 & H2 & H3).
    split; [exact H1|]; split; [exact H2|].
    rewrite <- H3; f_equal; ring.
  - destruct (disk_cyl_masked _ _ _ _ _ _ _ Hrun j) as (-> & -> & ->); [lra|].
    destruct (disk_cyl_masked _ _ _ _ _ _ _ Hrun' j) as (-> & -> & ->);
      [rewrite Habs; lra|].
    repeat split; ring.
Qed.

Lemma get_B_disk_returned (r0 r1 r2 : np.ndarray R) (p : params)
    (w w' : world) (B : field) :
  get_B_disk (r0, r1, r2) p w = (Ok B, w') ->
  exists Br Bphi Bz,
    get_B_disk_cyl
      (np.map2 (fun x y => sqrt (x ^ 2 + y ^ 2))
         (np.map (fun v => v / R_d p) r0) (np.map (fun v => v / R_d p) r1))
      (np.map2 np.arctan2 (np.map (fun v => v / R_d p) r1)
         (np.map (fun v => v / R_d p) r0))
      (np.map (fun v => v / h_d p) r2) p w = (Ok (Br, Bphi, Bz), w')
    /\ forall j,
         let phi := np.arctan2 (np.item r1 j / R_d p) (np.item r0 j / R_d p) in
         np.item (B_1 B) j
         = np.item Br j * cos phi - np.item Bphi j * sin phi
         /\ np.item (B_2 B) j
            = np.item Br j * sin phi + np.item Bphi j * cos phi
         /\ np.item (B_3 B) j = np.item Bz j.
Proof.
  unfold get_B_disk, bind.
  destruct (get_B_disk_cyl _ _ _ p w) as [[[[Br Bphi] Bz] | e] w1];
    [|discriminate].
  unfold ret; intros E; inversion E; subst; clear E.
  exists Br, Bphi, Bz; split; [reflexivity|].
  intros j; repeat split.
Qed.

(** X13.  When [get_B_disk] returns, for non-zero [R_d] and [h_d], the
    three cartesian components of the field are 0 at every position
    whose height exceeds the scale height, [|z| > |h_d|]. *)
Theorem get_B_disk_zero_outside
    (r0 r1 r2 : np.ndarray R) (p : params) (w w' : world) (B : field) :
  get_B_disk (r0, r1, r2) p w = (Ok B, w') ->
  R_d p <> 0 -> h_d p <> 0 ->
  forall j,
    Rabs (np.item r2 j) > Rabs (h_d p) ->
    np.item (B_1 B) j = 0 /\ np.item (B_2 B) j = 0 /\ np.item (B_3 B) j = 0.
Proof.
  intros Hrun _ Hh j Hz.
  destruct (get_B_disk_returned _ _ _ _ _ _ _ Hrun)
    as (Br & Bphi & Bz & Hcyl & Hrot).
  destruct (Hrot j) as (-> & -> & ->).
  destruct (disk_cyl_masked _ _ _ _ _ _ _ Hcyl j) as (H1 & H2 & H3).
  - cbn [np.item np.map].
    unfold Rdiv; rewrite Rabs_mult, Rabs_inv.
    assert (Hpos : 0 < Rabs (h_d p)) by (apply Rabs_pos_lt; exact Hh).
    apply Rlt_gt, Rmult_lt_reg_r with (Rabs (h_d p)); [exact Hpos|].
    rewrite Rmult_assoc, Rinv_l by lra; lra.
  - unfold B_1, B_2, B_3 in *; cbn [fst snd] in *.
    rewrite H1, H2, H3; repeat split; ring.
Qed.

(** X14.  When [get_B_disk] returns, for non-zero [R_d] and [h_d], its
    result is the field of [get_B_disk_cyl] on the dimensionless
    cylindrical coordinates, turned to cartesian axes: [Bz] is kept, the
    horizontal norm is kept, [Bx^2 + By^2 = Br^2 + Bphi^2], and
    projecting [(Bx, By)] on the horizontal position and on its normal
    gives [Br] and [Bphi] back, times the cylindrical radius. *)
Theorem get_B_disk_is_a_rotation
    (r0 r1 r2 : np.ndarray R) (p : params) (w w' : world) (B : field) :
  get_B_disk (r0, r1, r2) p w = (Ok B, w') ->
  R_d p <> 0 -> h_d p <> 0 ->
  exists Br Bphi Bz,
    get_B_disk_cyl
      (np.map2 (fun x y => sqrt (x ^ 2 + y ^ 2))
         (np.map (fun v => v / R_d p) r0) (np.map (fun v => v / R_d p) r1))
      (np.map2 np.arctan2 (np.map (fun v => v / R_d p) r1)
         (np.map (fun v => v / R_d p) r0))
      (np.map (fun v => v / h_d p) r2) p w = (Ok (Br, Bphi, Bz), w')
    /\ forall j,
         let x := np.item r0 j / R_d p in
         let y := np.item r1 j / R_d p in
         np.item (B_3 B) j = np.item Bz j
         /\ np.item (B_1 B) j * np.item (B_1 B) j
            + np.item (B_2 B) j * np.item (B_2 B) j
            = np.item Br j * np.item Br j + np.item Bphi j * np.item Bphi j
         /\ np.item (B_1 B) j * x + np.item (B_2 B) j * y
            = np.item Br j * sqrt (x ^ 2 + y ^ 2)
         /\ np.item (B_2 B) j * x - np.item (B_1 B) j * y
            = np.item Bphi j * sqrt (x ^ 2 + y ^ 2).
Proof.
  intros Hrun _ _.
  destruct (get_B_disk_returned _ _ _ _ _ _ _ Hrun)
    as (Br & Bphi & Bz & Hcyl & Hrot).
  exists Br, Bphi, Bz; split; [exact Hcyl|].
  intros j x y.
  destruct (Hrot j) as (-> & -> & ->); fold x y.
  destruct (arctan2_polar x y) as [Hx Hy].
  replace (Grid.sqr x + Grid.sqr y) with (x ^ 2 + y ^ 2) in Hx, Hy
    by (unfold Grid.sqr; ring).
  generalize (sin2_cos2 (np.arctan2 y x)); unfold Rsqr; intros Hsc.
  set (c := cos (np.arctan2 y x)) in *; set (s := sin (np.arctan2 y x)) in *.
  set (rho := sqrt (x ^ 2 + y ^ 2)) in *.
  split; [reflexivity|].
  split; [nra|].
  rewrite <- Hx at 1; rewrite <- Hy at 1.
  split.
  - replace ((np.item Br j * c - np.item Bphi j * s) * (rho * c)
             + (np.item Br j * s + np.item Bphi j * c) * (rho * s))
      with (np.item Br j * rho * (s * s + c * c)) by ring.
    rewrite Hsc; ring.
  - rewrite <- Hx at 1; rewrite <- Hy at 1.
    replace ((np.item Br j * s + np.item Bphi j * c) * (rho * c)
             - (np.item Br j * c - np.item Bphi j * s) * (rho * s))
      with (np.item Bphi j * rho * (s * s + c * c)) by ring.
    rewrite Hsc; ring.
Qed.

End DiskMore.

(** ** Halo modes: dispatch, decay outside the sphere, parity *)

Section HaloMore.

Import halo_free_decay_modes HaloSpec.
Context `{SciPy}.

Lemma Rpower_base_1 (y : R) : Rpower 1 y = 1.
Proof. unfold Rpower; rewrite ln_1, Rmult_0_r; apply exp_0. Qed.

Ltac outside_unit_sphere :=
  intros Hr; cbn [fst snd powerRZ];
  destruct (Rle_dec 1 1) as [_ | N]; [|exfalso; apply N; lra];
  match goal with
  | |- context [Rle_dec ?r 1] =>
      destruct (Rle_dec r 1) as [L | _]; [exfalso; lra|]
  end;
  rewrite Rpower_base_1, Rmult_1_r;
  simpl pow; field; lra.

Lemma items_outside_unit_sphere (C k r theta theta' phi phi' : R) :
  1 < r -> theta = theta' ->
  fst (fst (get_B_a_1_item C k r theta phi))
  = fst (fst (get_B_a_1_item C k 1 theta' phi')) / r ^ 3
  /\ fst (fst (get_B_a_2_item C k r theta phi))
     = fst (fst (get_B_a_2_item C k 1 theta' phi')) / r ^ 5
  /\ snd (get_B_a_3_item C k r theta phi)
     = snd (get_B_a_3_item C k 1 theta' phi') / r ^ 3
  /\ fst (fst (get_B_s_1_item C k r theta phi))
     = fst (fst (get_B_s_1_item C k 1 theta' phi')) / r ^ 4
  /\ snd (get_B_s_2_item C k r theta phi)
     = snd (get_B_s_2_item C k 1 theta' phi') / r ^ 2
  /\ fst (fst (get_B_s_3_item C k r theta phi))
     = fst (fst (get_B_s_3_item C k 1 theta' phi')) / r ^ 6
  /\ snd (get_B_s_4_item C k r theta phi)
     = snd (get_B_s_4_item C k 1 theta' phi') / r ^ 4.
Proof.
  unfold get_B_a_1_item, get_B_a_2_item, get_B_a_3_item, get_B_s_1_item,
    get_B_s_2_item, get_B_s_3_item, get_B_s_4_item, pow_int.
  intros Hr <-; repeat split; revert Hr; outside_unit_sphere.
Qed.

(** X16.  Outside the unit sphere each mode decays as a power of [r]
    from its value on the sphere: for [r > 1] and the same polar angle,
    the radial component of the poloidal modes and the azimuthal
    component of the toroidal modes are their value at [r = 1] divided
    by [r^3] (a_1, a_3, a_4), [r^5] (a_2), [r^4] (s_1, s_4), [r^2]
    (s_2) and [r^6] (s_3), for every [C] and [k]; so these components
    are continuous across [r = 1]. *)
Theorem exterior_decays_from_boundary_value (C k : R) :
  decays_from_boundary B_1 (get_B_a_1 C k) 3
  /\ decays_from_boundary B_1 (get_B_a_2 C k) 5
  /\ decays_from_boundary B_3 (get_B_a_3 C k) 3
  /\ decays_from_boundary B_1 (get_B_a_4 C k) 3
  /\ decays_from_boundary B_1 (get_B_s_1 C k) 4
  /\ decays_from_boundary B_3 (get_B_s_2 C k) 2
  /\ decays_from_boundary B_1 (get_B_s_3 C k) 6
  /\ decays_from_boundary B_3 (get_B_s_4 C k) 4.
Proof.
  repeat split; intros r theta phi i j Hi Hj Ht;
    destruct (items_outside_unit_sphere C k (np.item r j) (np.item theta j)
                (np.item theta i) (np.item phi j) (np.item phi i) Hj Ht)
      as (H1 & H2 & H3 & H4 & H5 & H6 & H7);
    rewrite <- Hi in H1, H2, H3, H4, H5, H6, H7.
  - exact H1.
  - exact H2.
  - exact H3.
  - exact H1.
  - exact H4.
  - exact H5.
  - exact H6.
  - exact H7.
Qed.

Lemma cos_double_reflected (t : R) : cos (2 * (PI - t)) = cos (2 * t).
Proof.
  rewrite !cos_2a, Rtrigo_facts.cos_pi_minus, Rtrigo_facts.sin_pi_minus; ring.
Qed.

Lemma items_reflected (C k r theta phi phi' : R) :
  (get_B_a_1_item C k r (PI - theta) phi'
   = (- fst (fst (get_B_a_1_item C k r theta phi)),
      snd (fst (get_B_a_1_item C k r theta phi)),
      - snd (get_B_a_1_item C k r theta phi)))
  /\ (get_B_a_2_item C k r (PI - theta) phi'
      = (- fst (fst (get_B_a_2_item C k r theta phi)),
         snd (fst (get_B_a_2_item C k r theta phi)),
         - snd (get_B_a_2_item C k r theta phi)))
  /\ (get_B_a_3_item C k r (PI - theta) phi'
      = (- fst (fst (get_B_a_3_item C k r theta phi)),
         snd (fst (get_B_a_3_item C k r theta phi)),
         - snd (get_B_a_3_item C k r theta phi)))
  /\ (get_B_s_1_item C k r (PI - theta) phi'
      = (fst (fst (get_B_s_1_item C k r theta phi)),
         - snd (fst (get_B_s_1_item C k r theta phi)),
         snd (get_B_s_1_item C k r theta phi)))
  /\ (get_B_s_2_item C k r (PI - theta) phi'
      = (fst (fst (get_B_s_2_item C k r theta phi)),
         - snd (fst (get_B_s_2_item C k r theta phi)),
         snd (get_B_s_2_item C k r theta phi)))
  /\ (get_B_s_3_item C k r (PI - theta) phi'
      = (fst (fst (get_B_s_3_item C k r theta phi)),
         - snd (fst (get_B_s_3_item C k r theta phi)),
         snd (get_B_s_3_item C k r theta phi)))
  /\ (get_B_s_4_item C k r (PI - theta) phi'
      = (fst (fst (get_B_s_4_item C k r theta phi)),
         - snd (fst (get_B_s_4_item C k r theta phi)),
         snd (get_B_s_4_item C k r theta phi))).
Proof.
  unfold get_B_a_1_item, get_B_a_2_item, get_B_a_3_item, get_B_s_1_item,
    get_B_s_2_item, get_B_s_3_item, get_B_s_4_item; cbn [fst snd].
  rewrite cos_double_reflected, Rtrigo_facts.cos_pi_minus,
    Rtrigo_facts.sin_pi_minus.
  repeat split; f_equal; try (f_equal); unfold Rdiv; ring.
Qed.

Lemma reflects_of_items (s1 s2 s3 : R) (f : R -> R -> R -> R * R * R) :
  (forall r theta phi phi',
     f r (PI - theta) phi'
     = (s1 * fst (fst (f r theta phi)), s2 * snd (fst (f r theta phi)),
        s3 * snd (f r theta phi))) ->
  reflects_with s1 s2 s3 (itemwise f).
Proof.
  intros Hf r theta theta' phi phi' i Ht.
  unfold itemwise, B_1, B_2, B_3; cbn [fst snd np.item np.map np.map3].
  rewrite Ht, (Hf _ _ (np.item phi i) (np.item phi' i)).
  repeat split.
Qed.

(** X17.  Under the reflection [theta -> pi - theta] across the equator
    (at any azimuth), the four modes of the antisymmetric table change
    the sign of [Br] and [Bphi] and keep [Btheta]; the four modes of
    the symmetric table keep [Br] and [Bphi] and change the sign of
    [Btheta]; for every [C] and [k]. *)
Theorem modes_reflect_across_the_equator :
  (forall C k, reflects_with (-1) 1 (-1) (get_B_a_1 C k))
  /\ (forall C k, reflects_with (-1) 1 (-1) (get_B_a_2 C k))
  /\ (forall C k, reflects_with (-1) 1 (-1) (get_B_a_3 C k))
  /\ (forall C k, reflects_with (-1) 1 (-1) (get_B_a_4 C k))
  /\ (forall C k, reflects_with 1 (-1) 1 (get_B_s_1 C k))
  /\ (forall C k, reflects_with 1 (-1) 1 (get_B_s_2 C k))
  /\ (forall C k, reflects_with 1 (-1) 1 (get_B_s_3 C k))
  /\ (forall C k, reflects_with 1 (-1) 1 (get_B_s_4 C k))
  /\ Forall (reflects_with 1 (-1) 1) symmetric_modes_list
  /\ Forall (reflects_with (-1) 1 (-1)) antisymmetric_modes_list.
Proof.
  assert (A1 : forall C k, reflects_with (-1) 1 (-1) (get_B_a_1 C k)).
  { intros C k; apply reflects_of_items; intros r theta phi phi'.
    destruct (items_reflected C k r theta phi phi') as (-> & _).
    f_equal; [f_equal|]; ring. }
  assert (A2 : forall C k, reflects_with (-1) 1 (-1) (get_B_a_2 C k)).
  { intros C k; apply reflects_of_items; intros r theta phi phi'.
    destruct (items_reflected C k r theta phi phi') as (_ & -> & _).
    f_equal; [f_equal|]; ring. }
  assert (A3 : forall C k, reflects_with (-1) 1 (-1) (get_B_a_3 C k)).
  { intros C k; apply reflects_of_items; intros r theta phi phi'.
    destruct (items_reflected C k r theta phi phi') as (_ & _ & -> & _).
    f_equal; [f_equal|]; ring. }
  assert (S1 : forall C k, reflects_with 1 (-1) 1 (get_B_s_1 C k)).
  { intros C k; apply reflects_of_items; intros r theta phi phi'.
    destruct (items_reflected C k r theta phi phi') as (_ & _ & _ & -> & _).
    f_equal; [f_equal|]; ring. }
  assert (S2 : forall C k, reflects_with 1 (-1) 1 (get_B_s_2 C k)).
  { intros C k; apply reflects_of_items; intros r theta phi phi'.
    destruct (items_reflected C k r theta phi phi')
      as (_ & _ & _ & _ & -> & _).
    f_equal; [f_equal|]; ring. }
  assert (S3 : forall C k, reflects_with 1 (-1) 1 (get_B_s_3 C k)).
  { intros C k; apply reflects_of_items; intros r theta phi phi'.
    destruct (items_reflected C k r theta phi phi')
      as (_ & _ & _ & _ & _ & -> & _).
    f_equal; [f_equal|]; ring. }
  assert (S4 : forall C k, reflects_with 1 (-1) 1 (get_B_s_4 C k)).
  { intros C k; apply reflects_of_items; intros r theta phi phi'.
    destruct (items_reflected C k r theta phi phi')
      as (_ & _ & _ & _ & _ & _ & ->).
    f_equal; [f_equal|]; ring. }
  split; [exact A1|]; split; [exact A2|]; split; [exact A3|].
  split; [exact A1|].
  split; [exact S1|]; split; [exact S2|]; split; [exact S3|].
  split; [exact S4|].
  split.
  - unfold symmetric_modes_list.
    repeat (apply Forall_cons; [first [apply S1 | apply S2 | apply S3 | apply S4]|]).
    apply Forall_nil.
  - unfold antisymmetric_modes_list.
    repeat (apply Forall_cons; [first [apply A1 | apply A2 | apply A3]|]).
    apply Forall_nil.
Qed.

(** X15.  For the mode indices 1 to 4 [get_mode] returns the field of
    the mode of that rank in the table of the requested symmetry, with
    the default constants; the fourth antisymmetric mode is the formula
    of the first with [C = 0.244] and [k = 2 pi].  [get_mode] returns a
    field exactly for the indices from -3 to 4. *)
Theorem get_mode_dispatch (r theta phi : np.ndarray R) :
  get_mode r theta phi 1 true = Ok (s_1 r theta phi)
  /\ get_mode r theta phi 2 true = Ok (s_2 r theta phi)
  /\ get_mode r theta phi 3 true = Ok (s_3 r theta phi)
  /\ get_mode r theta phi 4 true = Ok (s_4 r theta phi)
  /\ get_mode r theta phi 1 false = Ok (a_1 r theta phi)
  /\ get_mode r theta phi 2 false = Ok (a_2 r theta phi)
  /\ get_mode r theta phi 3 false = Ok (a_3 r theta phi)
  /\ get_mode r theta phi 4 false = Ok (get_B_a_1 0.244 (2 * PI) r theta phi)
  /\ forall n_mode symmetric,
       (exists B, get_mode r theta phi n_mode symmetric = Ok B)
       <-> (-3 <= n_mode <= 4)%Z.
Proof.
  repeat (split; [reflexivity|]).
  intros n sym; split.
  - intros [B HB].
    destruct (Z_lt_le_dec 4 n) as [Hhi | Hhi].
    { unfold get_mode in HB.
      replace (n >? 4)%Z with true in HB
        by (symmetry; apply Z.gtb_lt; exact Hhi).
      discriminate HB. }
    destruct (Z_lt_le_dec n (-3)) as [Hlo | Hlo]; [|lia].
    exfalso; unfold get_mode in HB.
    replace (n >? 4)%Z with false in HB
      by (symmetry; rewrite Z.gtb_ltb; apply Z.ltb_ge; lia).
    unfold symmetric_modes_list, antisymmetric_modes_list in HB.
    rewrite !getitem_wraps in HB by lia.
    replace (n =? 0)%Z with false in HB by (symmetry; apply Z.eqb_neq; lia).
    replace (n =? -1)%Z with false in HB by (symmetry; apply Z.eqb_neq; lia).
    replace (n =? -2)%Z with false in HB by (symmetry; apply Z.eqb_neq; lia).
    replace (n =? -3)%Z with false in HB by (symmetry; apply Z.eqb_neq; lia).
    destruct sym; discriminate HB.
  - intros Hn.
    assert (Hcases : n = (-3)%Z \/ n = (-2)%Z \/ n = (-1)%Z \/ n = 0%Z
                     \/ n = 1%Z \/ n = 2%Z \/ n = 3%Z \/ n = 4%Z) by lia.
    destruct Hcases as [-> | [-> | [-> | [-> | [-> | [-> | [-> | ->]]]]]]];
      destruct sym; eexists; reflexivity.
Qed.

Lemma Rpower_neg_half (x : R) : 0 < x -> Rpower x (-0.5) = / sqrt x.
Proof.
  intros Hx.
  replace (-0.5) with (- / 2) by lra.
  rewrite Rpower_Ropp, Rpower_sqrt by exact Hx; reflexivity.
Qed.

Lemma j_three_halves_PI : j_three_halves PI = sqrt 2 / PI.
Proof.
  unfold j_three_halves.
  rewrite sin_PI, cos_PI.
  rewrite sqrt_div_alt by (apply Rmult_lt_0_compat; apply PI_RGT_0).
  rewrite sqrt_square by (left; apply PI_RGT_0).
  field; apply PI_neq0.
Qed.

Lemma j_three_halves_2PI : j_three_halves (2 * PI) = - / PI.
Proof.
  unfold j_three_halves.
  rewrite sin_2PI, cos_2PI.
  replace (2 / (PI * (2 * PI))) with (/ PI * / PI) by (field; apply PI_neq0).
  rewrite sqrt_square by (left; apply Rinv_0_lt_compat, PI_RGT_0).
  field; apply PI_neq0.
Qed.


Lemma a_1_X_interior_PI :
  sqrt (2 / PI) * ((PI * 1) ^ 2 * sin (PI * 1) - sin (PI * 1)
                   + PI * 1 * cos (PI * 1))
  / (Rpower PI (-0.5) * (PI * 1) ^ 2)
  = - (sqrt 2 / PI).
Proof.
  generalize PI_RGT_0; intros Hpi.
  rewrite Rmult_1_r, sin_PI, cos_PI, Rpower_neg_half by exact Hpi.
  rewrite sqrt_div_alt by exact Hpi.
  assert (Hs : 0 < sqrt PI) by (apply sqrt_lt_R0; exact Hpi).
  field; split; lra.
Qed.

Lemma a_4_X_interior_2PI :
  sqrt (2 / PI) * ((2 * PI * 1) ^ 2 * sin (2 * PI * 1) - sin (2 * PI * 1)
                   + 2 * PI * 1 * cos (2 * PI * 1))
  / (Rpower (2 * PI) (-0.5) * (2 * PI * 1) ^ 2)
  = / PI.
Proof.
  generalize PI_RGT_0; intros Hpi.
  rewrite Rmult_1_r, sin_2PI, cos_2PI, Rpower_neg_half by lra.
  assert (Hs : 0 < sqrt (2 * PI)) by (apply sqrt_lt_R0; lra).
  assert (Hprod : sqrt (2 / PI) * sqrt (2 * PI) = 2).
  { rewrite <- sqrt_mult by (try lra; apply Rlt_le, Rdiv_lt_0_compat; lra).
    replace (2 / PI * (2 * PI)) with (2 * 2) by (field; lra).
    apply sqrt_square; lra. }
  replace (sqrt (2 / PI) * ((2 * PI) ^ 2 * 0 - 0 + 2 * PI * 1)
           / (/ sqrt (2 * PI) * (2 * PI) ^ 2))
    with (sqrt (2 / PI) * sqrt (2 * PI) / (2 * PI)) by (field; split; lra).
  rewrite Hprod; field; lra.
Qed.

(** X18.  When [jv] has the values of the Bessel function of order 3/2
    at [pi] and [2 pi], the polar component of the first and of the
    fourth antisymmetric mode (default constants) is, for [r > 1], its
    value at [r = 1] divided by [r^3]: the interior expression of
    [d(rQ)/dr] at the boundary is the coefficient of the exterior
    branch, and [Btheta] is continuous across [r = 1]. *)
Theorem a_1_a_4_polar_component_continues (r theta phi : np.ndarray R)
    (i j : np.index) :
  jv (3 / 2) PI = j_three_halves PI ->
  jv (3 / 2) (2 * PI) = j_three_halves (2 * PI) ->
  np.item r i = 1 -> 1 < np.item r j ->
  np.item theta j = np.item theta i ->
  np.item (B_2 (a_1 r theta phi)) j
  = np.item (B_2 (a_1 r theta phi)) i / np.item r j ^ 3
  /\ np.item (B_2 (a_4 r theta phi)) j
     = np.item (B_2 (a_4 r theta phi)) i / np.item r j ^ 3.
Proof.
  intros HJ1 HJ4 Hi Hj Ht.
  assert (E1 : forall q, np.item (B_2 (a_1 r theta phi)) q
                 = snd (fst (get_B_a_1_item 0.346 PI (np.item r q)
                               (np.item theta q) (np.item phi q))))
    by reflexivity.
  assert (E4 : forall q, np.item (B_2 (a_4 r theta phi)) q
                 = snd (fst (get_B_a_1_item 0.244 (2 * PI) (np.item r q)
                               (np.item theta q) (np.item phi q))))
    by reflexivity.
  rewrite !E1, !E4, Hi, Ht.
  unfold get_B_a_1_item, pow_int; cbn [fst snd powerRZ].
  destruct (Rle_dec 1 1) as [_ | N]; [|exfalso; apply N; lra].
  destruct (Rle_dec (np.item r j) 1) as [L | _]; [exfalso; lra|].
  rewrite a_1_X_interior_PI, a_4_X_interior_2PI, HJ1, HJ4,
    j_three_halves_PI, j_three_halves_2PI.
  generalize PI_RGT_0; intros Hpi.
  simpl pow; split; field; lra.
Qed.

End HaloMore.

(** ** Runs of the further properties *)

Section MoreRuns.

Import GridSpec disk DiskSpec DiskSum.

Lemma cube_grid_coordinates :
  exists c,
    Grid.coordinates (fresh cube (3, 3, 3)%Z "cartesian")
    = (Ok c, Grid.mk_Grid cube (3, 3, 3)%Z "cartesian" (Some c) None).
Proof.
  assert (Hres : positive_resolution (3, 3, 3)%Z) by (simpl; lia).
  destruct (bundle_items (-1, 1) (-1, 1) (-1, 1) 3 3 3 "cartesian" Hres
              (or_introl eq_refl)) as (c & Hc & _).
  exists c; apply coordinates_of_generate; exact Hc.
Qed.

Lemma coordinates_cached_witness :
  exists c g',
    Grid.coordinates (fresh cube (3, 3, 3)%Z "cartesian") = (Ok c, g')
    /\ Grid.coordinates g' = (Ok c, g')
    /\ Grid.r_spherical g' = (Ok (Grid.c_r_spherical c), g').
Proof.
  destruct cube_grid_coordinates as (c & Hc).
  destruct (coordinates_cached _ _ _ Hc)
    as (_ & _ & _ & _ & Hagain & _ & _ & _ & Hrs & _).
  exists c; eexists; split; [exact Hc|]; split; [exact Hagain | exact Hrs].
Defined.

Lemma grid_arrays_have_the_resolution_shape_witness :
  positive_resolution (3, 3, 3)%Z /\ Grid.valid_grid_type "spherical"
  /\ exists c g',
       Grid.coordinates (fresh cube (3, 3, 3)%Z "spherical") = (Ok c, g')
       /\ np.shape (Grid.c_theta c) = (3, 3, 3)%nat.
Proof.
  assert (Hres : positive_resolution (3, 3, 3)%Z) by (simpl; lia).
  assert (Hgt : Grid.valid_grid_type "spherical") by (right; left; reflexivity).
  split; [exact Hres|]; split; [exact Hgt|].
  destruct (grid_arrays_have_the_resolution_shape cube 3 3 3 "spherical"
              Hres Hgt) as (c & g' & Hc & _ & _ & _ & _ & _ & Hth & _).
  exists c, g'; split; [exact Hc | exact Hth].
Defined.

Lemma grid_axes_evenly_spaced_witness :
  positive_resolution (3, 3, 3)%Z /\ Grid.valid_grid_type "cartesian"
  /\ exists c,
       Grid._generate_coordinates (fresh cube (3, 3, 3)%Z "cartesian") = Ok c
       /\ evenly_spaced (-1) 1 3 (fun i => np.item (Grid.c_x c) (i, 0, 0)%nat).
Proof.
  assert (Hres : positive_resolution (3, 3, 3)%Z) by (simpl; lia).
  assert (Hgt : Grid.valid_grid_type "cartesian") by (left; reflexivity).
  split; [exact Hres|]; split; [exact Hgt|].
  destruct (grid_axes_evenly_spaced (-1, 1) (-1, 1) (-1, 1) 3 3 3 "cartesian"
              Hres Hgt) as (c & Hc & Hax).
  exists c; split; [exact Hc|].
  destruct (Hax 0%nat 0%nat 0%nat) as (Hcart & _).
  exact (proj1 (Hcart eq_refl)).
Defined.

Lemma grid_polar_round_trip_witness :
  positive_resolution (3, 3, 3)%Z /\ Grid.valid_grid_type "cartesian"
  /\ exists c g',
       Grid.coordinates (fresh cube (3, 3, 3)%Z "cartesian") = (Ok c, g')
       /\ np.item (Grid.c_x c) (0, 2, 1)%nat
          = np.item (Grid.c_r_cylindrical c) (0, 2, 1)%nat
            * cos (np.item (Grid.c_phi c) (0, 2, 1)%nat).
Proof.
  assert (Hres : positive_resolution (3, 3, 3)%Z) by (simpl; lia).
  assert (Hgt : Grid.valid_grid_type "cartesian") by (left; reflexivity).
  split; [exact Hres|]; split; [exact Hgt|].
  destruct (grid_polar_round_trip cube (3, 3, 3)%Z "cartesian" Hres Hgt)
    as (c & g' & Hc & Hrt).
  exists c, g'; split; [exact Hc | exact (proj1 (Hrt (0, 2, 1)%nat))].
Defined.

Lemma grid_coordinate_ranges_witness :
  positive_resolution (3, 3, 3)%Z
  /\ exists c g',
       Grid.coordinates (fresh cube (3, 3, 3)%Z "cylindrical") = (Ok c, g')
       /\ Rabs (np.item (Grid.c_r_cylindrical c) (0, 0, 0)%nat)
          <= np.item (Grid.c_r_spherical c) (0, 0, 0)%nat.
Proof.
  assert (Hres : positive_resolution (3, 3, 3)%Z) by (simpl; lia).
  split; [exact Hres|].
  destruct (grid_coordinate_ranges cube (3, 3, 3)%Z "cylindrical" Hres
              (or_intror eq_refl)) as (c & g' & Hc & Hr).
  exists c, g'; split; [exact Hc|].
  exact (proj1 (proj2 (Hr (0, 0, 0)%nat))).
Defined.

Lemma grid_ratio_properties_witness :
  positive_resolution (3, 3, 3)%Z /\ Grid.valid_grid_type "cartesian"
  /\ exists c g' st,
       Grid.coordinates (fresh cube (3, 3, 3)%Z "cartesian") = (Ok c, g')
       /\ Grid.sin_theta (fresh cube (3, 3, 3)%Z "cartesian") = (Ok st, g')
       /\ (np.item (Grid.c_r_spherical c) (1, 1, 1)%nat = 0 ->
           np.item st (1, 1, 1)%nat = None).
Proof.
  assert (Hres : positive_resolution (3, 3, 3)%Z) by (simpl; lia).
  assert (Hgt : Grid.valid_grid_type "cartesian") by (left; reflexivity).
  split; [exact Hres|]; split; [exact Hgt|].
  destruct (grid_ratio_properties cube (3, 3, 3)%Z "cartesian" Hres Hgt)
    as (c & g' & st & ct & sp & cp & Hc & Hst & _ & _ & _ & Hit).
  exists c, g', st; split; [exact Hc|]; split; [exact Hst|].
  intros Hz; exact (proj1 (proj1 (proj2 (Hit (1, 1, 1)%nat)) Hz)).
Defined.

Lemma grid_generation_needs_non_negative_resolution_witness :
  (-1 < 0)%Z /\ (0 <= 0 /\ 0 <= 3 /\ 0 <= 3)%Z
  /\ Grid.valid_grid_type "cartesian"
  /\ Grid.coordinates (fresh cube (-1, 3, 3)%Z "cartesian")
     = (Raise ValueError, fresh cube (-1, 3, 3)%Z "cartesian")
  /\ exists c,
       Grid.coordinates (fresh cube (0, 3, 3)%Z "cartesian")
       = (Ok c, Grid.mk_Grid cube (0, 3, 3)%Z "cartesian" (Some c) None)
       /\ np.shape (Grid.c_x c) = (0, 3, 3)%nat.
Proof.
  assert (Hneg : (-1 < 0)%Z) by lia.
  assert (Hnn : (0 <= 0 /\ 0 <= 3 /\ 0 <= 3)%Z) by lia.
  assert (Hgt : Grid.valid_grid_type "cartesian") by (left; reflexivity).
  split; [exact Hneg|]; split; [exact Hnn|]; split; [exact Hgt|].
  split.
  - exact (proj2 (proj1 (grid_generation_needs_non_negative_resolution
                           cube (-1) 3 3 "cartesian") (or_introl Hneg))).
  - exact (proj2 (grid_generation_needs_non_negative_resolution
                    cube 0 3 3 "cartesian") Hnn Hgt).
Defined.

(** A run of [get_B_disk_cyl] on the stand-in, with one mode and no
    induction term. *)
Lemma sample_disk_cyl_run (r phi z : np.ndarray R) (D C : R) :
  D < 0 ->
  exists B w',
    @get_B_disk_cyl sample_scipy r phi z (mk_params 0 D 1 [C] 1) initial_world
    = (Ok B, w').
Proof.
  intros HD.
  apply (@get_B_disk_cyl_returns sample_scipy).
  - cbn [Cn_d List.length jn_zeros sample_scipy firstn combine]; discriminate.
  - cbn [Cn_d List.length jn_zeros sample_scipy firstn].
    intros kn [<- | []].
    eexists.
    exact (sample_normalization 3.8317 D HD ltac:(lra)).
Qed.

Lemma sample_disk_run (r0 r1 r2 : np.ndarray R) (D : R) :
  D < 0 ->
  exists B w',
    @get_B_disk sample_scipy (r0, r1, r2) (sample_params D) initial_world
    = (Ok B, w').
Proof.
  intros HD; unfold get_B_disk, bind.
  match goal with
  | |- context [@get_B_disk_cyl ?S ?rr ?ph ?zz ?p ?w] =>
      destruct (sample_disk_cyl_run rr ph zz D 1 HD)
        as ([[Br Bphi] Bz] & w' & E);
      destruct (@get_B_disk_cyl S rr ph zz p w) as [ra wa] eqn:X;
      assert (Hx : (ra, wa) = (Ok (Br, Bphi, Bz), w'))
        by (rewrite <- X; exact E);
      inversion Hx; subst ra wa; clear Hx
  end.
  unfold ret; eauto.
Qed.

Lemma component_exception_safety_witness :
  exists w',
    @get_B_disk_cyl_component sample_scipy (single 1) (single 0) (single 0) 0
      (sample_params (-1)) initial_world = (Raise ZeroDivisionError, w')
    /\ B_norm w' = B_norm initial_world
    /\ nquad_calls w' = [0].
Proof.
  assert (HN : @normalization_value sample_scipy 0 (sample_params (-1))
               = Raise ZeroDivisionError).
  { unfold normalization_value.
    rewrite (sample_integral 0 (-1)) by lra.
    unfold float_pow.
    destruct (Req_dec_T (- -1 * 0 * 0) 0) as [_ | N]; [|exfalso; apply N; ring].
    destruct (Rlt_dec (-0.5) 0) as [_ | N]; [reflexivity | exfalso; lra]. }
  assert (E := @component_raises sample_scipy (single 1) (single 0) (single 0)
                 0 (sample_params (-1)) initial_world ZeroDivisionError
                 eq_refl HN).
  destruct (@component_exception_safety sample_scipy _ _ _ _ _ _ _ _ E)
    as (_ & _ & _ & Hb & Hc & _).
  eexists; split; [exact E|]; split; [exact Hb | exact Hc].
Defined.

Lemma disk_field_is_mode_superposition_witness :
  exists B w',
    @get_B_disk_cyl sample_scipy (single 1) (single 0) (single 0)
      (sample_params (-1)) initial_world = (Ok B, w')
    /\ Rabs (np.item (single 0) (0, 0, 0)%nat) <= 1
    /\ dict_get (B_norm w') 3.8317 <> None
    /\ np.item (B_2 B) (0, 0, 0)%nat
       = @superposition sample_scipy (fun t => snd (fst t)) w'
           (sample_params (-1)) 1 0 0 [(3.8317, 1)] 0.
Proof.
  destruct (sample_disk_cyl_run (single 1) (single 0) (single 0) (-1) 1)
    as (B & w' & E); [lra|].
  assert (Hz : Rabs (np.item (single 0) (0, 0, 0)%nat) <= 1)
    by (cbn [np.item single]; rewrite Rabs_R0; lra).
  destruct (@disk_field_is_mode_superposition sample_scipy _ _ _ _ _ _ _ E)
    as (_ & Hall & Hsum).
  exists B, w'; split; [exact E|]; split; [exact Hz|]; split.
  - apply Hall; left; reflexivity.
  - exact (proj1 (proj2 (Hsum (0, 0, 0)%nat Hz))).
Defined.

Lemma disk_field_zero_coefficients_witness :
  D_d (null_params (-1)) < 0
  /\ Forall (fun Cn => Cn = 0) (Cn_d (null_params (-1)))
  /\ exists B w',
       @get_B_disk_cyl sample_scipy (single 1) (single 0) (single 0)
         (null_params (-1)) initial_world = (Ok B, w')
       /\ np.item (B_2 B) (0, 0, 0)%nat = 0.
Proof.
  assert (HD : D_d (null_params (-1)) < 0) by (simpl; lra).
  assert (HC : Forall (fun Cn => Cn = 0) (Cn_d (null_params (-1))))
    by (repeat constructor).
  split; [exact HD|]; split; [exact HC|].
  destruct (sample_disk_cyl_run (single 1) (single 0) (single 0) (-1) 0)
    as (B & w' & E); [lra|].
  exists B, w'; split; [exact E|].
  exact (proj1 (proj2 (@disk_field_zero_coefficients sample_scipy _ _ _ _ _ _ _
                         HD HC E (0, 0, 0)%nat))).
Defined.

Lemma disk_field_horizontal_zero_at_surface_witness :
  D_d (sample_params (-1)) < 0
  /\ Rabs (np.item (single 1) (0, 0, 0)%nat) = 1
  /\ exists B w',
       @get_B_disk_cyl sample_scipy (single 1) (single 0) (single 1)
         (sample_params (-1)) initial_world = (Ok B, w')
       /\ np.item (B_1 B) (0, 0, 0)%nat = 0
       /\ np.item (B_2 B) (0, 0, 0)%nat = 0.
Proof.
  assert (HD : D_d (sample_params (-1)) < 0) by (simpl; lra).
  assert (Hz : Rabs (np.item (single 1) (0, 0, 0)%nat) = 1)
    by (cbn [np.item single]; apply Rabs_R1).
  split; [exact HD|]; split; [exact Hz|].
  destruct (sample_disk_cyl_run (single 1) (single 0) (single 1) (-1) 1)
    as (B & w' & E); [lra|].
  exists B, w'; split; [exact E|].
  exact (@disk_field_horizontal_zero_at_surface sample_scipy _ _ _ _ _ _ _
           HD E (0, 0, 0)%nat Hz).
Defined.

Lemma disk_field_mirror_symmetry_witness :
  D_d (sample_params (-1)) < 0
  /\ exists B B' w',
       @get_B_disk_cyl sample_scipy (single 1) (single 0) (single (1 / 2))
         (sample_params (-1)) initial_world = (Ok B, w')
       /\ @get_B_disk_cyl sample_scipy (single 1) (single 2)
            (np.map Ropp (single (1 / 2))) (sample_params (-1)) initial_world
          = (Ok B', w')
       /\ np.item (B_3 B') (0, 0, 0)%nat = - np.item (B_3 B) (0, 0, 0)%nat.
Proof.
  assert (HD : D_d (sample_params (-1)) < 0) by (simpl; lra).
  split; [exact HD|].
  destruct (sample_disk_cyl_run (single 1) (single 0) (single (1 / 2)) (-1) 1)
    as (B & w' & E); [lra|].
  destruct (@disk_field_mirror_symmetry sample_scipy (single 1) (single 0)
              (single 2) _ _ _ _ _ HD E) as (B' & E' & Hm).
  exists B, B', w'; split; [exact E|]; split; [exact E'|].
  exact (proj2 (proj2 (Hm (0, 0, 0)%nat))).
Defined.

Lemma get_B_disk_zero_outside_witness :
  R_d (sample_params (-1)) <> 0 /\ h_d (sample_params (-1)) <> 0
  /\ Rabs (np.item (single 2) (0, 0, 0)%nat) > Rabs (h_d (sample_params (-1)))
  /\ exists B w',
       @get_B_disk sample_scipy (single 1, single 1, single 2)
         (sample_params (-1)) initial_world = (Ok B, w')
       /\ np.item (B_1 B) (0, 0, 0)%nat = 0
       /\ np.item (B_2 B) (0, 0, 0)%nat = 0
       /\ np.item (B_3 B) (0, 0, 0)%nat = 0.
Proof.
  assert (HR : R_d (sample_params (-1)) <> 0) by (simpl; lra).
  assert (Hh : h_d (sample_params (-1)) <> 0) by (simpl; lra).
  assert (Hz : Rabs (np.item (single 2) (0, 0, 0)%nat)
               > Rabs (h_d (sample_params (-1)))).
  { cbn [np.item single sample_params h_d].
    rewrite Rabs_R1, Rabs_right; lra. }
  split; [exact HR|]; split; [exact Hh|]; split; [exact Hz|].
  destruct (sample_disk_run (single 1) (single 1) (single 2) (-1))
    as (B & w' & E); [lra|].
  exists B, w'; split; [exact E|].
  exact (@get_B_disk_zero_outside sample_scipy _ _ _ _ _ _ _ E HR Hh
           (0, 0, 0)%nat Hz).
Defined.

Lemma get_B_disk_is_a_rotation_witness :
  R_d (sample_params (-1)) <> 0 /\ h_d (sample_params (-1)) <> 0
  /\ exists B w',
       @get_B_disk sample_scipy (single 1, single 1, single 0)
         (sample_params (-1)) initial_world = (Ok B, w')
       /\ exists Br Bphi Bz : np.ndarray R,
            np.item (B_3 B) (0, 0, 0)%nat = np.item Bz (0, 0, 0)%nat
            /\ np.item (B_1 B) (0, 0, 0)%nat * np.item (B_1 B) (0, 0, 0)%nat
               + np.item (B_2 B) (0, 0, 0)%nat * np.item (B_2 B) (0, 0, 0)%nat
               = np.item Br (0, 0, 0)%nat * np.item Br (0, 0, 0)%nat
                 + np.item Bphi (0, 0, 0)%nat * np.item Bphi (0, 0, 0)%nat.
Proof.
  assert (HR : R_d (sample_params (-1)) <> 0) by (simpl; lra).
  assert (Hh : h_d (sample_params (-1)) <> 0) by (simpl; lra).
  split; [exact HR|]; split; [exact Hh|].
  destruct (sample_disk_run (single 1) (single 1) (single 0) (-1))
    as (B & w' & E); [lra|].
  exists B, w'; split; [exact E|].
  destruct (@get_B_disk_is_a_rotation sample_scipy _ _ _ _ _ _ _ E HR Hh)
    as (Br & Bphi & Bz & _ & Hrot).
  exists Br, Bphi, Bz.
  destruct (Hrot (0, 0, 0)%nat) as (H3 & Hn & _).
  split; [exact H3 | exact Hn].
Defined.

Import halo_free_decay_modes.

Lemma get_mode_dispatch_witness :
  (-3 <= 1 <= 4)%Z
  /\ exists B,
       @get_mode sample_scipy two_radii (equatorial two_radii)
         (np.zeros_like two_radii) 1 true = Ok B.
Proof.
  assert (Hn : (-3 <= 1 <= 4)%Z) by lia.
  split; [exact Hn|].
  destruct (@get_mode_dispatch sample_scipy two_radii (equatorial two_radii)
              (np.zeros_like two_radii))
    as (_ & _ & _ & _ & _ & _ & _ & _ & Hiff).
  exact (proj2 (Hiff 1%Z true) Hn).
Defined.

Lemma exterior_decays_from_boundary_value_witness :
  np.item two_radii (0, 0, 0)%nat = 1
  /\ 1 < np.item two_radii (1, 0, 0)%nat
  /\ np.item (B_1 (@get_B_a_1 sample_scipy 0.346 PI two_radii
                     (north two_radii) (np.zeros_like two_radii))) (1, 0, 0)%nat
     = np.item (B_1 (@get_B_a_1 sample_scipy 0.346 PI two_radii
                       (north two_radii) (np.zeros_like two_radii)))
         (0, 0, 0)%nat
       / np.item two_radii (1, 0, 0)%nat ^ 3.
Proof.
  assert (H0 : np.item two_radii (0, 0, 0)%nat = 1) by reflexivity.
  assert (H1 : 1 < np.item two_radii (1, 0, 0)%nat) by (simpl; lra).
  split; [exact H0|]; split; [exact H1|].
  exact (proj1 (@exterior_decays_from_boundary_value sample_scipy 0.346 PI)
           two_radii (north two_radii) (np.zeros_like two_radii)
           (0, 0, 0)%nat (1, 0, 0)%nat H0 H1 eq_refl).
Defined.

Lemma modes_reflect_across_the_equator_witness :
  np.item (south two_radii) (1, 0, 0)%nat
  = PI - np.item (north two_radii) (1, 0, 0)%nat
  /\ np.item (B_1 (@get_B_a_2 sample_scipy 0.250 5.763 two_radii
                     (south two_radii) (np.zeros_like two_radii))) (1, 0, 0)%nat
     = -1 * np.item (B_1 (@get_B_a_2 sample_scipy 0.250 5.763 two_radii
                            (north two_radii) (np.zeros_like two_radii)))
              (1, 0, 0)%nat.
Proof.
  assert (Ht : np.item (south two_radii) (1, 0, 0)%nat
               = PI - np.item (north two_radii) (1, 0, 0)%nat) by reflexivity.
  split; [exact Ht|].
  destruct (@modes_reflect_across_the_equator sample_scipy) as (_ & HA2 & _).
  exact (proj1 (HA2 0.250 5.763 two_radii (north two_radii) (south two_radii)
                  (np.zeros_like two_radii) (np.zeros_like two_radii)
                  (1, 0, 0)%nat Ht)).
Defined.

Lemma a_1_a_4_polar_component_continues_witness :
  @jv closed_form_scipy (3 / 2) PI = j_three_halves PI
  /\ @jv closed_form_scipy (3 / 2) (2 * PI) = j_three_halves (2 * PI)
  /\ np.item (B_2 (@a_1 closed_form_scipy two_radii (north two_radii)
                     (np.zeros_like two_radii))) (1, 0, 0)%nat
     = np.item (B_2 (@a_1 closed_form_scipy two_radii (north two_radii)
                       (np.zeros_like two_radii))) (0, 0, 0)%nat
       / np.item two_radii (1, 0, 0)%nat ^ 3.
Proof.
  assert (H1 : 1 < np.item two_radii (1, 0, 0)%nat) by (simpl; lra).
  split; [reflexivity|]; split; [reflexivity|].
  exact (proj1 (@a_1_a_4_polar_component_continues closed_form_scipy two_radii
                  (north two_radii) (np.zeros_like two_radii)
                  (0, 0, 0)%nat (1, 0, 0)%nat eq_refl eq_refl eq_refl H1
                  eq_refl)).
Defined.

End MoreRuns.
